(** * L'Oreal chatbot client (script.js): conversation store, relay client,
      colour math, contrast corrector, theme switcher and worker URL form;
      the relay itself (worker/index.js)

    A shallow embedding of [src/script.js], and of the worker that the
    script posts to, [src/worker/index.js].  The script is untyped
    JavaScript that moves JSON data between the page, [localStorage] and
    the network, so the embedding has three layers:

    - [value], the JavaScript values the script handles, with the
      platform operations it relies on (truthiness, property access,
      [JSON.stringify], [JSON.parse], [localStorage], [parseInt]);
    - the script's own functions, one definition per source function and
      under the source's name, with the page state threaded explicitly;
    - the properties of the specification, stated on those definitions.

    Modelling conventions.  Strings are Rocq strings, a character per
    code unit (text outside ASCII is carried as its UTF-8 bytes).  Numbers
    are idealised: integers ([Z]) where the script's values are integral
    (timestamps, HTTP status codes, [parseInt] results, colour channels),
    exact rationals for the interpolation step, and real numbers for
    luminance and contrast, whose gamma curve is a real power.  IEEE
    rounding is outside the model. *)

From Stdlib Require Import Ascii String ZArith QArith Qround Qminmax Reals.
From Stdlib Require Import Lqa Lra Lia.
From Stdlib Require Import DecimalString DecimalZ DecimalPos DecimalN.
From stdpp Require Import gmap strings list.
From Equations Require Import Equations.

Local Open Scope string_scope.
#[local] Arguments String.append : simpl nomatch.

(** ** JavaScript values *)

Unset Elimination Schemes.
Inductive value : Type :=
| Undefined
| Null
| Bool (b : bool)
| Num (n : Z)
| Str (s : string)
| Arr (xs : list value)
| Obj (fields : list (string * value)).
Set Elimination Schemes.

(** Induction principle that reaches inside arrays and objects. *)
Section value_induction.
Variable P : value -> Prop.
Hypothesis HUndefined : P Undefined.
Hypothesis HNull : P Null.
Hypothesis HBool : forall b, P (Bool b).
Hypothesis HNum : forall n, P (Num n).
Hypothesis HStr : forall s, P (Str s).
Hypothesis HArr : forall xs, Forall P xs -> P (Arr xs).
Hypothesis HObj : forall fs, Forall (fun kv => P (snd kv)) fs -> P (Obj fs).

Fixpoint value_nested_ind (v : value) : P v :=
  match v with
  | Undefined => HUndefined
  | Null => HNull
  | Bool b => HBool b
  | Num n => HNum n
  | Str s => HStr s
  | Arr xs =>
      HArr xs ((fix go (l : list value) : Forall P l :=
                  match l with
                  | [] => List.Forall_nil P
                  | x :: l' => List.Forall_cons P x l' (value_nested_ind x) (go l')
                  end) xs)
  | Obj fs =>
      HObj fs ((fix go (l : list (string * value))
                  : Forall (fun kv => P (snd kv)) l :=
                  match l with
                  | [] => List.Forall_nil _
                  | kv :: l' =>
                      List.Forall_cons (fun kv => P (snd kv)) kv l'
                        (value_nested_ind (snd kv)) (go l')
                  end) fs)
  end.
End value_induction.

(** [ToBoolean]: the falsy values are [undefined], [null], [false], [0]
    and the empty string. *)
Definition truthy (v : value) : bool :=
  match v with
  | Undefined | Null => false
  | Bool b => b
  | Num n => negb (n =? 0)%Z
  | Str s => negb (String.eqb s EmptyString)
  | Arr _ | Obj _ => true
  end.

(** [a || b] *)
Definition js_or (a b : value) : value := if truthy a then a else b.

(** Own property of an object literal or parsed object.  A key bound
    twice reads as its last binding, as after successive assignments. *)
Fixpoint obj_lookup (k : string) (fs : list (string * value)) : option value :=
  match fs with
  | [] => None
  | (k', v) :: fs' =>
      match obj_lookup k fs' with
      | Some later => Some later
      | None => if String.eqb k k' then Some v else None
      end
  end.

Definition obj_get (k : string) (fs : list (string * value)) : value :=
  default Undefined (obj_lookup k fs).

(** Outcome of an expression that may throw. *)
Inductive result (A : Type) : Type :=
| Ok (a : A)
| Throw (message : string).
Arguments Ok {A} a.
Arguments Throw {A} message.

Definition bind {A B : Type} (r : result A) (k : A -> result B) : result B :=
  match r with
  | Ok a => k a
  | Throw e => Throw e
  end.

Notation "'let*' x ':=' r 'in' k" := (bind r (fun x => k))
  (at level 10, x name, r at level 100, k at level 200).

(** [v.name] for the property names the script reads ([role], [content],
    [timestamp], [choices], [message]); none of them is defined on the
    prototypes of arrays, strings, numbers or booleans.  Reading a
    property of [undefined] or [null] throws a TypeError. *)
Definition get_prop (v : value) (name : string) : result value :=
  match v with
  | Undefined | Null => Throw "TypeError"
  | Obj fs => Ok (obj_get name fs)
  | _ => Ok Undefined
  end.

(** [v?.name] *)
Definition opt_prop (v : value) (name : string) : value :=
  match v with
  | Obj fs => obj_get name fs
  | _ => Undefined
  end.

(** [v?.[0]]: element 0 of an array, property "0" of an object, the first
    character of a string. *)
Definition opt_index0 (v : value) : value :=
  match v with
  | Arr (x :: _) => x
  | Obj fs => obj_get "0" fs
  | Str (String c _) => Str (String c EmptyString)
  | _ => Undefined
  end.

(** ** Strings *)

(** White space that [String.prototype.trim] and [parseInt] strip (the
    ASCII part: tab, line feed, vertical tab, form feed, carriage return
    and space). *)
Definition is_space (c : ascii) : bool :=
  let n := N_of_ascii c in
  ((9 <=? n)%N && (n <=? 13)%N) || (n =? 32)%N.

Fixpoint trim_start (s : string) : string :=
  match s with
  | String c s' => if is_space c then trim_start s' else s
  | EmptyString => s
  end.

(** The string without its trailing white space. *)
Fixpoint trim_end (s : string) : string :=
  match s with
  | String c s' =>
      match trim_end s' with
      | EmptyString => if is_space c then EmptyString else String c EmptyString
      | t => String c t
      end
  | EmptyString => s
  end.

(** [s.trim()] *)
Definition trim (s : string) : string := trim_end (trim_start s).

(** [a || b] on strings: the empty string is falsy. *)
Definition or_else (a b : string) : string :=
  match a with
  | EmptyString => b
  | _ => a
  end.

(** The rest of [s] after the prefix [p], when [s] starts with [p]. *)
Fixpoint strip_prefix (p s : string) : option string :=
  match p, s with
  | EmptyString, _ => Some s
  | String a p', String b s' =>
      if Ascii.eqb a b then strip_prefix p' s' else None
  | String _ _, EmptyString => None
  end.

(** The lower-case hexadecimal digit of a number below sixteen. *)
Definition hex_digit (n : N) : ascii :=
  if (n <? 10)%N then ascii_of_N (48 + n) else ascii_of_N (87 + n).

(** The value of a hexadecimal digit, in either case. *)
Definition hex_value (c : ascii) : option N :=
  let n := N_of_ascii c in
  if (48 <=? n)%N && (n <=? 57)%N then Some (n - 48)%N
  else if (97 <=? n)%N && (n <=? 102)%N then Some (n - 87)%N
  else if (65 <=? n)%N && (n <=? 70)%N then Some (n - 55)%N
  else None.

(** ** The platform's JSON codec

    [JSON.stringify] and [JSON.parse] for the values above.  Numbers are
    the integers; a numeral with a fraction or an exponent is outside the
    modelled fragment and is not accepted by [JSON.parse]. *)
Module JSON.

Definition dquote : ascii := ascii_of_N 34.

(** QuoteJSONString, one code unit at a time. *)
Definition quote_char (c : ascii) : string :=
  let n := N_of_ascii c in
  if (n =? 34)%N then String "\" (String dquote EmptyString)
  else if (n =? 92)%N then "\\"
  else if (n =? 8)%N then "\b"
  else if (n =? 9)%N then "\t"
  else if (n =? 10)%N then "\n"
  else if (n =? 12)%N then "\f"
  else if (n =? 13)%N then "\r"
  else if (n <? 32)%N then
    "\u00" +:+
    String (hex_digit (n / 16)) (String (hex_digit (n mod 16)) EmptyString)
  else String c EmptyString.

Fixpoint quote_chars (s : string) : string :=
  match s with
  | EmptyString => EmptyString
  | String c s' => quote_char c +:+ quote_chars s'
  end.

Definition quote (s : string) : string :=
  String dquote (quote_chars s +:+ String dquote EmptyString).

Definition number_to_string (n : Z) : string :=
  match Z.to_int n with
  | Decimal.Pos u => NilEmpty.string_of_uint u
  | Decimal.Neg u => String "-" (NilEmpty.string_of_uint u)
  end.

Section serialize.
Variable serialize : value -> string.

(** The elements of an array after its opening bracket. *)
Fixpoint elements (l : list value) : string :=
  match l with
  | [] => "]"
  | [x] => serialize x +:+ "]"
  | x :: l' => serialize x +:+ "," +:+ elements l'
  end.

(** The members of an object after its opening brace; [first] tells
    whether a member was written already. *)
Fixpoint members (first : bool) (l : list (string * value)) : string :=
  match l with
  | [] => "}"
  | (_, Undefined) :: l' => members first l'
  | (k, x) :: l' =>
      (if first then EmptyString else ",") +:+
      quote k +:+ ":" +:+ serialize x +:+ members false l'
  end.
End serialize.

(** SerializeJSONProperty without indentation: [undefined] is written
    [null] as an array element and its property is left out of an
    object.  The script applies it to arrays and objects only. *)
Fixpoint stringify (v : value) : string :=
  match v with
  | Undefined | Null => "null"
  | Bool true => "true"
  | Bool false => "false"
  | Num n => number_to_string n
  | Str s => quote s
  | Arr xs => "[" +:+ elements stringify xs
  | Obj fs => "{" +:+ members stringify true fs
  end.

(** *** JSON.parse *)

Definition is_ws (c : ascii) : bool :=
  let n := N_of_ascii c in
  (n =? 32)%N || (n =? 9)%N || (n =? 10)%N || (n =? 13)%N.

Fixpoint skip_ws (s : string) : string :=
  match s with
  | String c s' => if is_ws c then skip_ws s' else s
  | EmptyString => s
  end.

Definition digit_of (c : ascii) : option (Decimal.uint -> Decimal.uint) :=
  match N_of_ascii c with
  | 48 => Some Decimal.D0 | 49 => Some Decimal.D1 | 50 => Some Decimal.D2
  | 51 => Some Decimal.D3 | 52 => Some Decimal.D4 | 53 => Some Decimal.D5
  | 54 => Some Decimal.D6 | 55 => Some Decimal.D7 | 56 => Some Decimal.D8
  | 57 => Some Decimal.D9 | _ => None
  end%N.

(** The longest run of decimal digits at the head of [s]. *)
Fixpoint digits (s : string) : Decimal.uint * string :=
  match s with
  | String c s' =>
      match digit_of c with
      | Some d => let '(u, r) := digits s' in (d u, r)
      | None => (Decimal.Nil, s)
      end
  | EmptyString => (Decimal.Nil, s)
  end.

(** An integer numeral: an optional minus sign, then [0] or a run of
    digits that does not start with [0]. *)
Definition parse_number (s : string) : option (Z * string) :=
  let '(negative, s1) :=
    match strip_prefix "-" s with
    | Some r => (true, r)
    | None => (false, s)
    end in
  let '(u, r) := digits s1 in
  if Decimal.uint_beq (Decimal.unorm u) u
  then Some (Z.of_int (if negative then Decimal.Neg u else Decimal.Pos u), r)
  else None.

Definition hex4 (a b c d : ascii) : option N :=
  x ← hex_value a; y ← hex_value b; z ← hex_value c; w ← hex_value d;
  Some (((x * 16 + y) * 16 + z) * 16 + w)%N.

(** The UTF-8 bytes of the code unit of a [\u] escape. *)
Definition utf8 (cu : N) : string :=
  if (cu <? 128)%N then String (ascii_of_N cu) EmptyString
  else if (cu <? 2048)%N then
    String (ascii_of_N (192 + cu / 64))
      (String (ascii_of_N (128 + cu mod 64)) EmptyString)
  else
    String (ascii_of_N (224 + cu / 4096))
      (String (ascii_of_N (128 + (cu / 64) mod 64))
         (String (ascii_of_N (128 + cu mod 64)) EmptyString)).

Definition unescape (e : ascii) : option ascii :=
  match N_of_ascii e with
  | 34 => Some dquote
  | 92 => Some (ascii_of_N 92)
  | 47 => Some (ascii_of_N 47)
  | 98 => Some (ascii_of_N 8)
  | 102 => Some (ascii_of_N 12)
  | 110 => Some (ascii_of_N 10)
  | 114 => Some (ascii_of_N 13)
  | 116 => Some (ascii_of_N 9)
  | _ => None
  end%N.

(** The characters of a string literal after its opening quote, up to
    and including the closing quote. *)
Fixpoint parse_chars (s : string) : option (string * string) :=
  match s with
  | EmptyString => None
  | String c s' =>
      let n := N_of_ascii c in
      if (n =? 34)%N then Some (EmptyString, s')
      else if (n <? 32)%N then None
      else if (n =? 92)%N then
        match s' with
        | String e s'' =>
            match unescape e with
            | Some ch => '(str, r) ← parse_chars s''; Some (String ch str, r)
            | None =>
                if (N_of_ascii e =? 117)%N then
                  match s'' with
                  | String h1 (String h2 (String h3 (String h4 r4))) =>
                      cu ← hex4 h1 h2 h3 h4;
                      '(str, r) ← parse_chars r4;
                      Some (utf8 cu +:+ str, r)
                  | _ => None
                  end
                else None
            end
        | EmptyString => None
        end
      else '(str, r) ← parse_chars s'; Some (String c str, r)
  end.

(** The next character after white space, when it is the one with
    code [n]. *)
Definition expect (n : N) (s : string) : option string :=
  match skip_ws s with
  | String c r => if (N_of_ascii c =? n)%N then Some r else None
  | EmptyString => None
  end.

(** Recursive descent.  Every call consumes a character before it
    recurses, so the length of the text bounds the recursion: [fuel]
    stands for that bound. *)
Fixpoint parse_value (fuel : nat) (s : string) : option (value * string) :=
  match fuel with
  | O => None
  | S fuel' =>
      let s0 := skip_ws s in
      match expect 34 s0 with
      | Some r => '(str, r') ← parse_chars r; Some (Str str, r')
      | None =>
      match expect 91 s0 with
      | Some r =>
          match expect 93 r with
          | Some r' => Some (Arr [], r')
          | None => '(xs, r') ← parse_elements fuel' r; Some (Arr xs, r')
          end
      | None =>
      match expect 123 s0 with
      | Some r =>
          match expect 125 r with
          | Some r' => Some (Obj [], r')
          | None => '(fs, r') ← parse_members fuel' r; Some (Obj fs, r')
          end
      | None =>
      match strip_prefix "null" s0 with
      | Some r => Some (Null, r)
      | None =>
      match strip_prefix "true" s0 with
      | Some r => Some (Bool true, r)
      | None =>
      match strip_prefix "false" s0 with
      | Some r => Some (Bool false, r)
      | None => '(z, r) ← parse_number s0; Some (Num z, r)
      end end end end end end
  end
with parse_elements (fuel : nat) (s : string) : option (list value * string) :=
  match fuel with
  | O => None
  | S fuel' =>
      '(v, r) ← parse_value fuel' s;
      match expect 44 r with
      | Some r' => '(vs, r'') ← parse_elements fuel' r'; Some (v :: vs, r'')
      | None =>
          match expect 93 r with
          | Some r' => Some ([v], r')
          | None => None
          end
      end
  end
with parse_members (fuel : nat) (s : string)
     : option (list (string * value) * string) :=
  match fuel with
  | O => None
  | S fuel' =>
      r ← expect 34 s;
      '(k, r1) ← parse_chars r;
      r2 ← expect 58 r1;
      '(v, r3) ← parse_value fuel' r2;
      match expect 44 r3 with
      | Some r4 => '(fs, r5) ← parse_members fuel' r4; Some ((k, v) :: fs, r5)
      | None =>
          match expect 125 r3 with
          | Some r4 => Some ([(k, v)], r4)
          | None => None
          end
      end
  end.

(** [JSON.parse text]; [None] stands for the SyntaxError it throws. *)
Definition parse (text : string) : option value :=
  match parse_value (S (String.length text)) text with
  | Some (v, r) =>
      match skip_ws r with
      | EmptyString => Some v
      | String _ _ => None
      end
  | None => None
  end.

(** *** Notions for the round trip *)

(** The values that JSON text can denote: no [undefined] inside. *)
Fixpoint is_json (v : value) : bool :=
  match v with
  | Undefined => false
  | Arr xs => forallb is_json xs
  | Obj fs => forallb (fun kv => is_json (snd kv)) fs
  | _ => true
  end.

(** The recursion depth that parsing the text of [v] takes. *)
Fixpoint need (v : value) : nat :=
  match v with
  | Arr xs => S (foldr (fun x n => S (Nat.max (need x) n)) 0%nat xs)
  | Obj fs => S (foldr (fun kv n => S (Nat.max (need (snd kv)) n)) 0%nat fs)
  | _ => 1
  end.

(** Text that does not go on with a digit. *)
Definition no_digit (s : string) : Prop :=
  match s with
  | String c _ => digit_of c = None
  | EmptyString => True
  end.

(** Text whose first character can open a value: no white space, and
    none of the closing or separating characters. *)
Definition opens_value (s : string) : Prop :=
  match s with
  | String c _ =>
      is_ws c = false /\ N_of_ascii c <> 93%N /\ N_of_ascii c <> 125%N /\
      N_of_ascii c <> 44%N /\ N_of_ascii c <> 58%N
  | EmptyString => False
  end.

Definition is_number_head (c : ascii) : bool :=
  let n := N_of_ascii c in
  (n =? 45)%N || ((48 <=? n)%N && (n <=? 57)%N).

End JSON.

(** [v === s] for a string [s]. *)
Definition is_str (v : value) (s : string) : bool :=
  match v with
  | Str s' => String.eqb s' s
  | _ => false
  end.

(** ** localStorage

    A store of string items.  [quota] stands for the browser's storage
    policy: whether, with the items at hand, a write of a value under a
    key is accepted; a refused write throws. *)
Module localStorage.

Record t : Type := {
  items : gmap string string;
  quota : gmap string string -> string -> string -> bool
}.

(** [localStorage.getItem(key)]; [None] is [null]. *)
Definition getItem (st : t) (key : string) : option string :=
  items st !! key.

(** [localStorage.setItem(key, text)] *)
Definition setItem (st : t) (key text : string) : result t :=
  if quota st (items st) key text
  then Ok {| items := <[key := text]> (items st); quota := quota st |}
  else Throw "QuotaExceededError".

(** [localStorage.removeItem(key)] *)
Definition removeItem (st : t) (key : string) : t :=
  {| items := delete key (items st); quota := quota st |}.

End localStorage.

(** ** The chat window

    The children of [#chatWindow], oldest first.  A bubble records the
    value assigned to its text and the timestamp it displays, if any. *)
Inductive node : Type :=
| UserBubble (text : value) (time : option value)
| AssistantBubble (text : value) (loading : bool) (time : option value)
| LatestQuestion (text : value).

(** ** Page state *)
Record page : Type := {
  messages : list value;
  storage : localStorage.t;
  chatWindow : list node
}.

Definition with_messages (ms : list value) (p : page) : page :=
  {| messages := ms; storage := storage p; chatWindow := chatWindow p |}.

Definition with_storage (st : localStorage.t) (p : page) : page :=
  {| messages := messages p; storage := st; chatWindow := chatWindow p |}.

Definition with_chatWindow (w : list node) (p : page) : page :=
  {| messages := messages p; storage := storage p; chatWindow := w |}.

(** ** Conversation store (script.js lines 64-125) *)

Definition systemPrompt : string :=
  "You are a helpful assistant that ONLY answers questions about L'Oréal products, routines, product recommendations, ingredients, and beauty-related topics associated with L'Oréal brands. If the user asks about anything outside L'Oréal products or beauty routines (finance, politics, unrelated brands, detailed medical advice, illegal activities, etc.), politely refuse and state you can only help with L'Oréal-related beauty/product questions. Keep answers friendly, concise, and use brand-appropriate tone.".

(** [{ role: 'system', content: systemPrompt }] *)
Definition systemMessage : value :=
  Obj [("role", Str "system"); ("content", Str systemPrompt)].

Definition STORAGE_KEY : string := "loreal_chat_history_v1".

Definition greeting : string :=
  "👋 Hi — ask me about L'Oréal products, routines, or recommendations.".

(** [appendUserBubble(text, ts)]: the time is shown when [ts] is truthy. *)
Definition appendUserBubble (text ts : value) (p : page) : page :=
  with_chatWindow
    (chatWindow p ++ [UserBubble text (if truthy ts then Some ts else None)]) p.

(** [appendAssistantBubble(text, { loading })] and
    [appendAssistantBubble(text, { timestamp })]. *)
Definition appendAssistantBubble (text : value) (loading : bool)
    (timestamp : value) (p : page) : page :=
  with_chatWindow
    (chatWindow p ++
     [AssistantBubble text loading
        (if loading then None
         else if truthy timestamp then Some timestamp else None)]) p.

Definition is_latest_question (n : node) : bool :=
  match n with
  | LatestQuestion _ => true
  | _ => false
  end.

(** Removal of the first node a predicate selects
    ([document.querySelector(...).remove()]). *)
Fixpoint remove_first (f : node -> bool) (w : list node) : list node :=
  match w with
  | [] => []
  | n :: w' => if f n then w' else n :: remove_first f w'
  end.

Definition updateLatestQuestionDisplay (text : value) (p : page) : page :=
  with_chatWindow
    (remove_first is_latest_question (chatWindow p) ++ [LatestQuestion text]) p.

(** [loadHistory()]: the array read back, or [None] for [null], and the
    storage it leaves. *)
Definition loadHistory (st : localStorage.t) : option (list value) * localStorage.t :=
  match localStorage.getItem st STORAGE_KEY with
  | None => (None, st)
  | Some raw =>
      match raw with
      | EmptyString => (None, st)
      | _ =>
          match JSON.parse raw with
          | Some (Arr parsed) => (Some parsed, st)
          | Some _ => (None, st)
          | None => (None, localStorage.removeItem st STORAGE_KEY)
          end
      end
  end.

(** [m.role === 'user' || m.role === 'assistant'] *)
Definition is_chat_message (m : value) : result bool :=
  let* role := get_prop m "role" in
  Ok (is_str role "user" || is_str role "assistant").

(** [messages.filter(m => m.role === 'user' || m.role === 'assistant')] *)
Fixpoint filter_chat (ms : list value) : result (list value) :=
  match ms with
  | [] => Ok []
  | m :: ms' =>
      let* keep := is_chat_message m in
      let* rest := filter_chat ms' in
      Ok (if keep then m :: rest else rest)
  end.

(** [saveHistory()]: whatever is thrown inside is caught and logged. *)
Definition saveHistory (p : page) : page :=
  match
    let* toSave := filter_chat (messages p) in
    localStorage.setItem (storage p) STORAGE_KEY (JSON.stringify (Arr toSave))
  with
  | Ok st => with_storage st p
  | Throw _ => p
  end.

(** [clearHistory()] *)
Definition clearHistory (p : page) : page :=
  let p1 := with_storage (localStorage.removeItem (storage p) STORAGE_KEY) p in
  let p2 := with_messages [systemMessage] p1 in
  let p3 := with_chatWindow [] p2 in
  appendAssistantBubble (Str greeting) false Undefined p3.

(** The body of [restored.forEach((m) => ...)] (lines 114-121). *)
Definition render_restored (m : value) (p : page) : result page :=
  let* role := get_prop m "role" in
  if is_str role "user" then
    let* content := get_prop m "content" in
    let* timestamp := get_prop m "timestamp" in
    Ok (updateLatestQuestionDisplay content (appendUserBubble content timestamp p))
  else if is_str role "assistant" then
    let* content := get_prop m "content" in
    let* timestamp := get_prop m "timestamp" in
    Ok (appendAssistantBubble content false timestamp p)
  else Ok p.

Fixpoint forEach_restored (ms : list value) (p : page) : result page :=
  match ms with
  | [] => Ok p
  | m :: ms' => let* p' := render_restored m p in forEach_restored ms' p'
  end.

(** Page load (lines 68-125): a new session starts from the system
    message and an empty chat window, over the storage that the browser
    kept. *)
Definition init (st : localStorage.t) : result page :=
  let p0 := {| messages := [systemMessage]; storage := st; chatWindow := [] |} in
  let '(restored, st') := loadHistory st in
  let p1 := with_storage st' p0 in
  match restored with
  | Some (m :: ms) =>
      forEach_restored (m :: ms) (with_messages (systemMessage :: m :: ms) p1)
  | _ => Ok (appendAssistantBubble (Str greeting) false Undefined p1)
  end.

(** ** Relay client: the submit handler (lines 209-309) *)

(** An outgoing POST request.  [bearer] is the key of the Authorization
    header, when the request carries one; the Content-Type header is
    the same on every request. *)
Record request : Type := {
  url : value;
  bearer : option value;
  body : string
}.

(** A received response; [json] is the outcome of [res.json()]. *)
Record response : Type := {
  ok : bool;
  status : Z;
  statusText : string;
  json : result value
}.

(** The configuration globals of [secrets.js] / [config.js], [Undefined]
    when not defined, and the network. *)
Record env : Type := {
  WORKER_URL : value;
  OPENAI_API_KEY : value;
  fetch : request -> result response
}.

Definition is_undefined (v : value) : bool :=
  match v with
  | Undefined => true
  | _ => false
  end.

(** The URL that line 233 does not take for a worker URL. *)
Definition placeholder : string := "https://your-worker.example.workers.dev".

(** [typeof WORKER_URL !== 'undefined' && WORKER_URL && WORKER_URL !== '...']
    (line 233) *)
Definition relay_configured (e : env) : bool :=
  negb (is_undefined (WORKER_URL e)) && truthy (WORKER_URL e) &&
  negb (is_str (WORKER_URL e) placeholder).

(** [typeof OPENAI_API_KEY !== 'undefined' && OPENAI_API_KEY && ...]
    (line 265) *)
Definition direct_configured (e : env) : bool :=
  negb (is_undefined (OPENAI_API_KEY e)) && truthy (OPENAI_API_KEY e) &&
  negb (is_str (OPENAI_API_KEY e) "REPLACE_WITH_YOUR_OPENAI_KEY").

(** [messages.map(m => ({ role: m.role, content: m.content }))] *)
Fixpoint apiMessages (ms : list value) : result (list value) :=
  match ms with
  | [] => Ok []
  | m :: ms' =>
      let* role := get_prop m "role" in
      let* content := get_prop m "content" in
      let* rest := apiMessages ms' in
      Ok (Obj [("role", role); ("content", content)] :: rest)
  end.

(** [{ messages: apiMessages }] *)
Definition payload (api : list value) : value :=
  Obj [("messages", Arr api)].

Definition fallback : string := "Sorry, I could not get an answer.".

(** [data?.choices?.[0]?.message?.content] *)
Definition content_path (data : value) : value :=
  opt_prop (opt_prop (opt_index0 (opt_prop data "choices")) "message") "content".

(** [data?.choices?.[0]?.message?.content || 'Sorry, ...'] (lines 245, 278) *)
Definition reply (data : value) : value :=
  js_or (content_path data) (Str fallback).

(** Assignment to the bubble the handler holds a reference to. *)
Definition setBubble (i : nat) (n : node) (p : page) : page :=
  with_chatWindow (<[i := n]> (chatWindow p)) p.

Definition push (m : value) (p : page) : page :=
  with_messages (messages p ++ [m]) p.

Definition userMessage (text : string) (ts : Z) : value :=
  Obj [("role", Str "user"); ("content", Str text); ("timestamp", Num ts)].

Definition assistantMessage (content : value) (ts : Z) : value :=
  Obj [("role", Str "assistant"); ("content", content); ("timestamp", Num ts)].

(** Lines 247-263, and again 279-291: the loading bubble gets the reply
    and its time, the reply joins the history, the history is saved. *)
Definition showReply (r : value) (assistantTs : Z) (loadingBubble : nat)
    (p : page) : page :=
  let p1 :=
    setBubble loadingBubble
      (AssistantBubble r false (Some (Num assistantTs))) p in
  saveHistory (push (assistantMessage r assistantTs) p1).

(** The [try] block (lines 227-297): the requests it sends, and the page
    it leaves or the message of what it throws.  Nothing is changed
    before the last point that can throw. *)
Definition attempt (e : env) (assistantTs : Z) (loadingBubble : nat)
    (p : page) : list request * result page :=
  match apiMessages (messages p) with
  | Throw err => ([], Throw err)
  | Ok api =>
      if relay_configured e then
        let req := {| url := WORKER_URL e; bearer := None;
                      body := JSON.stringify (payload api) |} in
        ([req],
         let* res := fetch e req in
         if negb (ok res) then
           Throw ("Worker error: " +:+ JSON.number_to_string (status res)
                  +:+ " " +:+ statusText res)
         else
           let* data := json res in
           Ok (showReply (reply data) assistantTs loadingBubble p))
      else if direct_configured e then
        let req := {| url := Str "https://api.openai.com/v1/chat/completions";
                      bearer := Some (OPENAI_API_KEY e);
                      body := JSON.stringify
                                (Obj [("model", Str "gpt-4o");
                                      ("messages", Arr api)]) |} in
        ([req],
         let* res := fetch e req in
         if negb (ok res) then
           Throw ("OpenAI error: " +:+ JSON.number_to_string (status res)
                  +:+ " " +:+ statusText res)
         else
           let* data := json res in
           Ok (showReply (reply data) assistantTs loadingBubble p))
      else
        ([],
         Ok (setBubble loadingBubble
               (AssistantBubble
                  (Str "Configuration missing: set WORKER_URL in secrets.js to your Cloudflare Worker URL.")
                  false None) p))
  end.

(** What one submission leaves: the page and the requests sent. *)
Record outcome : Type := {
  final : page;
  sent : list request
}.

(** The submit handler, run to completion: [input] is the text of the
    input field, [userTs] and [assistantTs] the two readings of
    [Date.now()]. *)
Definition onSubmit (e : env) (input : string) (userTs assistantTs : Z)
    (p : page) : outcome :=
  match trim input with
  | EmptyString => {| final := p; sent := [] |}
  | text =>
      let p1 := appendUserBubble (Str text) (Num userTs) p in
      let p2 := updateLatestQuestionDisplay (Str text) p1 in
      let p3 := push (userMessage text userTs) p2 in
      let p4 := saveHistory p3 in
      let loadingBubble := length (chatWindow p4) in
      let p5 := appendAssistantBubble (Str "Thinking...") true Undefined p4 in
      let '(requests, r) := attempt e assistantTs loadingBubble p5 in
      {| sent := requests;
         final :=
           match r with
           | Ok p6 => p6
           | Throw err =>
               setBubble loadingBubble
                 (AssistantBubble
                    (Str ("Error: " +:+ or_else err "Request failed"))
                    false None) p5
           end |}
  end.

(** ** Colour math (lines 343-411) *)

(** A number that may be [NaN]. *)
Inductive number : Type :=
| NaN
| Real (r : R).

(** A colour channel as [hexToRgb] computes it: an integer, or [None]
    for [NaN]. *)
Definition channel : Type := option Z.

Definition rgb : Type := (channel * channel * channel)%type.

(** The longest run of hexadecimal digits at the head of [s], read as a
    number on top of [acc]; [None] when there is no digit. *)
Fixpoint hex_run (acc : option Z) (s : string) : option Z :=
  match s with
  | String c s' =>
      match hex_value c with
      | Some d => hex_run (Some (16 * default 0 acc + Z.of_N d)%Z) s'
      | None => acc
      end
  | EmptyString => acc
  end.

(** [parseInt(s, 16)]: leading white space, a sign and a [0x] prefix are
    skipped, then the digits are read up to the first character that is
    not one.  The integer is kept exact, where a double keeps 53 bits of
    it. *)
Definition parseInt16 (s : string) : option Z :=
  let s1 := trim_start s in
  let '(negative, s2) :=
    match strip_prefix "-" s1 with
    | Some r => (true, r)
    | None =>
        match strip_prefix "+" s1 with
        | Some r => (false, r)
        | None => (false, s1)
        end
    end in
  let s3 :=
    match strip_prefix "0x" s2 with
    | Some r => r
    | None =>
        match strip_prefix "0X" s2 with
        | Some r => r
        | None => s2
        end
    end in
  n ← hex_run None s3; Some (if negative then (- n)%Z else n).

(** [ToInt32]: [NaN] becomes 0, an integer wraps to 32 bits, signed. *)
Definition toInt32 (n : option Z) : Z :=
  match n with
  | None => 0
  | Some z => ((z + 2 ^ 31) mod 2 ^ 32 - 2 ^ 31)%Z
  end.

(** [(n >> k) & 255] *)
Definition byte_at (n : option Z) (k : Z) : Z :=
  Z.land (Z.shiftr (toInt32 n) k) 255.

(** [hex.replace('#', '')]: the first [#] is removed. *)
Fixpoint remove_hash (s : string) : string :=
  match s with
  | String c s' => if (N_of_ascii c =? 35)%N then s' else String c (remove_hash s')
  | EmptyString => s
  end.

Definition twice (c : ascii) : string := String c (String c EmptyString).

(** [hexToRgb(hex)] (lines 344-351): [h.length === 3] is the case of
    three characters, each read doubled; every other length goes through
    the bytes of [bigint]. *)
Definition hexToRgb (hex : string) : rgb :=
  let h := trim (remove_hash hex) in
  let bigint := parseInt16 h in
  match h with
  | String c0 (String c1 (String c2 EmptyString)) =>
      (parseInt16 (twice c0), parseInt16 (twice c1), parseInt16 (twice c2))
  | _ => (Some (byte_at bigint 16), Some (byte_at bigint 8), Some (byte_at bigint 0))
  end.

Local Open Scope R_scope.

(** [v/255], then [c <= 0.03928 ? c/12.92 : Math.pow((c+0.055)/1.055, 2.4)];
    every operation on [NaN] gives [NaN]. *)
Definition linearize (v : channel) : number :=
  match v with
  | None => NaN
  | Some z =>
      let c := IZR z / 255 in
      Real (if Rle_dec c 0.03928 then c / 12.92
            else Rpower ((c + 0.055) / 1.055) 2.4)
  end.

Definition lift2 (f : R -> R -> R) (a b : number) : number :=
  match a, b with
  | Real x, Real y => Real (f x y)
  | _, _ => NaN
  end.

Definition relativeLuminance (c : rgb) : number :=
  let '(r, g, b) := c in
  lift2 Rplus
    (lift2 Rplus (lift2 Rmult (Real 0.2126) (linearize r))
                 (lift2 Rmult (Real 0.7152) (linearize g)))
    (lift2 Rmult (Real 0.0722) (linearize b)).

(** [contrastRatio(hexA, hexB)]; [None] is the [null] of the [catch].
    What throws inside is [hex.replace] on an argument that is not a
    string. *)
Definition contrastRatio (hexA hexB : value) : option number :=
  match hexA, hexB with
  | Str a, Str b =>
      let la := relativeLuminance (hexToRgb a) in
      let lb := relativeLuminance (hexToRgb b) in
      let L1 := lift2 Rmax la lb in
      let L2 := lift2 Rmin la lb in
      Some (lift2 Rdiv (lift2 Rplus L1 (Real 0.05)) (lift2 Rplus L2 (Real 0.05)))
  | _, _ => None
  end.

Local Close Scope R_scope.

(** [n.toString(16)] for a natural number; [fuel] bounds the digits. *)
Fixpoint hex_digits (fuel : nat) (n : N) (acc : string) : string :=
  match fuel with
  | O => acc
  | S fuel' =>
      let acc' := String (hex_digit (n mod 16)) acc in
      if (n / 16 =? 0)%N then acc' else hex_digits fuel' (n / 16) acc'
  end.

Definition toString16 (z : Z) : string :=
  let n := Z.to_N (Z.abs z) in
  let digits := hex_digits (S (N.to_nat (N.size n))) n EmptyString in
  if (z <? 0)%Z then String "-" digits else digits.

(** [v.toString(16).padStart(2, '0')] *)
Definition hex2 (v : channel) : string :=
  match v with
  | None => "NaN"
  | Some z =>
      match toString16 z with
      | String c EmptyString => String "0" (String c EmptyString)
      | s => s
      end
  end.

Definition rgbToHex (c : rgb) : string :=
  let '(r, g, b) := c in
  "#" +:+ hex2 r +:+ hex2 g +:+ hex2 b.

(** [Math.round]: the nearest integer, a tie going up. *)
Definition round (q : Q) : Z := Qfloor (q + (1 # 2))%Q.

(** [clamp(v)] with the default bounds 0 and 255. *)
Definition clamp (v : option Q) : channel :=
  q ← v; Some (Z.max 0 (Z.min 255 (round q)))%Z.

(** [a + (b - a) * t] *)
Definition mix (a b : channel) (t : Q) : option Q :=
  x ← a; y ← b; Some (inject_Z x + (inject_Z y - inject_Z x) * t)%Q.

Definition lerpColor (hexA hexB : string) (t : Q) : string :=
  let '(a0, a1, a2) := hexToRgb hexA in
  let '(b0, b1, b2) := hexToRgb hexB in
  rgbToHex (clamp (mix a0 b0 t), clamp (mix a1 b1 t), clamp (mix a2 b2 t)).

Definition darkenTowardsBlack (hex : string) (step : Q) : string :=
  lerpColor hex "#000000" step.

(** ** Contrast corrector (lines 413-461) *)

(** The custom properties of the root element: those set on its inline
    style, and those the style sheets give it.  The computed value of a
    property is the inline one when there is one. *)
Record style : Type := {
  inline : gmap string string;
  sheet : gmap string string
}.

(** [getComputedStyle(document.documentElement).getPropertyValue(name)] *)
Definition getPropertyValue (st : style) (name : string) : string :=
  match inline st !! name with
  | Some v => v
  | None => default EmptyString (sheet st !! name)
  end.

(** [document.documentElement.style.setProperty(name, v)]; an empty
    value removes the property. *)
Definition setProperty (st : style) (name v : string) : style :=
  match v with
  | EmptyString => {| inline := delete name (inline st); sheet := sheet st |}
  | _ => {| inline := <[name := v]> (inline st); sheet := sheet st |}
  end.

(** [contrastRatio(...) || 0]: [null], [NaN] and 0 are falsy. *)
Definition or_zero (r : option number) : R :=
  match r with
  | Some (Real x) => x
  | _ => 0%R
  end.

(** The variables of the [while] loop, with the root style it updates. *)
Record loopState : Type := {
  fg : string;
  ratio : R;
  attempts : nat;
  changed : bool;
  css : style
}.

(** [ratio < target && attempts < 24] *)
Definition guard (target : R) (s : loopState) : bool :=
  (if Rlt_dec (ratio s) target then true else false) && (attempts s <? 24)%nat.

(** [Math.min(1, 0.06 + attempts*0.02)] *)
Definition stepOf (n : nat) : Q :=
  Qmin 1 ((6 # 100) + inject_Z (Z.of_nat n) * (2 # 100)).

(** One pass through the body of the loop (lines 432-443). *)
Definition loopBody (fgVar bgVar bg : string) (s : loopState) : loopState :=
  let step := stepOf (attempts s) in
  let fg' := darkenTowardsBlack (fg s) step in
  let css' := setProperty (css s) fgVar fg' in
  let newFg := or_else (trim (getPropertyValue css' fgVar)) fg' in
  let newBg := or_else (trim (getPropertyValue css' bgVar)) bg in
  {| fg := fg';
     ratio := or_zero (contrastRatio (Str newFg) (Str newBg));
     attempts := S (attempts s);
     changed := true;
     css := css' |}.

(** A value together with the fact that it is the value of [a]. *)
Definition inspect {A : Type} (a : A) : {b : A | a = b} := exist _ a eq_refl.

(** The [while] loop (line 431), as the states it passes through, the
    first one first.  It ends because the guard lets [attempts] grow up
    to 24 only. *)
Equations? whileLoop (target : R) (fgVar bgVar bg : string) (s : loopState)
  : list loopState by wf (24 - attempts s)%nat lt :=
  whileLoop target fgVar bgVar bg s with inspect (guard target s) := {
    | exist _ true Hguard =>
        s :: whileLoop target fgVar bgVar bg (loopBody fgVar bgVar bg s)
    | exist _ false _ => [s]
  }.
Proof.
  unfold guard in Hguard. apply andb_prop in Hguard as [_ Hlt].
  apply Nat.ltb_lt in Hlt. cbn. lia.
Qed.

(** One pair of [pairs.forEach] (lines 426-444): the states of its loop. *)
Definition fixPair (target : R) (fgVar bgVar : string) (wasChanged : bool)
    (st : style) : list loopState :=
  let fg0 := or_else (trim (getPropertyValue st fgVar)) "#222222" in
  let bg := or_else (trim (getPropertyValue st bgVar)) "#ffffff" in
  whileLoop target fgVar bgVar bg
    {| fg := fg0;
       ratio := or_zero (contrastRatio (Str fg0) (Str bg));
       attempts := 0;
       changed := wasChanged;
       css := st |}.

(** The state a loop ends in. *)
Definition final_state (states : list loopState) (s0 : loopState) : loopState :=
  List.last states s0.

Definition pairs : list (string * string) :=
  [("--text", "--brand-muted"); ("--text", "--assistant-bg")].

Definition adjusted : list string :=
  ["--text"; "--assistant-bg"; "--assistant-border"; "--user-bg"; "--user-text"].

(** The [adjustments] object (lines 450-455): the inline value of each
    variable that has one. *)
Definition adjustments (st : style) : value :=
  Obj (omap (fun k =>
              match inline st !! k with
              | Some (String c v) => Some (k, Str (trim (String c v)))
              | _ => None
              end) adjusted).

(** [autoFixContrast(target)]: the pairs in turn, each on the style the
    previous one left, then the adjustments saved if anything changed (a
    refused write is swallowed).  The colours it handles are strings, on
    which nothing in its body throws: the function returns [true], and
    what it leaves is the style and the storage. *)
Definition autoFixContrast (target : R) (st : style) (store : localStorage.t)
    : style * localStorage.t :=
  let s0 := {| fg := EmptyString; ratio := 0%R; attempts := 0;
               changed := false; css := st |} in
  let s :=
    foldl (fun acc '(fgVar, bgVar) =>
             final_state (fixPair target fgVar bgVar (changed acc) (css acc)) acc)
          s0 pairs in
  if changed s then
    match localStorage.setItem store "loreal_color_adjusts"
            (JSON.stringify (adjustments (css s))) with
    | Ok store' => (css s, store')
    | Throw _ => (css s, store)
    end
  else (css s, store).

(** ** Contrast audit (lines 368-390) *)
Module ContrastAudit.

(** A row of the table that the audit logs and returns. *)
Record row : Type := {
  pair : string;
  fg : string;
  bg : string;
  contrast : R
}.

(** The pairs of the audit: the name of a pair, and for the foreground
    and the background the variable and the colour that stands in when
    the variable has no value. *)
Definition pairs : list (string * (string * string) * (string * string)) :=
  [("Body text vs background", ("--text", "#222222"), ("--brand-muted", "#f7f4ef"));
   ("Button text vs brand gold", ("--brand-black", "#000000"), ("--brand-gold", "#E3A535"));
   ("User bubble text vs user bg", ("--user-text", "#FFFFFF"), ("--user-bg", "#000000"));
   ("Assistant text vs assistant bg", ("--text", "#222222"), ("--assistant-bg", "#f3f1ee"))].

(** [Number(x.toFixed(2))], for a number below 10^21: the nearest
    multiple of a hundredth, the larger one of two. *)
Definition toFixed2 (x : R) : R := (IZR (Int_part (x * 100 + / 2)) / 100)%R.

(** [runContrastAudit()]: the rows.  The colours it reads are strings,
    on which nothing in its body throws. *)
Definition runContrastAudit (st : style) : list row :=
  map (fun '(name, (fgVar, fgDefault), (bgVar, bgDefault)) =>
         let fg := or_else (trim (getPropertyValue st fgVar)) fgDefault in
         let bg := or_else (trim (getPropertyValue st bgVar)) bgDefault in
         {| pair := name; fg := fg; bg := bg;
            contrast := toFixed2 (or_zero (contrastRatio (Str fg) (Str bg))) |})
      pairs.

End ContrastAudit.

(** ** Theme switcher (lines 324-341) *)

Definition THEME_KEY : string := "loreal_theme".

(** The [select] element of the themes: the values of its options, and
    the index of the option that is selected, when one is. *)
Record select : Type := {
  options : list string;
  selectedIndex : option nat
}.

(** [themeSelect.value]: the value of the selected option, the empty
    string when no option is selected. *)
Definition select_value (s : select) : string :=
  match selectedIndex s with
  | Some i => default EmptyString (options s !! i)
  | None => EmptyString
  end.

(** The index of the first option whose value is [v]. *)
Fixpoint index_of (v : string) (l : list string) : option nat :=
  match l with
  | [] => None
  | o :: l' => if String.eqb o v then Some 0%nat else S <$> index_of v l'
  end.

(** [themeSelect.value = v]: the first option of that value becomes the
    selected one, and no option is selected when there is none. *)
Definition set_select_value (v : string) (s : select) : select :=
  {| options := options s; selectedIndex := index_of v (options s) |}.

(** What the theme code works on: the [data-theme] attribute of the
    body, the [select] element when the page has one, and the storage. *)
Record themed : Type := {
  data_theme : option string;
  themeSelect : option select;
  themeStore : localStorage.t
}.

(** [applySavedTheme()] *)
Definition applySavedTheme (u : themed) : themed :=
  let t := or_else (default EmptyString
                      (localStorage.getItem (themeStore u) THEME_KEY))
                   "classic" in
  {| data_theme := Some t;
     themeSelect := set_select_value t <$> themeSelect u;
     themeStore := themeStore u |}.

(** The [change] listener of lines 335-339, which is there when the
    page has the [select] element; a refused write is swallowed. *)
Definition onThemeChange (u : themed) : themed :=
  match themeSelect u with
  | None => u
  | Some s =>
      let v := or_else (select_value s) "classic" in
      {| data_theme := Some v;
         themeSelect := Some s;
         themeStore :=
           match localStorage.setItem (themeStore u) THEME_KEY v with
           | Ok st => st
           | Throw _ => themeStore u
           end |}
  end.

(** ** Worker URL override and its form (lines 18-62) *)

(** The two places where a script finds [WORKER_URL]: the constant that
    [config.js] or [secrets.js] declares, when such a script is loaded,
    and the property of [window].  A top-level [const] is no property of
    [window]; the identifier [WORKER_URL] reads the constant when there
    is one, and the property otherwise. *)
Record globals : Type := {
  declared : option value;
  window_WORKER_URL : value
}.

(** The identifier [WORKER_URL]; [Undefined] also stands for the case
    that nothing defines it, where [typeof WORKER_URL] is ['undefined']. *)
Definition lookup_WORKER_URL (g : globals) : value :=
  match declared g with
  | Some v => v
  | None => window_WORKER_URL g
  end.

(** Lines 19-26: the stored URL becomes [window.WORKER_URL] when that
    property is not set (or falsy) and the stored text is not empty. *)
Definition applyStoredUrl (store : localStorage.t) (g : globals) : globals :=
  match localStorage.getItem store "loreal_worker_url" with
  | Some (String c s) =>
      if truthy (window_WORKER_URL g) then g
      else {| declared := declared g; window_WORKER_URL := Str (String c s) |}
  | _ => g
  end.

(** What [#workerConfig] shows: the form with the input and the [Save]
    button, or the line [Worker URL configured.] *)
Inductive panel : Type :=
| UrlForm
| UrlConfigured.

(** The state of the configuration helper: the globals, the content of
    the [#workerConfig] element ([None] when the page has no such
    element, [Some None] while it is empty), and the storage. *)
Record configState : Type := {
  globalsOf : globals;
  workerConfig : option (option panel);
  configStore : localStorage.t
}.

(** [renderWorkerConfigUI()] *)
Definition renderWorkerConfigUI (c : configState) : configState :=
  match workerConfig c with
  | None => c
  | Some _ =>
      {| globalsOf := globalsOf c;
         workerConfig :=
           Some (Some (if truthy (lookup_WORKER_URL (globalsOf c))
                       then UrlConfigured else UrlForm));
         configStore := configStore c |}
  end.

(** The [click] listener of the [Save] button (lines 44-51), on the text
    of the input; a refused write is swallowed. *)
Definition onSaveWorkerUrl (inputValue : string) (c : configState) : configState :=
  match trim inputValue with
  | EmptyString => c
  | v =>
      renderWorkerConfigUI
        {| globalsOf := {| declared := declared (globalsOf c);
                           window_WORKER_URL := Str v |};
           workerConfig := workerConfig c;
           configStore :=
             match localStorage.setItem (configStore c) "loreal_worker_url" v with
             | Ok st => st
             | Throw _ => configStore c
             end |}
  end.

(** * The relay (worker/index.js)

    The [fetch] handler of the Cloudflare Worker.  Every response it
    builds carries the same CORS headers, which are left out. *)
Module Worker.

(** A request to the worker: its method, and the outcome of
    [request.json()]. *)
Record incoming : Type := {
  method : string;
  input : result value
}.

Definition apiUrl : string := "https://api.openai.com/v1/chat/completions".

(** [requestBody] (lines 32-36), for the value of [userInput.messages]. *)
Definition requestBody (userMessages : value) : value :=
  Obj [("model", Str "gpt-4o"); ("messages", userMessages);
       ("max_completion_tokens", Num 300)].

(** The request to the API (lines 38-45). *)
Definition apiRequest (apiKey userMessages : value) : request :=
  {| url := Str apiUrl;
     bearer := Some apiKey;
     body := JSON.stringify (requestBody userMessages) |}.

(** [{ error: message }] *)
Definition errorBody (message : string) : string :=
  JSON.stringify (Obj [("error", Str message)]).

(** [JSON.stringify(data)] for any [data]: of [undefined] it is
    [undefined], and the response then has no body. *)
Definition stringified (data : value) : option string :=
  match data with
  | Undefined => None
  | _ => Some (JSON.stringify data)
  end.

(** A [Response] of the worker: the status (200 when none is given) and
    the body, [None] for no body. *)
Record answer : Type := {
  status : Z;
  body : option string
}.

(** [fetch(request, env)], with [apiKey] for [env.OPENAI_API_KEY] and
    [upstream] for the network: the requests it sends to the API, and the
    response it resolves to or what it throws. *)
Definition fetch (upstream : request -> result response) (apiKey : value)
    (req : incoming) : list request * result answer :=
  if String.eqb (method req) "OPTIONS" then
    ([], Ok {| status := 200; body := None |})
  else if negb (truthy apiKey) then
    ([], Ok {| status := 500;
               body := Some (errorBody
                               "OPENAI_API_KEY not configured in Worker environment") |})
  else
    match input req with
    | Throw _ =>
        ([], Ok {| status := 400; body := Some (errorBody "Invalid JSON body") |})
    | Ok userInput =>
        match get_prop userInput "messages" with
        | Throw err => ([], Throw err)
        | Ok userMessages =>
            let out := apiRequest apiKey userMessages in
            ([out],
             let* response := upstream out in
             let* data := json response in
             Ok {| status := 200; body := stringified data |})
        end
    end.

End Worker.

(** * Vocabulary of the properties *)

(** A value with properties to read: anything but [undefined] and [null]. *)
Definition readable (m : value) : Prop := m <> Undefined /\ m <> Null.

(** A storage without limit: every write is accepted. *)
Definition unlimited (st : localStorage.t) : Prop :=
  forall items key text, localStorage.quota st items key text = true.

(** [m.role] is the string [role]. *)
Definition role_is (m : value) (role : string) : Prop :=
  get_prop m "role" = Ok (Str role).

(** A storage with no item and no limit. *)
Definition emptyStorage : localStorage.t :=
  {| localStorage.items := ∅; localStorage.quota := fun _ _ _ => true |}.

(** The page before anything is shown: the system message alone. *)
Definition freshPage (st : localStorage.t) : page :=
  {| messages := [systemMessage]; storage := st; chatWindow := [] |}.

(** The page that a session without history starts from: the system
    message alone, and the greeting in the chat window. *)
Definition greeted (st : localStorage.t) : page :=
  {| messages := [systemMessage]; storage := st;
     chatWindow := [AssistantBubble (Str greeting) false None] |}.

(** What [apiMessages] makes of one message. *)
Definition stripped (m : value) : value :=
  Obj [("role", opt_prop m "role"); ("content", opt_prop m "content")].

(** The page at the start of the [try] block: the question is shown,
    recorded and saved, and the loading bubble is the last node. *)
Definition asked (text : string) (userTs : Z) (p : page) : page :=
  appendAssistantBubble (Str "Thinking...") true Undefined
    (saveHistory
       (push (userMessage text userTs)
          (updateLatestQuestionDisplay (Str text)
             (appendUserBubble (Str text) (Num userTs) p)))).

(** The index of the loading bubble in it. *)
Definition loadingIndex (text : string) (userTs : Z) (p : page) : nat :=
  length (chatWindow
            (saveHistory
               (push (userMessage text userTs)
                  (updateLatestQuestionDisplay (Str text)
                     (appendUserBubble (Str text) (Num userTs) p))))).

(** The request that the relay path sends for the messages [ms]. *)
Definition relayRequest (e : env) (ms : list value) : request :=
  {| url := WORKER_URL e; bearer := None;
     body := JSON.stringify (payload (map stripped ms)) |}.

(** The same for the direct endpoint, with the model and the key. *)
Definition directRequest (e : env) (ms : list value) : request :=
  {| url := Str "https://api.openai.com/v1/chat/completions";
     bearer := Some (OPENAI_API_KEY e);
     body := JSON.stringify
               (Obj [("model", Str "gpt-4o"); ("messages", Arr (map stripped ms))]) |}.

(** One of the two endpoints is configured. *)
Definition configured (e : env) : bool :=
  relay_configured e || direct_configured e.

(** The request of the path that a configured submission takes: the
    relay when it is configured, the direct endpoint otherwise. *)
Definition requestOf (e : env) (ms : list value) : request :=
  if relay_configured e then relayRequest e ms else directRequest e ms.

(** The name of that path in its error message. *)
Definition serviceName (e : env) : string :=
  if relay_configured e then "Worker" else "OpenAI".

(** A response with a success status and a body that parses. *)
Definition succeeds (e : env) (data : value) : Prop :=
  forall req, exists res,
    fetch e req = Ok res /\ ok res = true /\ json res = Ok data.

(** [choices[0].message.content] is there. *)
Definition present (data : value) : Prop := content_path data <> Undefined.

(** A relay that answers every request with the body [data]. *)
Definition relayAnswering (data : value) : env :=
  {| WORKER_URL := Str "https://relay.example/";
     OPENAI_API_KEY := Undefined;
     fetch := fun _ => Ok {| ok := true; status := 200; statusText := "OK";
                             json := Ok data |} |}.

(** A direct endpoint that answers every request with the body [data]. *)
Definition directAnswering (data : value) : env :=
  {| WORKER_URL := Undefined;
     OPENAI_API_KEY := Str "sk-local";
     fetch := fun _ => Ok {| ok := true; status := 200; statusText := "OK";
                             json := Ok data |} |}.

(** The response body [{choices: [{message: {content}}]}]. *)
Definition bodyWith (content : value) : value :=
  Obj [("choices", Arr [Obj [("message", Obj [("content", content)])]])].

(** The luminance of the colour that a string is read as. *)
Definition luminance (hex : string) : number :=
  relativeLuminance (hexToRgb hex).

(** The gamma curve on a channel value. *)
Definition gamma (z : Z) : R :=
  let c := (IZR z / 255)%R in
  if Rle_dec c 0.03928 then (c / 12.92)%R
  else Rpower ((c + 0.055) / 1.055) 2.4.

(** [after] is no brighter than [before]: when [before] is a number,
    [after] is a number too, and not above it.  A luminance that is
    [NaN] compares with nothing. *)
Definition no_brighter (after before : number) : Prop :=
  match before with
  | NaN => True
  | Real x => exists y, after = Real y /\ (y <= x)%R
  end.

(** A channel that is a number is a byte. *)
Definition is_byte (c : channel) : Prop :=
  match c with
  | Some z => (0 <= z <= 255)%Z
  | None => True
  end.

(** The hexadecimal digit of [n], and the numbers that have one. *)
Definition digit16 (n : Z) : ascii := hex_digit (Z.to_N n).

Definition nibble (n : Z) : Prop := (0 <= n < 16)%Z.

(** Every character is a hexadecimal digit. *)
Fixpoint all_hex (s : string) : bool :=
  match s with
  | String c s' => bool_decide (is_Some (hex_value c)) && all_hex s'
  | EmptyString => true
  end.

(** A hex colour: three or six hexadecimal digits, with or without a
    leading [#]. *)
Definition is_hex_colour (hex : string) : bool :=
  let h := trim (remove_hash hex) in
  all_hex h &&
  (bool_decide (String.length h = 3%nat) || bool_decide (String.length h = 6%nat)).

(** The ratio of two luminances, [NaN] when one of them is. *)
Definition ratioOf (la lb : number) : number :=
  match la, lb with
  | Real x, Real y => Real ((Rmax x y + 0.05) / (Rmin x y + 0.05))
  | _, _ => NaN
  end.

(** The entries that [saveHistory] keeps: those whose role is ['user'] or
    ['assistant']. *)
Definition chat_role (m : value) : bool :=
  is_str (opt_prop m "role") "user" || is_str (opt_prop m "role") "assistant".

(** A page that holds a question and an answer, over an empty storage. *)
Definition talkedPage : page :=
  push (assistantMessage (Str "Use X") 1700000000456)
    (push (userMessage "Hi" 1700000000123) (freshPage emptyStorage)).

(** A storage whose history record is [raw]. *)
Definition storing (raw : string) : localStorage.t :=
  {| localStorage.items := {[STORAGE_KEY := raw]};
     localStorage.quota := fun _ _ _ => true |}.


(** The time that a bubble shows for a time stamp: none for a falsy one. *)
Definition shown (ts : value) : option value :=
  if truthy ts then Some ts else None.

(** The bubble that restoring renders for an entry, when it renders one. *)
Definition bubbleOf (m : value) : option node :=
  if is_str (opt_prop m "role") "user" then
    Some (UserBubble (opt_prop m "content") (shown (opt_prop m "timestamp")))
  else if is_str (opt_prop m "role") "assistant" then
    Some (AssistantBubble (opt_prop m "content") false
            (shown (opt_prop m "timestamp")))
  else None.

(** The question of an entry of role ['user']. *)
Definition questionOf (m : value) : option value :=
  if is_str (opt_prop m "role") "user" then Some (opt_prop m "content") else None.

(** The bubbles of a chat window, and its latest-question lines. *)
Definition bubbles (w : list node) : list node :=
  List.filter (fun n => negb (is_latest_question n)) w.

Definition latestQuestions (w : list node) : list node :=
  List.filter is_latest_question w.


(** The text goes on with [.], [e] or [E], as the fraction or the
    exponent of a numeral does after a digit. *)
Definition starts_fraction (s : string) : bool :=
  match s with
  | String c _ =>
      let n := N_of_ascii c in (n =? 46)%N || (n =? 101)%N || (n =? 69)%N
  | EmptyString => false
  end.

(** The numerals that the text can hold are integers: no decimal digit
    of it is directly followed by [.], [e] or [E].  The codec of the
    embedding reads such a text as the platform's does. *)
Fixpoint integer_numerals (s : string) : bool :=
  match s with
  | String c s' =>
      let n := N_of_ascii c in
      negb ((48 <=? n)%N && (n <=? 57)%N && starts_fraction s') &&
      integer_numerals s'
  | EmptyString => true
  end.

(** A text of white space only: of the characters of [is_space]. *)
Fixpoint blank (s : string) : bool :=
  match s with
  | EmptyString => true
  | String c s' => is_space c && blank s'
  end.

(** A text of ASCII characters.  On such a text [is_space] tells all the
    white space that the script's [trim] and [parseInt] strip. *)
Fixpoint ascii_only (s : string) : bool :=
  match s with
  | EmptyString => true
  | String c s' => (N_of_ascii c <? 128)%N && ascii_only s'
  end.

(** The bubble of the missing configuration (line 296). *)
Definition configBubble : node :=
  AssistantBubble
    (Str "Configuration missing: set WORKER_URL in secrets.js to your Cloudflare Worker URL.")
    false None.

(** The bubble of an error (line 303). *)
Definition errorBubble (err : string) : node :=
  AssistantBubble (Str ("Error: " +:+ or_else err "Request failed")) false None.

(** The bubble of a reply (lines 249-258). *)
Definition replyBubble (r : value) (ts : Z) : node :=
  AssistantBubble r false (Some (Num ts)).

(** A bubble that shows [Thinking...] *)
Definition loading (n : node) : bool :=
  match n with
  | AssistantBubble _ true _ => true
  | _ => false
  end.

(** An entry that [saveHistory] keeps and that JSON text can carry. *)
Definition chat_entry (m : value) : Prop :=
  chat_role m = true /\ JSON.is_json m = true.

(** Every request fails: the network rejects it, or the response has a
    success status and a body that is no JSON. *)
Definition fails (e : env) (err : string) : Prop :=
  forall req,
    fetch e req = Throw err \/
    exists res, fetch e req = Ok res /\ ok res = true /\ json res = Throw err.

(** The bodies that the network delivers are JSON values. *)
Definition delivers_json (e : env) : Prop :=
  forall req res data,
    fetch e req = Ok res -> json res = Ok data -> JSON.is_json data = true.

(** A network that rejects every request. *)
Definition offline : env :=
  {| WORKER_URL := Str "https://relay.example/";
     OPENAI_API_KEY := Str "sk-local";
     fetch := fun _ => Throw "Failed to fetch" |}.

(** A page is reached by a page load that does not throw, and from a
    reached page by a submission, by clearing the history, and by a
    change of the storage (the theme and the colour adjustments are
    stored next to the history). *)
Inductive reachable : page -> Prop :=
| reached_by_load st p : init st = Ok p -> reachable p
| reached_by_submit e input userTs assistantTs p :
    reachable p -> reachable (final (onSubmit e input userTs assistantTs p))
| reached_by_clear p : reachable p -> reachable (clearHistory p)
| reached_by_storage st p : reachable p -> reachable (with_storage st p).

(** No bubble is loading, and there is one latest-question line at most. *)
Definition settled (w : list node) : Prop :=
  Forall (fun n => loading n = false) w /\
  (length (latestQuestions w) <= 1)%nat.

(** The character [c] is the hexadecimal digit of value [d], in either
    case. *)
Definition hex_char (c : ascii) (d : Z) : Prop :=
  hex_value c = Some (Z.to_N d) /\ (0 <= d < 16)%Z.

(** A colour written with six characters after the [#]. *)
Definition six (c1 c2 c3 c4 c5 c6 : ascii) : string :=
  String "#" (String c1 (String c2 (String c3 (String c4 (String c5
    (String c6 EmptyString)))))).

(** A colour written with three characters after the [#]. *)
Definition three (c1 c2 c3 : ascii) : string :=
  String "#" (String c1 (String c2 (String c3 EmptyString))).

(** No channel is [NaN]. *)
Definition numeric (c : rgb) : Prop :=
  let '(r, g, b) := c in is_Some r /\ is_Some g /\ is_Some b.

(** The channel that a step [t] toward black leaves of [z]. *)
Definition darker (z : Z) (t : Q) : Z :=
  Z.max 0 (Z.min 255 (round (inject_Z z + (inject_Z 0 - inject_Z z) * t))).

(** No character is white space. *)
Fixpoint spaceless (s : string) : bool :=
  match s with
  | EmptyString => true
  | String c s' => negb (is_space c) && spaceless s'
  end.

(** The contrast that the corrector first computes for a pair, from the
    computed values of its two variables and the fallback colours. *)
Definition initialRatio (st : style) (fgVar bgVar : string) : R :=
  or_zero (contrastRatio
             (Str (or_else (trim (getPropertyValue st fgVar)) "#222222"))
             (Str (or_else (trim (getPropertyValue st bgVar)) "#ffffff"))).

(** [k] steps toward black, the first with the step of attempt [n]. *)
Fixpoint darkenFrom (n k : nat) (hex : string) : string :=
  match k with
  | O => hex
  | S k' => darkenFrom (S n) k' (darkenTowardsBlack hex (stepOf n))
  end.

(** The same on one channel. *)
Fixpoint darkerFrom (n k : nat) (z : Z) : Z :=
  match k with
  | O => z
  | S k' => darkerFrom (S n) k' (darker z (stepOf n))
  end.

(** A root style whose text is black, and nothing else is set. *)
Definition blackText : style :=
  {| inline := {["--text" := "#000000"]}; sheet := ∅ |}.

(** A root style with nothing set: the fallback colours apply. *)
Definition plainStyle : style := {| inline := ∅; sheet := ∅ |}.

(** What holds of the root style along the loop of a pair: the style
    sheets and the other inline properties are those of the start; and
    either no pass was made, or the inline value of the foreground
    variable is the foreground of the loop, a string without white
    space that is not empty. *)
Definition tracks (fgVar : string) (wasChanged : bool) (st : style)
    (s : loopState) : Prop :=
  sheet (css s) = sheet st /\
  (forall name, name <> fgVar -> inline (css s) !! name = inline st !! name) /\
  (attempts s = 0%nat /\ css s = st /\ changed s = wasChanged \/
   (0 < attempts s)%nat /\ changed s = true /\
   inline (css s) !! fgVar = Some (fg s) /\
   spaceless (fg s) = true /\ fg s <> EmptyString).

(** An API that answers every request with the status 401 and an error
    body. *)
Definition unauthorized : request -> result response :=
  fun _ => Ok {| ok := false; status := 401; statusText := "Unauthorized";
                 json := Ok (Obj [("error", Obj [("message", Str "Incorrect API key")])]) |}.

(** The request of the page as the worker receives it: a POST, whose
    body [request.json()] parses. *)
Definition delivered (req : request) : Worker.incoming :=
  {| Worker.method := "POST";
     Worker.input :=
       match JSON.parse (body req) with
       | Some v => Ok v
       | None => Throw "SyntaxError"
       end |}.

(** The response of the worker as the page receives it: [ok] for a
    status from 200 to 299, and [res.json()] parses the body. *)
Definition received (a : Worker.answer) (res : response) : Prop :=
  ok res = ((200 <=? Worker.status a)%Z && (Worker.status a <=? 299)%Z) /\
  status res = Worker.status a /\
  json res =
    match Worker.body a with
    | Some text =>
        match JSON.parse text with
        | Some v => Ok v
        | None => Throw "SyntaxError"
        end
    | None => Throw "SyntaxError"
    end.

(** The network of the page leads to the worker: what the page receives
    for a request is the response that the worker resolves to, with the
    API behind the worker as [upstream] and the worker's key [apiKey]. *)
Definition relayed (e : env) (upstream : request -> result response)
    (apiKey : value) : Prop :=
  forall req a,
    (Worker.fetch upstream apiKey (delivered req)).2 = Ok a ->
    exists res, fetch e req = Ok res /\ received a res.

(** The object that the API receives for the messages [ms]. *)
Definition apiBody (ms : list value) : value :=
  Obj [("model", Str "gpt-4o"); ("messages", Arr (map stripped ms));
       ("max_completion_tokens", Num 300)].

(** A page whose worker URL leads to the worker, over HTTP/2 (no status
    text); an exception in the worker reaches the page as a 500. *)
Definition relayEnv (upstream : request -> result response) (apiKey : value) : env :=
  {| WORKER_URL := Str "https://loreal-worker.sustaitah03.workers.dev/";
     OPENAI_API_KEY := Undefined;
     fetch := fun req =>
       match (Worker.fetch upstream apiKey (delivered req)).2 with
       | Ok a =>
           Ok {| ok := (200 <=? Worker.status a)%Z && (Worker.status a <=? 299)%Z;
                 status := Worker.status a;
                 statusText := EmptyString;
                 json :=
                   match Worker.body a with
                   | Some text =>
                       match JSON.parse text with
                       | Some v => Ok v
                       | None => Throw "SyntaxError"
                       end
                   | None => Throw "SyntaxError"
                   end |}
       | Throw _ =>
           Ok {| ok := false; status := 500; statusText := EmptyString;
                 json := Throw "SyntaxError" |}
       end |}.

(** A page with three themes, the second of them selected. *)
Definition threeThemes : select :=
  {| options := ["classic"; "noir"; "rose"]; selectedIndex := Some 1%nat |}.

(** A page with the configuration element, where no script declares
    [WORKER_URL] and nothing is stored. *)
Definition unconfigured : configState :=
  {| globalsOf := {| declared := None; window_WORKER_URL := Undefined |};
     workerConfig := Some None;
     configStore := emptyStorage |}.

(** The same where [config.js] declares its constant. *)
Definition shipped : configState :=
  {| globalsOf :=
       {| declared := Some (Str "https://loreal-worker.sustaitah03.workers.dev/");
          window_WORKER_URL := Undefined |};
     workerConfig := Some None;
     configStore := emptyStorage |}.

(** * Properties *)

(** ** The JSON codec: [JSON.parse] inverts [JSON.stringify] *)
Module JSONFacts.
Import JSON.

Lemma digits_string_of_uint u rest :
  no_digit rest ->
  digits (NilEmpty.string_of_uint u +:+ rest) = (u, rest).
Proof.
  intros Hrest.
  induction u; cbn [NilEmpty.string_of_uint String.append];
    try (cbn [digits]; rewrite IHu; reflexivity).
  destruct rest as [|c r]; [reflexivity|].
  cbn [digits]. cbn [no_digit] in Hrest. by rewrite Hrest.
Qed.

Lemma unorm_to_uint p : Decimal.unorm (Pos.to_uint p) = Pos.to_uint p.
Proof.
  rewrite <- (DecimalPos.Unsigned.to_of (Pos.to_uint p)).
  rewrite DecimalPos.Unsigned.of_to. reflexivity.
Qed.

Lemma unorm_to_int n u :
  Z.to_int n = Decimal.Pos u \/ Z.to_int n = Decimal.Neg u ->
  Decimal.unorm u = u.
Proof.
  destruct n; cbn; intros [H|H]; inversion H; subst;
    try reflexivity; apply unorm_to_uint.
Qed.

Lemma parse_number_to_string n rest :
  no_digit rest ->
  parse_number (number_to_string n +:+ rest) = Some (n, rest).
Proof.
  intros Hrest. unfold number_to_string.
  pose proof (DecimalZ.of_to n) as Hn.
  destruct (Z.to_int n) as [u|u] eqn:E.
  - assert (Hu : Decimal.unorm u = u) by (eapply unorm_to_int; eauto).
    unfold parse_number.
    assert (Hsign : strip_prefix "-" (NilEmpty.string_of_uint u +:+ rest) = None).
    { destruct u; try reflexivity. discriminate Hu. }
    rewrite Hsign. cbn beta iota zeta.
    rewrite digits_string_of_uint by done.
    rewrite Hu, (Decimal.internal_uint_dec_lb u u eq_refl).
    by rewrite Hn.
  - assert (Hu : Decimal.unorm u = u) by (eapply unorm_to_int; eauto).
    unfold parse_number. cbn [String.append strip_prefix Ascii.eqb Bool.eqb].
    cbn beta iota zeta.
    rewrite digits_string_of_uint by done.
    rewrite Hu, (Decimal.internal_uint_dec_lb u u eq_refl).
    by rewrite Hn.
Qed.

Lemma parse_chars_quote_char c t :
  parse_chars (quote_char c +:+ t) =
  '(str, r) ← parse_chars t; Some (String c str, r).
Proof.
  destruct c as [[] [] [] [] [] [] [] []]; reflexivity.
Qed.

Lemma append_assoc (a b c : string) : (a +:+ b) +:+ c = a +:+ (b +:+ c).
Proof. induction a; cbn; congruence. Qed.

Lemma parse_chars_quote_chars s rest :
  parse_chars (quote_chars s +:+ String dquote rest) = Some (s, rest).
Proof.
  induction s as [|c s IH]; [reflexivity|].
  cbn [quote_chars]. rewrite append_assoc, parse_chars_quote_char, IH.
  reflexivity.
Qed.

Lemma opens_value_number n rest : opens_value (number_to_string n +:+ rest).
Proof.
  unfold number_to_string.
  destruct (Z.to_int n) as [u|u] eqn:E.
  - assert (Hu : Decimal.unorm u = u) by (eapply unorm_to_int; eauto).
    destruct u; try discriminate Hu; cbn; repeat split; discriminate.
  - cbn. repeat split; discriminate.
Qed.

Lemma opens_value_stringify v rest : opens_value (stringify v +:+ rest).
Proof.
  destruct v as [| |[]| | | |]; try (cbn; repeat split; discriminate).
  apply opens_value_number.
Qed.

Lemma skip_ws_opens s : opens_value s -> skip_ws s = s.
Proof. destruct s as [|c r]; [done|]. intros [H _]. cbn. by rewrite H. Qed.

Lemma expect_miss n s :
  opens_value s -> (n = 93 \/ n = 125 \/ n = 44 \/ n = 58)%N ->
  expect n s = None.
Proof.
  intros H Hn. unfold expect. rewrite skip_ws_opens by done.
  destruct s as [|c r]; [done|]. destruct H as (_ & H1 & H2 & H3 & H4).
  cbn beta iota.
  destruct (N.eqb_spec (N_of_ascii c) n) as [E|]; [|done].
  destruct Hn as [-> | [-> | [-> | ->]]]; congruence.
Qed.

Ltac norm_text :=
  repeat first [rewrite append_assoc | progress cbn [String.append]].

Ltac expect_hit :=
  match goal with
  | |- context [expect ?n (String ?c ?t)] =>
      change (expect n (String c t)) with (Some t)
  end; cbn [mbind option_bind].

Lemma elements_cons (f : value -> string) x y l :
  elements f (x :: y :: l) = f x +:+ "," +:+ elements f (y :: l).
Proof. reflexivity. Qed.

Lemma members_cons (f : value -> string) first k x l :
  x <> Undefined ->
  members f first ((k, x) :: l) =
  (if first then EmptyString else ",") +:+
  quote k +:+ ":" +:+ f x +:+ members f false l.
Proof. destruct x; done. Qed.

Lemma is_json_defined x : is_json x = true -> x <> Undefined.
Proof. by destruct x. Qed.

Lemma parse_elements_stringify xs :
  Forall (fun x => is_json x = true ->
            forall fuel rest, need x <= fuel -> no_digit rest ->
            parse_value fuel (stringify x +:+ rest) = Some (x, rest)) xs ->
  xs <> [] -> forallb is_json xs = true ->
  forall fuel rest,
    foldr (fun x n => S (Nat.max (need x) n)) 0%nat xs <= fuel ->
    parse_elements fuel (elements stringify xs +:+ rest) = Some (xs, rest).
Proof.
  induction 1 as [|x xs Hx Hxs IH]; [done|].
  intros _ Hjson fuel rest Hfuel.
  cbn [forallb] in Hjson. apply andb_prop in Hjson as [Hjx Hjxs].
  cbn [foldr] in Hfuel.
  destruct fuel as [|fuel]; [lia|].
  cbn [parse_elements].
  destruct xs as [|y xs].
  - cbn [elements]. norm_text.
    rewrite Hx by (done || lia). cbn [mbind option_bind].
    reflexivity.
  - rewrite elements_cons. norm_text.
    rewrite Hx by (done || lia). cbn [mbind option_bind].
    expect_hit.
    rewrite IH by (done || lia). reflexivity.
Qed.

Lemma quote_unfold k t :
  quote k +:+ t = String dquote (quote_chars k +:+ String dquote t).
Proof. unfold quote. cbn [String.append]. by rewrite append_assoc. Qed.

Lemma members_false_cons (f : value -> string) c l :
  c.2 <> Undefined ->
  members f false (c :: l) = "," +:+ members f true (c :: l).
Proof. destruct c as [k x]. intros Hx. by rewrite !members_cons. Qed.

Lemma parse_members_stringify fs :
  Forall (fun kv => is_json kv.2 = true ->
            forall fuel rest, need kv.2 <= fuel -> no_digit rest ->
            parse_value fuel (stringify kv.2 +:+ rest) = Some (kv.2, rest)) fs ->
  fs <> [] -> forallb (fun kv => is_json kv.2) fs = true ->
  forall fuel rest,
    foldr (fun kv n => S (Nat.max (need kv.2) n)) 0%nat fs <= fuel ->
    parse_members fuel (members stringify true fs +:+ rest) = Some (fs, rest).
Proof.
  induction 1 as [|[k x] fs Hx Hfs IH]; [done|].
  intros _ Hjson fuel rest Hfuel.
  cbn [forallb snd] in Hjson. apply andb_prop in Hjson as [Hjx Hjfs].
  cbn [foldr snd] in Hfuel, Hx.
  destruct fuel as [|fuel]; [lia|].
  cbn [parse_members].
  rewrite members_cons by by apply is_json_defined.
  norm_text. rewrite quote_unfold.
  expect_hit.
  rewrite parse_chars_quote_chars. cbn [mbind option_bind].
  expect_hit.
  destruct fs as [|c fs].
  - rewrite Hx by (done || lia). cbn [mbind option_bind members]. reflexivity.
  - cbn [forallb] in Hjfs. apply andb_prop in Hjfs as [Hjc Hjfs].
    rewrite members_false_cons by by apply is_json_defined.
    norm_text.
    rewrite Hx by (done || lia). cbn [mbind option_bind].
    expect_hit.
    rewrite IH; [reflexivity|done| |cbn [foldr] in *; lia].
    cbn [forallb]. by rewrite Hjc, Hjfs.
Qed.

Lemma number_head n rest :
  exists c t, number_to_string n +:+ rest = String c t /\ is_number_head c = true.
Proof.
  unfold number_to_string.
  destruct (Z.to_int n) as [u|u] eqn:E.
  - assert (Hu : Decimal.unorm u = u) by (eapply unorm_to_int; eauto).
    destruct u; try discriminate Hu; cbn; eauto.
  - cbn. eauto.
Qed.

Lemma parse_value_number_head fuel c t :
  is_number_head c = true ->
  parse_value (S fuel) (String c t) =
  '(z, r) ← parse_number (String c t); Some (Num z, r).
Proof.
  destruct c as [[] [] [] [] [] [] [] []]; try discriminate; reflexivity.
Qed.

Lemma elements_opens x l rest : opens_value (elements stringify (x :: l) +:+ rest).
Proof.
  destruct l; cbn [elements]; rewrite append_assoc; apply opens_value_stringify.
Qed.

Lemma members_opens k x l rest :
  x <> Undefined -> opens_value (members stringify true ((k, x) :: l) +:+ rest).
Proof.
  intros Hx. rewrite members_cons by done. cbn. repeat split; discriminate.
Qed.

Lemma parse_value_stringify v :
  is_json v = true ->
  forall fuel rest, need v <= fuel -> no_digit rest ->
  parse_value fuel (stringify v +:+ rest) = Some (v, rest).
Proof.
  induction v as [| |b|n|s|xs IH|fs IH] using value_nested_ind;
    intros Hjson fuel rest Hfuel Hrest; try discriminate Hjson;
    (destruct fuel as [|fuel]; [cbn in Hfuel; lia|]).
  - reflexivity.
  - by destruct b.
  - cbn [stringify].
    destruct (number_head n rest) as (c & t & Ht & Hc).
    rewrite Ht, parse_value_number_head by done.
    rewrite <- Ht, parse_number_to_string by done. reflexivity.
  - cbn [stringify]. rewrite quote_unfold. cbn [parse_value].
    rewrite skip_ws_opens by done.
    expect_hit. rewrite parse_chars_quote_chars. reflexivity.
  - cbn [stringify need] in *. norm_text. cbn [parse_value].
    rewrite skip_ws_opens by done.
    change (expect 34 (String "[" ?t)) with (@None string).
    expect_hit.
    destruct xs as [|x xs]; [reflexivity|].
    rewrite expect_miss by (apply elements_opens || auto).
    rewrite parse_elements_stringify by (done || lia). reflexivity.
  - cbn [stringify need] in *. norm_text. cbn [parse_value].
    rewrite skip_ws_opens by done.
    change (expect 34 (String "{" ?t)) with (@None string).
    change (expect 91 (String "{" ?t)) with (@None string).
    expect_hit.
    destruct fs as [|[k x] fs]; [reflexivity|].
    cbn [is_json forallb snd] in Hjson. apply andb_prop in Hjson as [Hjx Hjfs].
    rewrite expect_miss by (apply members_opens, is_json_defined, Hjx || auto).
    rewrite parse_members_stringify; [reflexivity|done|done| |lia].
    cbn [forallb snd]. by rewrite Hjx, Hjfs.
Qed.

Lemma length_append (a b : string) :
  String.length (a +:+ b) = String.length a + String.length b.
Proof. induction a; cbn; congruence. Qed.

Lemma append_empty_r (a : string) : a +:+ EmptyString = a.
Proof. induction a; cbn; congruence. Qed.

Lemma number_to_string_length n : 1 <= String.length (number_to_string n).
Proof.
  destruct (number_head n EmptyString) as (c & t & Ht & _).
  rewrite append_empty_r in Ht. rewrite Ht. cbn. lia.
Qed.

Lemma need_le_length v :
  is_json v = true -> need v <= String.length (stringify v).
Proof.
  induction v as [| |b|n|s|xs IH|fs IH] using value_nested_ind;
    intros Hjson; try discriminate Hjson.
  - cbn. lia.
  - destruct b; cbn; lia.
  - apply number_to_string_length.
  - cbn. lia.
  - cbn [need stringify String.append String.length]. apply le_n_S.
    cbn [is_json] in Hjson.
    induction IH as [|x xs Hx _ IHxs]; [cbn; lia|].
    cbn [forallb] in Hjson. apply andb_prop in Hjson as [Hjx Hjxs].
    specialize (Hx Hjx). specialize (IHxs Hjxs). cbn [foldr].
    destruct xs as [|y xs].
    + cbn [elements foldr]. rewrite length_append. cbn. lia.
    + rewrite elements_cons, !length_append. cbn [String.length]. lia.
  - cbn [need stringify String.append String.length]. apply le_n_S.
    cbn [is_json] in Hjson. generalize true.
    induction IH as [|[k x] fs Hx _ IHfs]; intros first; [cbn; lia|].
    cbn [forallb snd] in Hjson, Hx. apply andb_prop in Hjson as [Hjx Hjfs].
    specialize (Hx Hjx). specialize (IHfs Hjfs false). cbn [foldr snd].
    rewrite members_cons by by apply is_json_defined.
    rewrite !length_append. cbn [String.length]. lia.
Qed.

(** [JSON.parse] inverts [JSON.stringify] on every value that holds no
    [undefined]. *)
Theorem parse_stringify v :
  is_json v = true -> parse (stringify v) = Some v.
Proof.
  intros Hjson. unfold parse.
  pose proof (need_le_length v Hjson) as Hneed.
  rewrite <- (append_empty_r (stringify v)) at 2.
  rewrite parse_value_stringify by (done || lia). reflexivity.
Qed.

End JSONFacts.

(** ** Conversation store *)

Lemma get_prop_readable m name :
  readable m -> exists v, get_prop m name = Ok v.
Proof. intros [H1 H2]. destruct m; try done; cbn; eauto. Qed.

Lemma get_prop_ok_readable m name v : get_prop m name = Ok v -> readable m.
Proof. by destruct m. Qed.

Lemma render_restored_ok m p :
  readable m ->
  exists p', render_restored m p = Ok p' /\
             messages p' = messages p /\ storage p' = storage p.
Proof.
  intros Hm. unfold render_restored.
  destruct (get_prop_readable m "role" Hm) as [role ->].
  destruct (get_prop_readable m "content" Hm) as [content ->].
  destruct (get_prop_readable m "timestamp" Hm) as [timestamp ->].
  cbn [bind].
  destruct (is_str role "user"); [eauto|].
  destruct (is_str role "assistant"); eauto.
Qed.

Lemma forEach_restored_ok ms p :
  Forall readable ms ->
  exists p', forEach_restored ms p = Ok p' /\
             messages p' = messages p /\ storage p' = storage p.
Proof.
  intros Hms. revert p.
  induction Hms as [|m ms Hm _ IH]; intros p; cbn [forEach_restored]; [eauto|].
  destruct (render_restored_ok m p Hm) as (p1 & -> & Hm1 & Hs1).
  cbn [bind]. destruct (IH p1) as (p2 & -> & Hm2 & Hs2).
  exists p2. repeat split; congruence.
Qed.

(** What [saveHistory] writes when the storage accepts it. *)
Lemma saveHistory_accepted p toSave :
  filter_chat (messages p) = Ok toSave ->
  localStorage.quota (storage p) (localStorage.items (storage p))
    STORAGE_KEY (JSON.stringify (Arr toSave)) = true ->
  messages (saveHistory p) = messages p /\
  chatWindow (saveHistory p) = chatWindow p /\
  localStorage.quota (storage (saveHistory p)) = localStorage.quota (storage p) /\
  localStorage.getItem (storage (saveHistory p)) STORAGE_KEY =
    Some (JSON.stringify (Arr toSave)).
Proof.
  intros Hf Hq. unfold saveHistory, localStorage.setItem.
  rewrite Hf. cbn [bind]. rewrite Hq. cbn.
  repeat split. unfold localStorage.getItem. cbn. apply lookup_insert_eq.
Qed.

Lemma saveHistory_messages p : messages (saveHistory p) = messages p.
Proof.
  unfold saveHistory.
  by destruct (bind _ _).
Qed.

Lemma saveHistory_chatWindow p : chatWindow (saveHistory p) = chatWindow p.
Proof. unfold saveHistory. by destruct (bind _ _). Qed.

Lemma saveHistory_quota p :
  localStorage.quota (storage (saveHistory p)) = localStorage.quota (storage p).
Proof.
  unfold saveHistory.
  destruct (filter_chat (messages p)) as [toSave|]; cbn [bind]; [|done].
  unfold localStorage.setItem. by destruct (localStorage.quota _ _ _ _).
Qed.

Lemma stringify_array_nonempty xs :
  exists c t, JSON.stringify (Arr xs) = String c t.
Proof. cbn. eauto. Qed.

(** Loading what [JSON.stringify] wrote for an array gives the array
    back and leaves the storage as it is. *)
Lemma loadHistory_stringify st xs :
  forallb JSON.is_json xs = true ->
  localStorage.getItem st STORAGE_KEY = Some (JSON.stringify (Arr xs)) ->
  loadHistory st = (Some xs, st).
Proof.
  intros Hjson Hget. unfold loadHistory. rewrite Hget.
  rewrite JSONFacts.parse_stringify by done.
  by destruct (stringify_array_nonempty xs) as (c & t & ->).
Qed.

(** A new session restores every non-empty array of JSON values that
    was saved: the system message first, then the saved entries. *)
Lemma init_saved st xs :
  xs <> [] ->
  forallb JSON.is_json xs = true ->
  Forall readable xs ->
  localStorage.getItem st STORAGE_KEY = Some (JSON.stringify (Arr xs)) ->
  exists restored,
    init st = Ok restored /\
    messages restored = systemMessage :: xs /\
    storage restored = st.
Proof.
  intros Hne Hjson Hread Hget. unfold init.
  rewrite (loadHistory_stringify st xs Hjson Hget).
  destruct xs as [|m ms]; [done|].
  apply (forEach_restored_ok (m :: ms)
           (with_messages (systemMessage :: m :: ms)
              (with_storage st
                 {| messages := [systemMessage]; storage := st;
                    chatWindow := [] |})) Hread).
Qed.

(** Claim C1.  A user message and then an assistant message are
    appended to a fresh transcript, each append saving the history, on a
    storage that accepts the writes.  A new session that starts on that
    storage restores a transcript whose entry zero is the system message
    and whose next entries are the two messages, in that order. *)
Theorem persist_then_init_restores (p : page) (m_u m_a : value) :
  messages p = [systemMessage] ->
  unlimited (storage p) ->
  role_is m_u "user" -> role_is m_a "assistant" ->
  JSON.is_json m_u = true -> JSON.is_json m_a = true ->
  let p' := saveHistory (push m_a (saveHistory (push m_u p))) in
  exists restored,
    init (storage p') = Ok restored /\
    messages restored = [systemMessage; m_u; m_a].
Proof.
  intros Hp Hst Hu Ha Hju Hja p'.
  pose proof (saveHistory_messages (push m_u p)) as Hm1.
  pose proof (saveHistory_quota (push m_u p)) as Hq1.
  set (p1 := saveHistory (push m_u p)) in *.
  assert (Hf : filter_chat (messages (push m_a p1)) = Ok [m_u; m_a]).
  { cbn [push with_messages messages]. rewrite Hm1.
    cbn [push with_messages messages].
    rewrite Hp. cbn [app filter_chat]. unfold is_chat_message.
    unfold role_is in Hu, Ha. rewrite Hu, Ha. reflexivity. }
  destruct (saveHistory_accepted (push m_a p1) [m_u; m_a] Hf)
    as (_ & _ & _ & Hget).
  { cbn [push with_messages storage]. subst p1. rewrite Hq1. apply Hst. }
  fold p' in Hget.
  destruct (init_saved (storage p') [m_u; m_a]) as (r & Hr & Hmr & _);
    [done|cbn; by rewrite Hju, Hja| |done|by exists r].
  repeat constructor; by eapply get_prop_ok_readable.
Qed.

(** Claim C1 on a user message and an assistant message with time
    stamps, appended to the fresh page over an empty storage. *)
Lemma persist_then_init_restores_witness :
  exists restored,
    init (storage
            (saveHistory
               (push (assistantMessage (Str "Use X") 1700000000456)
                  (saveHistory
                     (push (userMessage "Hi" 1700000000123)
                        (freshPage emptyStorage)))))) = Ok restored /\
    messages restored =
      [systemMessage; userMessage "Hi" 1700000000123;
       assistantMessage (Str "Use X") 1700000000456].
Proof.
  apply (persist_then_init_restores (freshPage emptyStorage));
    try reflexivity.
  intros items key text. reflexivity.
Defined.

Lemma init_absent st :
  localStorage.getItem st STORAGE_KEY = None -> init st = Ok (greeted st).
Proof. intros H. unfold init, loadHistory. by rewrite H. Qed.

(** Text that does not parse is removed from the storage. *)
Lemma init_unparseable st c raw :
  localStorage.getItem st STORAGE_KEY = Some (String c raw) ->
  JSON.parse (String c raw) = None ->
  init st = Ok (greeted (localStorage.removeItem st STORAGE_KEY)) /\
  localStorage.getItem (localStorage.removeItem st STORAGE_KEY) STORAGE_KEY = None.
Proof.
  intros Hget Hparse. unfold init, loadHistory. rewrite Hget, Hparse.
  split; [reflexivity|]. apply lookup_delete_eq.
Qed.

(** Text that parses to something else than an array gives the fresh
    page as well, and stays in the storage. *)
Lemma init_not_array st c raw v :
  localStorage.getItem st STORAGE_KEY = Some (String c raw) ->
  JSON.parse (String c raw) = Some v ->
  (forall xs, v <> Arr xs) ->
  init st = Ok (greeted st).
Proof.
  intros Hget Hparse Hv. unfold init, loadHistory. rewrite Hget, Hparse.
  destruct v; try reflexivity. by destruct (Hv xs).
Qed.

(** Claim C2, at the input where the code departs from it.  The record at
    the history key is the text of a JSON object.  [init] does not throw
    and gives the fresh transcript with the greeting, but the record is
    still in the storage: [loadHistory] returns at its array test
    without the [removeItem] that its [catch] branch does. *)
Theorem init_keeps_object_record :
  let st := {| localStorage.items := {[STORAGE_KEY := "{}"]};
               localStorage.quota := fun _ _ _ => true |} in
  JSON.parse "{}" = Some (Obj []) /\
  exists p,
    init st = Ok p /\
    messages p = [systemMessage] /\
    chatWindow p = [AssistantBubble (Str greeting) false None] /\
    localStorage.getItem (storage p) STORAGE_KEY = Some "{}".
Proof.
  cbn zeta. split; [reflexivity|].
  eexists. split.
  - eapply init_not_array; [apply lookup_singleton_eq|reflexivity|done].
  - repeat split.
Qed.

(** Claim C7.  From every page, [clearHistory] leaves no record at the
    history key (the other items stay), a transcript that holds the
    system message only, and a chat window that shows the greeting
    only.  Nothing is persisted for the greeting: a new session on that
    storage finds no history and starts afresh. *)
Theorem clearHistory_resets (p : page) :
  localStorage.getItem (storage (clearHistory p)) STORAGE_KEY = None /\
  (forall key, key <> STORAGE_KEY ->
     localStorage.getItem (storage (clearHistory p)) key =
     localStorage.getItem (storage p) key) /\
  messages (clearHistory p) = [systemMessage] /\
  chatWindow (clearHistory p) = [AssistantBubble (Str greeting) false None] /\
  init (storage (clearHistory p)) = Ok (greeted (storage (clearHistory p))).
Proof.
  assert (H : localStorage.getItem (storage (clearHistory p)) STORAGE_KEY = None)
    by apply lookup_delete_eq.
  split; [exact H|].
  split; [intros key Hkey; by apply lookup_delete_ne|].
  repeat split. by apply init_absent.
Qed.

(** ** Relay client *)

Lemma get_prop_opt_prop m name :
  readable m -> get_prop m name = Ok (opt_prop m name).
Proof. intros [H1 H2]. by destruct m. Qed.

Lemma apiMessages_readable ms :
  Forall readable ms -> apiMessages ms = Ok (map stripped ms).
Proof.
  induction 1 as [|m ms Hm _ IH]; [reflexivity|].
  cbn [apiMessages map]. rewrite !get_prop_opt_prop by done.
  cbn [bind]. rewrite IH. reflexivity.
Qed.

(** Claim C5.  For every transcript (of values with properties to read),
    the payload is [{messages: [...]}] with one entry per message, in the
    order of the transcript; an entry has the role and the content of
    its message and no other property, the timestamp in particular. *)
Theorem payload_keeps_role_and_content (transcript : list value) :
  Forall readable transcript ->
  exists api,
    apiMessages transcript = Ok api /\
    opt_prop (payload api) "messages" = Arr api /\
    length api = length transcript /\
    forall i m, transcript !! i = Some m ->
      exists entry,
        api !! i = Some entry /\
        entry = Obj [("role", opt_prop m "role"); ("content", opt_prop m "content")] /\
        opt_prop entry "timestamp" = Undefined /\
        forall name, name <> "role" -> name <> "content" ->
                     opt_prop entry name = Undefined.
Proof.
  intros Hread. exists (map stripped transcript).
  split; [by apply apiMessages_readable|].
  split; [reflexivity|].
  split; [apply length_map|].
  intros i m Hi. exists (stripped m).
  rewrite list_lookup_fmap, Hi. repeat split.
  intros name Hrole Hcontent.
  apply String.eqb_neq in Hrole, Hcontent.
  unfold stripped, opt_prop, obj_get. cbn [obj_lookup].
  by rewrite Hrole, Hcontent.
Qed.

(** Claim C5 on the transcript of the specification's example. *)
Lemma payload_keeps_role_and_content_witness :
  exists api,
    apiMessages [systemMessage; userMessage "Hi" 1700000000123] = Ok api /\
    opt_prop (payload api) "messages" = Arr api /\
    length api = 2%nat /\
    forall i m, [systemMessage; userMessage "Hi" 1700000000123] !! i = Some m ->
      exists entry,
        api !! i = Some entry /\
        entry = Obj [("role", opt_prop m "role"); ("content", opt_prop m "content")] /\
        opt_prop entry "timestamp" = Undefined /\
        forall name, name <> "role" -> name <> "content" ->
                     opt_prop entry name = Undefined.
Proof.
  apply (payload_keeps_role_and_content
           [systemMessage; userMessage "Hi" 1700000000123]).
  repeat constructor; discriminate.
Defined.

(** The example of the specification: the time stamp is gone. *)
Example payload_example :
  apiMessages [systemMessage; userMessage "Hi" 1700000000123] =
    Ok [Obj [("role", Str "system"); ("content", Str systemPrompt)];
        Obj [("role", Str "user"); ("content", Str "Hi")]].
Proof. reflexivity. Qed.

Lemma onSubmit_unfold e input userTs assistantTs p c t :
  trim input = String c t ->
  onSubmit e input userTs assistantTs p =
  let text := String c t in
  let p5 := asked text userTs p in
  {| sent := (attempt e assistantTs (loadingIndex text userTs p) p5).1;
     final :=
       match (attempt e assistantTs (loadingIndex text userTs p) p5).2 with
       | Ok p6 => p6
       | Throw err =>
           setBubble (loadingIndex text userTs p)
             (AssistantBubble (Str ("Error: " +:+ or_else err "Request failed"))
                false None) p5
       end |}.
Proof.
  intros Ht. unfold onSubmit. rewrite Ht. cbn zeta.
  fold (loadingIndex (String c t) userTs p). fold (asked (String c t) userTs p).
  by destruct (attempt _ _ _ _).
Qed.

Lemma asked_messages text userTs p :
  messages (asked text userTs p) = (messages p ++ [userMessage text userTs])%list.
Proof. unfold asked. cbn. by rewrite saveHistory_messages. Qed.

(** The storage that [saveHistory] leaves depends on the messages and
    the storage only. *)
Lemma saveHistory_storage p q :
  messages p = messages q -> storage p = storage q ->
  storage (saveHistory p) = storage (saveHistory q).
Proof.
  intros Hm Hs. unfold saveHistory. rewrite Hm, Hs.
  by destruct (bind _ _).
Qed.

Lemma asked_storage text userTs p :
  storage (asked text userTs p) =
  storage (saveHistory (push (userMessage text userTs) p)).
Proof. unfold asked. cbn. by apply saveHistory_storage. Qed.

Lemma asked_chatWindow text userTs p :
  exists w, chatWindow (asked text userTs p) =
              (w ++ [AssistantBubble (Str "Thinking...") true None])%list /\
            loadingIndex text userTs p = length w.
Proof. unfold asked, loadingIndex. cbn. eauto. Qed.

Lemma setBubble_last i n p w x :
  chatWindow p = (w ++ [x])%list -> i = length w ->
  chatWindow (setBubble i n p) = (w ++ [n])%list /\
  messages (setBubble i n p) = messages p /\
  storage (setBubble i n p) = storage p.
Proof.
  intros Hw ->. unfold setBubble. cbn. rewrite Hw.
  replace (length w) with (length w + 0)%nat by lia.
  by rewrite insert_app_r.
Qed.

Lemma asked_readable text userTs p :
  Forall readable (messages p) -> Forall readable (messages (asked text userTs p)).
Proof.
  intros H. rewrite asked_messages. apply Forall_app. split; [done|].
  repeat constructor; discriminate.
Qed.

(** A configured path sends one request and goes on with the response. *)
Lemma attempt_configured e assistantTs i p :
  Forall readable (messages p) -> configured e = true ->
  attempt e assistantTs i p =
  ([requestOf e (messages p)],
   bind (fetch e (requestOf e (messages p))) (fun res =>
     if negb (ok res) then
       Throw (serviceName e +:+ " error: " +:+ JSON.number_to_string (status res)
              +:+ " " +:+ statusText res)
     else
       bind (json res) (fun data =>
         Ok (showReply (reply data) assistantTs i p)))).
Proof.
  intros Hread Hconf. unfold attempt, configured, requestOf, serviceName in *.
  rewrite apiMessages_readable by done.
  destruct (relay_configured e); [reflexivity|].
  cbn in Hconf. rewrite Hconf. reflexivity.
Qed.

Lemma attempt_unconfigured e assistantTs i p :
  Forall readable (messages p) -> configured e = false ->
  attempt e assistantTs i p =
  ([], Ok (setBubble i
             (AssistantBubble
                (Str "Configuration missing: set WORKER_URL in secrets.js to your Cloudflare Worker URL.")
                false None) p)).
Proof.
  intros Hread Hconf. unfold attempt, configured in *.
  rewrite apiMessages_readable by done.
  apply orb_false_elim in Hconf as [-> ->]. reflexivity.
Qed.

(** Claim C8.  When the endpoint (relay or direct) answers with a status
    that is not a success, the submission ends in an error that carries
    the status code, shown in place of the loading bubble; the
    transcript has grown by the user message only, and the storage is
    what saving that message left: no assistant entry is appended or
    saved. *)
Theorem failed_send_keeps_transcript
    (e : env) (input : string) (userTs assistantTs : Z) (p : page) (res : response) :
  trim input <> EmptyString ->
  Forall readable (messages p) ->
  configured e = true ->
  (forall req, fetch e req = Ok res) ->
  ok res = false ->
  let o := onSubmit e input userTs assistantTs p in
  messages (final o) = (messages p ++ [userMessage (trim input) userTs])%list /\
  storage (final o) =
    storage (saveHistory (push (userMessage (trim input) userTs) p)) /\
  last (chatWindow (final o)) =
    Some (AssistantBubble
            (Str ("Error: " +:+ serviceName e +:+ " error: " +:+
                  JSON.number_to_string (status res) +:+ " " +:+ statusText res))
            false None).
Proof.
  intros Htext Hread Hconf Hfetch Hok o. subst o.
  destruct (trim input) as [|c t] eqn:Ht; [done|].
  rewrite (onSubmit_unfold _ _ _ _ _ c t Ht). cbn zeta.
  rewrite attempt_configured by (by apply asked_readable || done).
  cbn [fst snd final]. rewrite Hfetch. cbn [bind]. rewrite Hok. cbn [negb].
  destruct (asked_chatWindow (String c t) userTs p) as (w & Hw & Hi).
  destruct (setBubble_last (loadingIndex (String c t) userTs p)
              (AssistantBubble
                 (Str ("Error: " +:+
                       or_else (serviceName e +:+ " error: " +:+
                                JSON.number_to_string (status res) +:+ " " +:+
                                statusText res) "Request failed"))
                 false None)
              (asked (String c t) userTs p) w _ Hw Hi) as (Hcw & Hms & Hst).
  rewrite Hms, Hst, Hcw, asked_messages, asked_storage, last_snoc.
  repeat split.
  unfold serviceName. by destruct (relay_configured e).
Qed.

(** Claim C8 on a relay that answers 500. *)
Lemma failed_send_keeps_transcript_witness :
  let e := {| WORKER_URL := Str "https://relay.example/";
              OPENAI_API_KEY := Undefined;
              fetch := fun _ => Ok {| ok := false; status := 500;
                                      statusText := "Internal Server Error";
                                      json := Throw "SyntaxError" |} |} in
  let o := onSubmit e " Hi " 1700000000123 1700000000456 (freshPage emptyStorage) in
  messages (final o) = [systemMessage; userMessage "Hi" 1700000000123] /\
  storage (final o) =
    storage (saveHistory (push (userMessage "Hi" 1700000000123)
                            (freshPage emptyStorage))) /\
  last (chatWindow (final o)) =
    Some (AssistantBubble
            (Str "Error: Worker error: 500 Internal Server Error") false None).
Proof.
  cbn zeta.
  apply (failed_send_keeps_transcript
           {| WORKER_URL := Str "https://relay.example/";
              OPENAI_API_KEY := Undefined;
              fetch := fun _ => Ok {| ok := false; status := 500;
                                      statusText := "Internal Server Error";
                                      json := Throw "SyntaxError" |} |}
           " Hi " 1700000000123 1700000000456 (freshPage emptyStorage)
           {| ok := false; status := 500;
              statusText := "Internal Server Error";
              json := Throw "SyntaxError" |}).
  - discriminate.
  - repeat constructor; discriminate.
  - reflexivity.
  - reflexivity.
  - reflexivity.
Defined.

Lemma relay_placeholder e :
  WORKER_URL e = Str placeholder -> relay_configured e = false.
Proof. intros H. unfold relay_configured. by rewrite H. Qed.

Lemma attempt_sent_placeholder e assistantTs i p :
  WORKER_URL e = Str placeholder ->
  forall req, req ∈ (attempt e assistantTs i p).1 ->
              url req = Str "https://api.openai.com/v1/chat/completions".
Proof.
  intros Hurl req. unfold attempt.
  rewrite (relay_placeholder e Hurl).
  destruct (apiMessages (messages p)) as [api|]; cbn [fst].
  - destruct (direct_configured e); cbn [fst].
    + intros ->%list_elem_of_singleton. reflexivity.
    + by intros ?%elem_of_nil.
  - by intros ?%elem_of_nil.
Qed.

(** Claim C10.  With the placeholder as worker URL the relay counts as
    not configured: no request goes to the placeholder; a submission
    sends its one request to the direct endpoint when a key is
    configured, and otherwise sends nothing and shows the configuration
    message. *)
Theorem placeholder_url_is_unconfigured
    (e : env) (input : string) (userTs assistantTs : Z) (p : page) :
  WORKER_URL e = Str placeholder ->
  let o := onSubmit e input userTs assistantTs p in
  relay_configured e = false /\
  (forall req, req ∈ sent o ->
     url req = Str "https://api.openai.com/v1/chat/completions" /\
     url req <> Str placeholder) /\
  (trim input <> EmptyString -> Forall readable (messages p) ->
   if direct_configured e
   then sent o =
          [directRequest e (messages p ++ [userMessage (trim input) userTs])%list]
   else sent o = [] /\
        last (chatWindow (final o)) =
          Some (AssistantBubble
                  (Str "Configuration missing: set WORKER_URL in secrets.js to your Cloudflare Worker URL.")
                  false None)).
Proof.
  intros Hurl o. subst o.
  pose proof (relay_placeholder e Hurl) as Hrelay.
  split; [done|].
  destruct (trim input) as [|c t] eqn:Ht.
  { unfold onSubmit. rewrite Ht. cbn [sent]. split; [|done].
    by intros req ?%elem_of_nil. }
  rewrite (onSubmit_unfold _ _ _ _ _ c t Ht). cbn zeta. cbn [sent final].
  split.
  - intros req Hreq.
    rewrite (attempt_sent_placeholder e _ _ _ Hurl req Hreq).
    split; [reflexivity|discriminate].
  - intros _ Hread.
    pose proof (asked_readable (String c t) userTs p Hread) as Hread'.
    destruct (direct_configured e) eqn:Hdirect.
    + rewrite attempt_configured; [|done|unfold configured; by rewrite Hdirect, orb_true_r].
      cbn [fst]. unfold requestOf. by rewrite Hrelay, asked_messages.
    + rewrite attempt_unconfigured; [|done|unfold configured; by rewrite Hrelay, Hdirect].
      cbn [fst snd]. split; [done|].
      destruct (asked_chatWindow (String c t) userTs p) as (w & Hw & Hi).
      destruct (setBubble_last (loadingIndex (String c t) userTs p)
                  (AssistantBubble
                     (Str "Configuration missing: set WORKER_URL in secrets.js to your Cloudflare Worker URL.")
                     false None)
                  (asked (String c t) userTs p) w _ Hw Hi) as (Hcw & _ & _).
      by rewrite Hcw, last_snoc.
Qed.

(** Claim C10 with a key configured next to the placeholder. *)
Lemma placeholder_url_is_unconfigured_witness :
  let e := {| WORKER_URL := Str placeholder;
              OPENAI_API_KEY := Str "sk-local";
              fetch := fun _ => Throw "Failed to fetch" |} in
  let p := freshPage emptyStorage in
  let o := onSubmit e "Hi" 1700000000123 1700000000456 p in
  relay_configured e = false /\
  (forall req, req ∈ sent o ->
     url req = Str "https://api.openai.com/v1/chat/completions" /\
     url req <> Str placeholder) /\
  (trim "Hi" <> EmptyString -> Forall readable (messages p) ->
   if direct_configured e
   then sent o =
          [directRequest e (messages p ++ [userMessage (trim "Hi") 1700000000123])%list]
   else sent o = [] /\
        last (chatWindow (final o)) =
          Some (AssistantBubble
                  (Str "Configuration missing: set WORKER_URL in secrets.js to your Cloudflare Worker URL.")
                  false None)).
Proof.
  cbn zeta.
  apply (placeholder_url_is_unconfigured
           {| WORKER_URL := Str placeholder;
              OPENAI_API_KEY := Str "sk-local";
              fetch := fun _ => Throw "Failed to fetch" |}
           "Hi" 1700000000123 1700000000456 (freshPage emptyStorage)).
  reflexivity.
Defined.

(** A successful exchange ends with the reply in the bubble and in the
    history. *)
Lemma onSubmit_success e input userTs assistantTs p data :
  trim input <> EmptyString ->
  Forall readable (messages p) ->
  configured e = true ->
  succeeds e data ->
  let o := onSubmit e input userTs assistantTs p in
  messages (final o) =
    (messages p ++ [userMessage (trim input) userTs;
                    assistantMessage (reply data) assistantTs])%list /\
  last (chatWindow (final o)) =
    Some (AssistantBubble (reply data) false (Some (Num assistantTs))).
Proof.
  intros Htext Hread Hconf Hfetch o. subst o.
  destruct (trim input) as [|c t] eqn:Ht; [done|].
  rewrite (onSubmit_unfold _ _ _ _ _ c t Ht). cbn zeta.
  rewrite attempt_configured by (by apply asked_readable || done).
  cbn [fst snd final].
  destruct (Hfetch (requestOf e (messages (asked (String c t) userTs p))))
    as (res & -> & Hok & Hjson).
  cbn [bind]. rewrite Hok, Hjson. cbn [negb bind].
  destruct (asked_chatWindow (String c t) userTs p) as (w & Hw & Hi).
  destruct (setBubble_last (loadingIndex (String c t) userTs p)
              (AssistantBubble (reply data) false (Some (Num assistantTs)))
              (asked (String c t) userTs p) w _ Hw Hi) as (Hcw & Hms & _).
  unfold showReply.
  rewrite saveHistory_messages, saveHistory_chatWindow.
  cbn [push with_messages messages chatWindow].
  rewrite Hms, Hcw, asked_messages, last_snoc, <- app_assoc.
  done.
Qed.


(** Claim C9.  For every successful response, relay or direct, whose
    [choices[0].message.content] is present but falsy (the empty string,
    say), the reply that is shown and recorded is the fixed fallback
    string. *)
Theorem falsy_content_gets_fallback
    (e : env) (input : string) (userTs assistantTs : Z) (p : page) (data : value) :
  trim input <> EmptyString ->
  Forall readable (messages p) ->
  configured e = true ->
  succeeds e data ->
  present data ->
  truthy (content_path data) = false ->
  let o := onSubmit e input userTs assistantTs p in
  reply data = Str fallback /\
  messages (final o) =
    (messages p ++ [userMessage (trim input) userTs;
                    assistantMessage (Str fallback) assistantTs])%list /\
  last (chatWindow (final o)) =
    Some (AssistantBubble (Str fallback) false (Some (Num assistantTs))).
Proof.
  intros Htext Hread Hconf Hfetch _ Hfalsy o.
  assert (Hreply : reply data = Str fallback).
  { unfold reply, js_or. by rewrite Hfalsy. }
  destruct (onSubmit_success e input userTs assistantTs p data) as [Hm Hw];
    try done.
  rewrite Hreply in Hm, Hw. done.
Qed.


Lemma directAnswering_succeeds data : succeeds (directAnswering data) data.
Proof. intros req. eexists. repeat split. Qed.



(** The two examples of the specification. *)
Example reply_use_x : reply (bodyWith (Str "Use X")) = Str "Use X".
Proof. reflexivity. Qed.

Example reply_empty_object : reply (Obj []) = Str fallback.
Proof. reflexivity. Qed.

(** Claim C9 on the direct endpoint answering with an empty content. *)
Lemma falsy_content_gets_fallback_witness :
  let data := bodyWith (Str EmptyString) in
  let o := onSubmit (directAnswering data) "Hi" 1700000000123 1700000000456
             (freshPage emptyStorage) in
  reply data = Str fallback /\
  messages (final o) =
    [systemMessage; userMessage "Hi" 1700000000123;
     assistantMessage (Str fallback) 1700000000456] /\
  last (chatWindow (final o)) =
    Some (AssistantBubble (Str fallback) false (Some (Num 1700000000456))).
Proof.
  cbn zeta.
  apply (falsy_content_gets_fallback
           (directAnswering (bodyWith (Str EmptyString)))
           "Hi" 1700000000123 1700000000456 (freshPage emptyStorage)
           (bodyWith (Str EmptyString))).
  - discriminate.
  - repeat constructor; discriminate.
  - reflexivity.
  - apply directAnswering_succeeds.
  - discriminate.
  - reflexivity.
Defined.

(** ** Every entry of a transcript has properties to read

    The hypothesis [Forall readable (messages p)] of the properties above
    holds of every page the script reaches: a session that starts
    without throwing, a submission and a clearing all keep it. *)

Lemma render_restored_inv m p p' :
  render_restored m p = Ok p' -> readable m /\ messages p' = messages p.
Proof.
  unfold render_restored. intros H.
  destruct (get_prop m "role") as [role|] eqn:Hrole; [|done].
  pose proof (get_prop_ok_readable m "role" role Hrole) as Hm.
  split; [done|]. cbn [bind] in H.
  rewrite !get_prop_opt_prop in H by done. cbn [bind] in H.
  destruct (is_str role "user"); [by injection H as <-|].
  destruct (is_str role "assistant"); by injection H as <-.
Qed.

Lemma forEach_restored_inv ms p p' :
  forEach_restored ms p = Ok p' -> Forall readable ms /\ messages p' = messages p.
Proof.
  revert p. induction ms as [|m ms IH]; intros p; cbn [forEach_restored].
  - by intros [= <-].
  - destruct (render_restored m p) as [p1|] eqn:H1; [|done]. cbn [bind].
    intros H2. destruct (render_restored_inv m p p1 H1) as [Hm Hp1].
    destruct (IH p1 H2) as [Hms Hp']. split; [by constructor|congruence].
Qed.

Lemma systemMessage_readable : readable systemMessage.
Proof. split; discriminate. Qed.

Lemma init_readable st p : init st = Ok p -> Forall readable (messages p).
Proof.
  unfold init. destruct (loadHistory st) as [[[|m ms]|] st'].
  - intros [= <-]. repeat constructor; discriminate.
  - intros H. apply forEach_restored_inv in H as [Hms ->].
    constructor; [apply systemMessage_readable|done].
  - intros [= <-]. repeat constructor; discriminate.
Qed.

Lemma clearHistory_readable p : Forall readable (messages (clearHistory p)).
Proof. repeat constructor; discriminate. Qed.

Lemma reply_readable data : readable (reply data).
Proof.
  unfold reply, js_or.
  destruct (truthy (content_path data)) eqn:Ht; [|split; discriminate].
  destruct (content_path data); try discriminate Ht; split; discriminate.
Qed.

Lemma showReply_messages r ts i p :
  messages (showReply r ts i p) = (messages p ++ [assistantMessage r ts])%list.
Proof. unfold showReply. by rewrite saveHistory_messages. Qed.

Lemma attempt_readable e ts i p p' :
  Forall readable (messages p) ->
  (attempt e ts i p).2 = Ok p' -> Forall readable (messages p').
Proof.
  intros Hp. unfold attempt. rewrite apiMessages_readable by done.
  destruct (relay_configured e); [|destruct (direct_configured e)]; cbn [snd];
    try (intros [= <-]; exact Hp);
    (destruct (fetch e _) as [res|]; [|done]; cbn [bind];
     destruct (ok res); [|done]; cbn [negb];
     destruct (json res) as [data|]; [|done]; cbn [bind];
     intros [= <-]; rewrite showReply_messages; apply Forall_app; split; [done|];
     repeat constructor; discriminate).
Qed.

Lemma onSubmit_readable e input userTs assistantTs p :
  Forall readable (messages p) ->
  Forall readable (messages (final (onSubmit e input userTs assistantTs p))).
Proof.
  intros Hp. destruct (trim input) as [|c t] eqn:Ht.
  { unfold onSubmit. by rewrite Ht. }
  rewrite (onSubmit_unfold _ _ _ _ _ c t Ht). cbn zeta. cbn [final].
  pose proof (asked_readable (String c t) userTs p Hp) as Hasked.
  destruct (attempt e assistantTs _ _).2 as [p6|err] eqn:Hattempt.
  - by eapply attempt_readable.
  - exact Hasked.
Qed.

(** ** A whole exchange, then a new session *)

Lemma obj_get_json k fs :
  forallb (fun kv => JSON.is_json kv.2) fs = true ->
  obj_get k fs = Undefined \/ JSON.is_json (obj_get k fs) = true.
Proof.
  unfold obj_get. induction fs as [|[k' v] fs IH]; cbn [obj_lookup forallb snd].
  - by left.
  - intros [Hv Hfs]%andb_prop. specialize (IH Hfs).
    destruct (obj_lookup k fs) as [later|]; [exact IH|].
    destruct (String.eqb k k'); [by right|by left].
Qed.

Lemma opt_prop_json v name :
  v = Undefined \/ JSON.is_json v = true ->
  opt_prop v name = Undefined \/ JSON.is_json (opt_prop v name) = true.
Proof.
  intros [-> | Hv]; [by left|].
  destruct v; try by left. by apply obj_get_json.
Qed.

Lemma opt_index0_json v :
  v = Undefined \/ JSON.is_json v = true ->
  opt_index0 v = Undefined \/ JSON.is_json (opt_index0 v) = true.
Proof.
  intros [-> | Hv]; [by left|].
  destruct v as [| | | |[|c s]|[|x xs]|fs]; try by left.
  - by right.
  - right. cbn in Hv. by apply andb_prop in Hv as [Hx _].
  - by apply obj_get_json.
Qed.

(** The reply to a JSON body is a JSON value. *)
Lemma reply_json data : JSON.is_json data = true -> JSON.is_json (reply data) = true.
Proof.
  intros Hdata. unfold reply, js_or.
  destruct (truthy (content_path data)) eqn:Ht; [|reflexivity].
  destruct (opt_prop_json
              (opt_prop (opt_index0 (opt_prop data "choices")) "message")
              "content") as [Hu | Hj]; [| |exact Hj].
  - apply opt_prop_json, opt_index0_json, opt_prop_json. by right.
  - unfold content_path in Ht. by rewrite Hu in Ht.
Qed.

(** After a successful exchange on a fresh page, over a storage without
    limit, a new session restores the system message, the question and
    the reply. *)
Lemma exchange_survives_reload e input userTs assistantTs p data :
  trim input <> EmptyString ->
  messages p = [systemMessage] ->
  unlimited (storage p) ->
  configured e = true ->
  succeeds e data ->
  JSON.is_json data = true ->
  exists restored,
    init (storage (final (onSubmit e input userTs assistantTs p))) = Ok restored /\
    messages restored =
      [systemMessage; userMessage (trim input) userTs;
       assistantMessage (reply data) assistantTs].
Proof.
  intros Htext Hp Hst Hconf Hfetch Hdata.
  assert (Hread : Forall readable (messages p)).
  { rewrite Hp. repeat constructor; discriminate. }
  destruct (trim input) as [|c t] eqn:Ht; [done|].
  rewrite (onSubmit_unfold _ _ _ _ _ c t Ht). cbn zeta. cbn [final].
  rewrite attempt_configured by (by apply asked_readable || done).
  cbn [snd].
  destruct (Hfetch (requestOf e (messages (asked (String c t) userTs p))))
    as (res & -> & Hok & Hjson).
  cbn [bind]. rewrite Hok, Hjson. cbn [negb bind].
  set (text := String c t). unfold showReply.
  set (q := push (assistantMessage (reply data) assistantTs)
              (setBubble (loadingIndex text userTs p)
                 (AssistantBubble (reply data) false (Some (Num assistantTs)))
                 (asked text userTs p))).
  assert (Hq : messages q =
               [systemMessage; userMessage text userTs;
                assistantMessage (reply data) assistantTs]).
  { subst q. cbn [push with_messages messages setBubble with_chatWindow].
    by rewrite asked_messages, Hp. }
  assert (Hf : filter_chat (messages q) =
               Ok [userMessage text userTs;
                   assistantMessage (reply data) assistantTs])
    by (by rewrite Hq).
  destruct (saveHistory_accepted q _ Hf) as (_ & _ & _ & Hget).
  { subst q. cbn [push with_messages storage setBubble with_chatWindow].
    rewrite asked_storage, saveHistory_quota. apply Hst. }
  destruct (init_saved (storage (saveHistory q))
              [userMessage text userTs;
               assistantMessage (reply data) assistantTs])
    as (r & Hr & Hmr & _); [done| | |done|by exists r].
  - cbn. by rewrite (reply_json data Hdata).
  - repeat constructor; discriminate.
Qed.

(** ** Colour math *)

Lemma linearize_gamma z : linearize (Some z) = Real (gamma z).
Proof. reflexivity. Qed.

Local Open Scope R_scope.

Lemma Rpower_12_5 x : 0 < x -> (Rpower x 2.4) ^ 5 = x ^ 12.
Proof.
  intros Hx.
  rewrite <- (Rpower_pow 5 (Rpower x 2.4)) by apply exp_pos.
  rewrite Rpower_mult.
  replace (2.4 * INR 5) with (INR 12) by (cbn; lra).
  by apply Rpower_pow.
Qed.

(** Where the two pieces of the curve meet on the integers: the linear
    piece stays below the power piece at 11. *)
Lemma gamma_pieces :
  0.03928 / 12.92 <= Rpower ((11 / 255 + 0.055) / 1.055) 2.4.
Proof.
  set (x := (11 / 255 + 0.055) / 1.055).
  assert (Hx : 0 < x) by (unfold x; lra).
  pose proof (Rpower_12_5 x Hx) as H5.
  pose proof (exp_pos (2.4 * ln x)) as Hpos. fold (Rpower x 2.4) in Hpos.
  destruct (Rle_lt_dec (0.03928 / 12.92) (Rpower x 2.4)) as [|Hlt]; [done|].
  exfalso.
  assert (Hle : (Rpower x 2.4) ^ 5 <= (0.03928 / 12.92) ^ 5).
  { apply pow_incr. lra. }
  rewrite H5 in Hle. unfold x in Hle. lra.
Qed.

(** The curve is monotone on channel values. *)
Lemma gamma_mono (z' z : Z) : (0 <= z' <= z)%Z -> gamma z' <= gamma z.
Proof.
  intros [H0 Hle]. unfold gamma.
  pose proof (IZR_le _ _ H0) as H0r. pose proof (IZR_le _ _ Hle) as Hler.
  destruct (Rle_dec (IZR z' / 255) 0.03928) as [Hlo'|Hhi'];
    destruct (Rle_dec (IZR z / 255) 0.03928) as [Hlo|Hhi].
  - lra.
  - assert (H11 : (11 <= z)%Z).
    { assert (10 < z)%Z; [|lia]. apply lt_IZR. lra. }
    apply IZR_le in H11.
    transitivity (0.03928 / 12.92); [lra|].
    transitivity (Rpower ((11 / 255 + 0.055) / 1.055) 2.4);
      [apply gamma_pieces|].
    apply Rle_Rpower_l; lra.
  - lra.
  - apply Rle_Rpower_l; lra.
Qed.

Lemma gamma_nonneg z : (0 <= z)%Z -> 0 <= gamma z.
Proof.
  intros H. transitivity (gamma 0); [|by apply gamma_mono].
  unfold gamma. destruct (Rle_dec _ _); [lra|]. left. apply exp_pos.
Qed.

Local Close Scope R_scope.

Lemma relativeLuminance_mono (r' g' b' r g b : Z) :
  (0 <= r' <= r)%Z -> (0 <= g' <= g)%Z -> (0 <= b' <= b)%Z ->
  no_brighter (relativeLuminance (Some r', Some g', Some b'))
              (relativeLuminance (Some r, Some g, Some b)).
Proof.
  intros Hr Hg Hb. cbn. eexists. split; [reflexivity|].
  pose proof (gamma_mono r' r Hr). pose proof (gamma_mono g' g Hg).
  pose proof (gamma_mono b' b Hb).
  fold (gamma r') (gamma g') (gamma b') (gamma r) (gamma g) (gamma b).
  lra.
Qed.

Lemma parseInt16_twice c : is_byte (parseInt16 (twice c)).
Proof.
  destruct c as [[] [] [] [] [] [] [] []];
    match goal with
    | |- is_byte ?x => let y := eval vm_compute in x in change (is_byte y)
    end; cbn [is_byte]; try done; lia.
Qed.

Lemma byte_at_range n k : (0 <= byte_at n k <= 255)%Z.
Proof.
  unfold byte_at. change (Z.land ?x 255) with (Z.land x (Z.ones 8)).
  rewrite Z.land_ones by lia.
  pose proof (Z.mod_pos_bound (Z.shiftr (toInt32 n) k) (2 ^ 8)). lia.
Qed.

Lemma hexToRgb_range hex :
  let '(r, g, b) := hexToRgb hex in is_byte r /\ is_byte g /\ is_byte b.
Proof.
  unfold hexToRgb.
  destruct (trim (remove_hash hex)) as [|c0 [|c1 [|c2 [|c3 h]]]];
    repeat split; try apply byte_at_range; apply parseInt16_twice.
Qed.

(** *** Reading back what [rgbToHex] writes *)

(** Case analysis on a nibble [n], given [Hn : nibble n]: each of the
    sixteen values is handed to [tac]. *)
Ltac each_nibble n Hn tac :=
  let m := fresh "m" in
  let Hm := fresh "Hm" in
  unfold nibble in Hn;
  assert (Hm : (Z.to_nat n < 16)%nat) by lia;
  rewrite <- (Z2Nat.id n) by lia;
  clear Hn; revert Hm; generalize (Z.to_nat n); intros m Hm;
  do 16 (destruct m as [|m]; [tac|]); lia.

Lemma hex2_byte z :
  (0 <= z <= 255)%Z ->
  hex2 (Some z) = String (digit16 (z / 16)) (String (digit16 (z mod 16)) EmptyString).
Proof.
  intros Hz.
  assert (Hall : forallb (fun n =>
            String.eqb (hex2 (Some (Z.of_nat n)))
              (String (digit16 (Z.of_nat n / 16))
                 (String (digit16 (Z.of_nat n mod 16)) EmptyString)))
            (seq 0 256) = true) by (vm_compute; reflexivity).
  rewrite forallb_forall in Hall.
  specialize (Hall (Z.to_nat z)). rewrite Z2Nat.id in Hall by lia.
  apply String.eqb_eq, Hall, in_seq. lia.
Qed.

Lemma digit16_not_space n : nibble n -> is_space (digit16 n) = false.
Proof. intros Hn. each_nibble n Hn ltac:(reflexivity). Qed.

Lemma digit16_value n : nibble n -> hex_value (digit16 n) = Some (Z.to_N n).
Proof. intros Hn. each_nibble n Hn ltac:(reflexivity). Qed.

Lemma digit16_no_sign n s :
  nibble n ->
  strip_prefix "-" (String (digit16 n) s) = None /\
  strip_prefix "+" (String (digit16 n) s) = None.
Proof. intros Hn. each_nibble n Hn ltac:(split; reflexivity). Qed.

Lemma digit16_no_0x c n s :
  nibble n ->
  strip_prefix "0x" (String c (String (digit16 n) s)) = None /\
  strip_prefix "0X" (String c (String (digit16 n) s)) = None.
Proof.
  intros Hn.
  each_nibble n Hn
    ltac:(cbn [strip_prefix]; destruct (Ascii.eqb "0"%char c); split; reflexivity).
Qed.

Lemma hex_run_digit16 acc n s :
  nibble n ->
  hex_run acc (String (digit16 n) s) = hex_run (Some (16 * default 0 acc + n)%Z) s.
Proof.
  intros Hn. cbn [hex_run]. rewrite digit16_value by done.
  rewrite Z2N.id by (unfold nibble in Hn; lia). reflexivity.
Qed.

Lemma trim_end_keeps c s :
  is_space c = false -> trim_end s = s -> trim_end (String c s) = String c s.
Proof. intros Hc Hs. cbn [trim_end]. rewrite Hs, Hc. by destruct s. Qed.

(** Six digits are read as three bytes. *)
Lemma hexToRgb_six n1 n2 n3 n4 n5 n6 :
  nibble n1 -> nibble n2 -> nibble n3 -> nibble n4 -> nibble n5 -> nibble n6 ->
  hexToRgb
    (String "#"
       (String (digit16 n1) (String (digit16 n2)
          (String (digit16 n3) (String (digit16 n4)
             (String (digit16 n5) (String (digit16 n6) EmptyString))))))) =
  (Some (n1 * 16 + n2)%Z, Some (n3 * 16 + n4)%Z, Some (n5 * 16 + n6)%Z).
Proof.
  intros H1 H2 H3 H4 H5 H6. unfold hexToRgb.
  change (remove_hash (String "#" ?s)) with s.
  set (h := String (digit16 n1) _).
  assert (Hts : trim_start h = h).
  { subst h. cbn [trim_start]. by rewrite digit16_not_space. }
  assert (Hte : trim_end h = h).
  { subst h. repeat (apply trim_end_keeps; [by apply digit16_not_space|]).
    reflexivity. }
  assert (Hh : trim h = h) by (unfold trim; by rewrite Hts, Hte).
  rewrite Hh.
  assert (Hp : parseInt16 h =
               Some (((((n1 * 16 + n2) * 16 + n3) * 16 + n4) * 16 + n5) * 16 + n6)%Z).
  { unfold parseInt16. rewrite Hts. subst h.
    destruct (digit16_no_sign n1
                (String (digit16 n2) (String (digit16 n3) (String (digit16 n4)
                   (String (digit16 n5) (String (digit16 n6) EmptyString))))) H1)
      as [-> ->].
    destruct (digit16_no_0x (digit16 n1) n2
                (String (digit16 n3) (String (digit16 n4)
                   (String (digit16 n5) (String (digit16 n6) EmptyString)))) H2)
      as [-> ->].
    rewrite !hex_run_digit16 by done.
    cbn [hex_run default from_option mbind option_bind]. unfold Datatypes.id.
    f_equal. lia. }
  rewrite Hp. subst h. cbn beta iota.
  unfold byte_at, toInt32, nibble in *.
  change (Z.land ?x 255) with (Z.land x (Z.ones 8)).
  rewrite !Z.land_ones, !Z.shiftr_div_pow2 by lia.
  set (X := (((((n1 * 16 + n2) * 16 + n3) * 16 + n4) * 16 + n5) * 16 + n6)%Z).
  assert (HX : (0 <= X < 2 ^ 24)%Z) by (subst X; lia).
  rewrite (Z.mod_small (X + 2 ^ 31) (2 ^ 32)) by lia.
  replace (X + 2 ^ 31 - 2 ^ 31)%Z with X by lia.
  change (2 ^ 16)%Z with 65536%Z. change (2 ^ 8)%Z with 256%Z.
  change (2 ^ 0)%Z with 1%Z.
  repeat f_equal; subst X; clear HX Hp Hh Hte Hts;
    Z.div_mod_to_equations; lia.
Qed.

Lemma hexToRgb_rgbToHex r g b :
  (0 <= r <= 255)%Z -> (0 <= g <= 255)%Z -> (0 <= b <= 255)%Z ->
  hexToRgb (rgbToHex (Some r, Some g, Some b)) = (Some r, Some g, Some b).
Proof.
  intros Hr Hg Hb. unfold rgbToHex.
  rewrite !hex2_byte by done. cbn [String.append].
  rewrite hexToRgb_six by (unfold nibble; Z.div_mod_to_equations; lia).
  repeat f_equal; Z.div_mod_to_equations; lia.
Qed.

(** *** One step toward black *)

Lemma round_toward_zero (z : Z) (t : Q) :
  (0 <= z)%Z -> (0 <= t)%Q -> (t <= 1)%Q ->
  (0 <= round (inject_Z z + (inject_Z 0 - inject_Z z) * t) <= z)%Z.
Proof.
  intros Hz Ht0 Ht1. unfold round.
  set (q := (inject_Z z + (inject_Z 0 - inject_Z z) * t + (1 # 2))%Q).
  assert (Hzq : (0 <= inject_Z z)%Q).
  { change 0%Q with (inject_Z 0). rewrite <- Zle_Qle. lia. }
  assert (Hlo : (inject_Z 0 <= q)%Q).
  { subst q. change (inject_Z 0) with 0%Q. Lqa.nra. }
  assert (Hhi : (q < inject_Z (z + 1))%Q).
  { subst q. rewrite inject_Z_plus. change (inject_Z 0) with 0%Q.
    change (inject_Z 1) with 1%Q. Lqa.nra. }
  split.
  - rewrite <- (Qfloor_Z 0). by apply Qfloor_resp_le.
  - pose proof (Qfloor_le q) as Hfl.
    assert (Hlt : (inject_Z (Qfloor q) < inject_Z (z + 1))%Q)
      by (eapply Qle_lt_trans; eauto).
    rewrite <- Zlt_Qlt in Hlt. lia.
Qed.

Lemma clamp_mix_black (z : Z) (t : Q) :
  (0 <= z <= 255)%Z -> (0 <= t)%Q -> (t <= 1)%Q ->
  exists z', clamp (mix (Some z) (Some 0%Z) t) = Some z' /\ (0 <= z' <= z)%Z.
Proof.
  intros Hz Ht0 Ht1. unfold clamp, mix. cbn [mbind option_bind].
  eexists. split; [reflexivity|].
  pose proof (round_toward_zero z t (proj1 Hz) Ht0 Ht1) as H. lia.
Qed.

Lemma relativeLuminance_nan (r g b : channel) :
  r = None \/ g = None \/ b = None -> relativeLuminance (r, g, b) = NaN.
Proof.
  intros [-> | [-> | ->]]; cbn; try done;
    destruct r; try done; destruct g; done.
Qed.

(** A step of [darkenTowardsBlack] never makes a colour brighter. *)
Lemma darken_no_brighter hex t :
  (0 <= t)%Q -> (t <= 1)%Q ->
  no_brighter (luminance (darkenTowardsBlack hex t)) (luminance hex).
Proof.
  intros Ht0 Ht1. unfold luminance, darkenTowardsBlack, lerpColor.
  pose proof (hexToRgb_range hex) as Hrange.
  destruct (hexToRgb hex) as [[r g] b].
  change (hexToRgb "#000000") with (Some 0%Z, Some 0%Z, Some 0%Z).
  cbn beta iota.
  destruct r as [r|]; [|by rewrite (relativeLuminance_nan None g b); auto].
  destruct g as [g|]; [|by rewrite (relativeLuminance_nan (Some r) None b); auto].
  destruct b as [b|]; [|by rewrite (relativeLuminance_nan (Some r) (Some g) None); auto].
  destruct Hrange as (Hr & Hg & Hb). cbn [is_byte] in *.
  destruct (clamp_mix_black r t Hr Ht0 Ht1) as (r' & -> & Hr').
  destruct (clamp_mix_black g t Hg Ht0 Ht1) as (g' & -> & Hg').
  destruct (clamp_mix_black b t Hb Ht0 Ht1) as (b' & -> & Hb').
  rewrite hexToRgb_rgbToHex by lia.
  by apply relativeLuminance_mono.
Qed.

Lemma stepOf_range n : (0 <= stepOf n)%Q /\ (stepOf n <= 1)%Q.
Proof.
  unfold stepOf. split.
  - apply Q.min_glb; [done|].
    assert (0 <= inject_Z (Z.of_nat n))%Q.
    { change 0%Q with (inject_Z 0). rewrite <- Zle_Qle. lia. }
    Lqa.lra.
  - apply Q.le_min_l.
Qed.

(** ** Contrast corrector *)

Lemma guard_attempts target s : guard target s = true -> (attempts s < 24)%nat.
Proof.
  unfold guard. intros [_ H]%andb_prop. by apply Nat.ltb_lt in H.
Qed.

Lemma guard_exhausted target s : (24 <= attempts s)%nat -> guard target s = false.
Proof.
  intros H. unfold guard. apply andb_false_intro2. apply Nat.ltb_ge. lia.
Qed.

Lemma whileLoop_clause target fgVar bgVar bg s (b : bool)
    (E : guard target s = b) :
  whileLoop_unfold_clause_1 target fgVar bgVar bg s (exist _ b E) =
  if b
  then s :: whileLoop target fgVar bgVar bg (loopBody fgVar bgVar bg s)
  else [s].
Proof. destruct b; simp whileLoop; reflexivity. Qed.

(** The loop, one test of the guard at a time. *)
Lemma whileLoop_step target fgVar bgVar bg s :
  whileLoop target fgVar bgVar bg s =
  if guard target s
  then s :: whileLoop target fgVar bgVar bg (loopBody fgVar bgVar bg s)
  else [s].
Proof.
  rewrite whileLoop_equation_1. unfold inspect. apply whileLoop_clause.
Qed.

(** The loop as a sequence of states: in the last one the guard is
    false, and each state comes from the one before by the body. *)
Lemma whileLoop_spec target fgVar bgVar bg n :
  forall s, (24 - attempts s <= n)%nat ->
  exists s_end,
    last (whileLoop target fgVar bgVar bg s) = Some s_end /\
    (attempts s <= attempts s_end)%nat /\
    length (whileLoop target fgVar bgVar bg s) = S (attempts s_end - attempts s) /\
    ((attempts s <= 24)%nat -> (attempts s_end <= 24)%nat) /\
    guard target s_end = false /\
    forall i a b,
      whileLoop target fgVar bgVar bg s !! i = Some a ->
      whileLoop target fgVar bgVar bg s !! S i = Some b ->
      guard target a = true /\ b = loopBody fgVar bgVar bg a.
Proof.
  induction n as [|n IH]; intros s Hn; rewrite whileLoop_step;
    destruct (guard target s) eqn:Hg.
  - apply guard_attempts in Hg. lia.
  - exists s.
    split; [done|]. split; [lia|]. split; [cbn; f_equal; lia|].
    split; [done|]. split; [done|].
    intros i a b Ha Hb. by destruct i.
  - pose proof (guard_attempts target s Hg) as Hlt.
    destruct (IH (loopBody fgVar bgVar bg s))
      as (s_end & Hlast & Hle & Hlen & Hbound & Hdone & Hstep);
      [cbn [loopBody attempts]; lia|].
    cbn [loopBody attempts] in Hle, Hlen, Hbound.
    exists s_end.
    split; [by rewrite last_cons, Hlast|].
    split; [lia|].
    split; [cbn [length]; rewrite Hlen; lia|].
    split; [intros _; apply Hbound; lia|].
    split; [done|].
    intros i a b Ha Hb. destruct i as [|i]; cbn in Ha, Hb.
    + injection Ha as <-. split; [done|].
      rewrite whileLoop_step in Hb.
      destruct (guard target (loopBody fgVar bgVar bg s));
        by injection Hb as <-.
    + exact (Hstep i a b Ha Hb).
  - exists s.
    split; [done|]. split; [lia|]. split; [cbn; f_equal; lia|].
    split; [done|]. split; [done|].
    intros i a b Ha Hb. by destruct i.
Qed.

(** Claim C4.  For every pair that the corrector processes, on every
    style and for every target, the loop makes at most 24 passes (the
    states are one more than the passes) and stops with its guard
    false; each pass darkens the foreground by the step of its attempt,
    and the luminance of the foreground never goes up from one state to
    the next.  A luminance is [NaN] only for a foreground that is no
    colour; from a number it goes to a number. *)
Theorem darkening_loop_bounded_and_monotone
    (target : R) (fgVar bgVar : string) (wasChanged : bool) (st : style) :
  let states := fixPair target fgVar bgVar wasChanged st in
  exists s_end,
    last states = Some s_end /\
    length states = S (attempts s_end) /\
    (attempts s_end <= 24)%nat /\
    guard target s_end = false /\
    forall i s s',
      states !! i = Some s -> states !! S i = Some s' ->
      attempts s' = S (attempts s) /\
      fg s' = darkenTowardsBlack (fg s) (stepOf (attempts s)) /\
      no_brighter (luminance (fg s')) (luminance (fg s)).
Proof.
  intros states. subst states. unfold fixPair.
  set (fg0 := or_else (trim (getPropertyValue st fgVar)) "#222222").
  set (bg := or_else (trim (getPropertyValue st bgVar)) "#ffffff").
  set (s0 := {| fg := fg0; ratio := _; attempts := 0; changed := wasChanged;
                css := st |}).
  destruct (whileLoop_spec target fgVar bgVar bg 24 s0)
    as (s_end & Hlast & _ & Hlen & Hbound & Hdone & Hstep); [cbn; lia|].
  exists s_end. split; [exact Hlast|].
  split; [rewrite Hlen; cbn; f_equal; lia|].
  split; [apply Hbound; cbn; lia|].
  split; [exact Hdone|].
  intros i s s' Hs Hs'.
  destruct (Hstep i s s' Hs Hs') as [_ ->].
  cbn [loopBody attempts fg]. repeat split.
  apply darken_no_brighter; apply stepOf_range.
Qed.

(** ** Contrast ratio *)

Lemma contrastRatio_strings a b :
  contrastRatio (Str a) (Str b) = Some (ratioOf (luminance a) (luminance b)).
Proof.
  unfold contrastRatio, ratioOf, luminance.
  by destruct (relativeLuminance (hexToRgb a)), (relativeLuminance (hexToRgb b)).
Qed.

Local Open Scope R_scope.

Lemma gamma_0 : gamma 0 = 0.
Proof. unfold gamma. destruct (Rle_dec _ _); lra. Qed.

Lemma gamma_255 : gamma 255 = 1.
Proof.
  unfold gamma. destruct (Rle_dec _ _) as [H|_]; [lra|].
  replace ((255 / 255 + 0.055) / 1.055) with 1 by lra.
  unfold Rpower. by rewrite ln_1, Rmult_0_r, exp_0.
Qed.

Lemma luminance_black : relativeLuminance (Some 0%Z, Some 0%Z, Some 0%Z) = Real 0.
Proof. cbn. fold (gamma 0). rewrite gamma_0. f_equal. lra. Qed.

Lemma luminance_white :
  relativeLuminance (Some 255%Z, Some 255%Z, Some 255%Z) = Real 1.
Proof. cbn. fold (gamma 255). rewrite gamma_255. f_equal. lra. Qed.

Local Close Scope R_scope.

(** Claim C3, at an input where the code departs from it.  The string
    [zzzzzz] is no hex colour.  [parseInt] finds no digit in it and
    gives [NaN], whose bytes are those of 0: [hexToRgb] reads the string
    as black and throws nothing.  The [catch] of [contrastRatio], which
    returns the [null] that the claim expects, is not reached, and the
    result is a ratio, the 21 of black against white. *)
Theorem contrastRatio_unparseable_reads_as_black :
  is_hex_colour "zzzzzz" = false /\
  parseInt16 "zzzzzz" = None /\
  hexToRgb "zzzzzz" = (Some 0%Z, Some 0%Z, Some 0%Z) /\
  contrastRatio (Str "zzzzzz") (Str "#ffffff") = Some (Real 21).
Proof.
  split; [reflexivity|]. split; [reflexivity|]. split; [reflexivity|].
  rewrite contrastRatio_strings. unfold luminance.
  change (hexToRgb "zzzzzz") with (Some 0%Z, Some 0%Z, Some 0%Z).
  change (hexToRgb "#ffffff") with (Some 255%Z, Some 255%Z, Some 255%Z).
  rewrite luminance_black, luminance_white. cbn [ratioOf]. do 2 f_equal.
  rewrite Rmax_right, Rmin_left by lra. lra.
Qed.

(** The same for a colour in functional notation, which the root style
    may hold as well: white text on a white background is given the
    contrast of black on white. *)
Example contrastRatio_white_on_white :
  contrastRatio (Str "rgb(255, 255, 255)") (Str "#ffffff") = Some (Real 21).
Proof.
  rewrite contrastRatio_strings. unfold luminance.
  change (hexToRgb "rgb(255, 255, 255)") with (Some 0%Z, Some 0%Z, Some 0%Z).
  change (hexToRgb "#ffffff") with (Some 255%Z, Some 255%Z, Some 255%Z).
  rewrite luminance_black, luminance_white. cbn [ratioOf]. do 2 f_equal.
  rewrite Rmax_right, Rmin_left by lra. lra.
Qed.

(** A three-character string with a character that is no digit gives
    [NaN], which is not the [null] of the [catch] either. *)
Example contrastRatio_red :
  contrastRatio (Str "red") (Str "#ffffff") = Some NaN.
Proof.
  rewrite contrastRatio_strings. unfold luminance.
  change (hexToRgb "red") with (@None Z, Some 238%Z, Some 221%Z).
  reflexivity.
Qed.

(** ** The conversation store, further *)

Lemma filter_chat_readable ms :
  Forall readable ms -> filter_chat ms = Ok (List.filter chat_role ms).
Proof.
  induction 1 as [|m ms Hm _ IH]; [reflexivity|].
  cbn [filter_chat List.filter]. unfold is_chat_message, chat_role.
  rewrite get_prop_opt_prop by done. cbn [bind]. rewrite IH. reflexivity.
Qed.

Lemma filter_chat_inv ms kept :
  filter_chat ms = Ok kept -> Forall readable ms.
Proof.
  revert kept. induction ms as [|m ms IH]; intros kept; [constructor|].
  cbn [filter_chat]. unfold is_chat_message.
  destruct (get_prop m "role") as [role|err] eqn:Hrole; [|done].
  cbn [bind]. destruct (filter_chat ms) as [rest|]; [|done].
  intros _. constructor; [by eapply get_prop_ok_readable|by eapply IH].
Qed.

Lemma forallb_filter_json f ms :
  forallb JSON.is_json ms = true -> forallb JSON.is_json (List.filter f ms) = true.
Proof.
  induction ms as [|m ms IH]; [done|]. cbn [forallb List.filter].
  intros [Hm Hms]%andb_prop. destruct (f m); cbn [forallb]; [|by apply IH].
  by rewrite Hm, IH.
Qed.

(** X1.  What [saveHistory] writes is what [loadHistory] reads: for a
    transcript of JSON values with properties to read, saved on a storage
    that accepts the write, loading gives the entries whose role is
    ['user'] or ['assistant'], in the order of the transcript, and leaves
    the storage as it is.  The system message is not among them. *)
Theorem saved_history_loads_back (p : page) :
  Forall readable (messages p) ->
  forallb JSON.is_json (messages p) = true ->
  unlimited (storage p) ->
  loadHistory (storage (saveHistory p)) =
    (Some (List.filter chat_role (messages p)), storage (saveHistory p)) /\
  chat_role systemMessage = false.
Proof.
  intros Hread Hjson Hst. split; [|reflexivity].
  destruct (saveHistory_accepted p _ (filter_chat_readable _ Hread))
    as (_ & _ & _ & Hget); [apply Hst|].
  apply loadHistory_stringify; [|exact Hget].
  by apply forallb_filter_json.
Qed.

Lemma saved_history_loads_back_witness :
  loadHistory (storage (saveHistory talkedPage)) =
    (Some (List.filter chat_role (messages talkedPage)),
     storage (saveHistory talkedPage)) /\
  chat_role systemMessage = false.
Proof.
  apply (saved_history_loads_back talkedPage).
  - repeat constructor; discriminate.
  - reflexivity.
  - intros items key text. reflexivity.
Defined.

(** [saveHistory] changes one thing at most, the record at the history
    key: the transcript and the chat window stay, and so does every
    other item of the storage.  Either the storage is left as it was
    (the write was refused, or an entry of the transcript is [undefined]
    or [null] and the filter threw), or every entry has properties to
    read and the record is the text of the kept entries. *)
Lemma saveHistory_frame (p : page) :
  messages (saveHistory p) = messages p /\
  chatWindow (saveHistory p) = chatWindow p /\
  (forall key, key <> STORAGE_KEY ->
     localStorage.getItem (storage (saveHistory p)) key =
     localStorage.getItem (storage p) key) /\
  (storage (saveHistory p) = storage p \/
   Forall readable (messages p) /\
   localStorage.items (storage (saveHistory p)) =
     <[STORAGE_KEY := JSON.stringify (Arr (List.filter chat_role (messages p)))]>
       (localStorage.items (storage p))).
Proof.
  split; [apply saveHistory_messages|]. split; [apply saveHistory_chatWindow|].
  unfold saveHistory.
  destruct (filter_chat (messages p)) as [kept|err] eqn:Hf; cbn [bind].
  - pose proof (filter_chat_inv _ _ Hf) as Hread.
    rewrite (filter_chat_readable _ Hread) in Hf. injection Hf as <-.
    unfold localStorage.setItem.
    destruct (localStorage.quota _ _ _ _); cbn.
    + split; [|by right].
      intros key Hkey. unfold localStorage.getItem. cbn.
      by apply lookup_insert_ne.
    + split; [done|by left].
  - split; [done|by left].
Qed.

Lemma parse_empty : JSON.parse EmptyString = None.
Proof. reflexivity. Qed.

(** X2.  A history record that [JSON.parse] rejects is purged: the
    session starts on the system message and the greeting, the record is
    gone while the other items stay, and loading the page again gives the
    same page.  The codec of the embedding reads integer numerals only,
    so the property is that of the records whose numerals are integers:
    there it rejects what the platform's [JSON.parse] rejects. *)
Theorem init_purges_rejected_record (st : localStorage.t) (raw : string) :
  localStorage.getItem st STORAGE_KEY = Some raw ->
  raw <> EmptyString ->
  integer_numerals raw = true ->
  JSON.parse raw = None ->
  exists p,
    init st = Ok p /\
    messages p = [systemMessage] /\
    chatWindow p = [AssistantBubble (Str greeting) false None] /\
    localStorage.getItem (storage p) STORAGE_KEY = None /\
    (forall key, key <> STORAGE_KEY ->
       localStorage.getItem (storage p) key = localStorage.getItem st key) /\
    init (storage p) = Ok p.
Proof.
  intros Hget Hne _ Hparse. destruct raw as [|c raw]; [done|].
  destruct (init_unparseable st c raw Hget Hparse) as [Hinit Hgone].
  exists (greeted (localStorage.removeItem st STORAGE_KEY)).
  split; [exact Hinit|]. repeat split.
  - exact Hgone.
  - intros key Hkey. by apply lookup_delete_ne.
  - by apply init_absent.
Qed.

Lemma init_purges_rejected_record_witness :
  integer_numerals "{oops" = true /\
  exists p,
    init (storing "{oops") = Ok p /\
    messages p = [systemMessage] /\
    chatWindow p = [AssistantBubble (Str greeting) false None] /\
    localStorage.getItem (storage p) STORAGE_KEY = None /\
    (forall key, key <> STORAGE_KEY ->
       localStorage.getItem (storage p) key =
       localStorage.getItem (storing "{oops") key) /\
    init (storage p) = Ok p.
Proof.
  split; [reflexivity|].
  apply (init_purges_rejected_record (storing "{oops") "{oops").
  - reflexivity.
  - discriminate.
  - reflexivity.
  - reflexivity.
Defined.

Lemma loadHistory_array st raw xs :
  localStorage.getItem st STORAGE_KEY = Some raw ->
  JSON.parse raw = Some (Arr xs) ->
  loadHistory st = (Some xs, st).
Proof.
  intros Hget Hparse. unfold loadHistory. rewrite Hget.
  destruct raw; [by rewrite parse_empty in Hparse|]. by rewrite Hparse.
Qed.



Lemma render_restored_throw m p err :
  render_restored m p = Throw err -> err = "TypeError".
Proof.
  unfold render_restored. destruct m; cbn; try congruence;
    repeat (match goal with
            | |- context [if ?b then _ else _] => destruct b
            end; cbn); congruence.
Qed.

Lemma forEach_restored_null ms p :
  Null ∈ ms -> forEach_restored ms p = Throw "TypeError".
Proof.
  intros Hin. revert p. induction ms as [|m ms IH]; intros p.
  - by apply elem_of_nil in Hin.
  - cbn [forEach_restored].
    destruct (render_restored m p) as [p'|err] eqn:Hr; cbn [bind].
    + apply elem_of_cons in Hin as [<- | Hin]; [done|]. by apply IH.
    + by rewrite (render_restored_throw m p err Hr).
Qed.

(** X4.  A stored array with a [null] entry makes the page load throw a
    TypeError (at [m.role], line 115).  [loadHistory] has accepted the
    record and left it in the storage, so the next load meets it again. *)
Theorem init_throws_on_null_entry
    (st : localStorage.t) (raw : string) (xs : list value) :
  localStorage.getItem st STORAGE_KEY = Some raw ->
  JSON.parse raw = Some (Arr xs) ->
  Null ∈ xs ->
  init st = Throw "TypeError" /\ loadHistory st = (Some xs, st).
Proof.
  intros Hget Hparse Hin.
  pose proof (loadHistory_array st raw xs Hget Hparse) as Hload.
  split; [|exact Hload]. unfold init. rewrite Hload.
  destruct xs as [|m ms]; [by apply elem_of_nil in Hin|].
  by apply forEach_restored_null.
Qed.

Lemma init_throws_on_null_entry_witness :
  init (storing "[null]") = Throw "TypeError" /\
  loadHistory (storing "[null]") = (Some [Null], storing "[null]").
Proof.
  apply (init_throws_on_null_entry (storing "[null]") "[null]").
  - reflexivity.
  - reflexivity.
  - apply list_elem_of_singleton. reflexivity.
Defined.

(** *** What the chat window shows *)

Lemma bubbles_app w v : bubbles (w ++ v)%list = (bubbles w ++ bubbles v)%list.
Proof. apply List.filter_app. Qed.

Lemma latestQuestions_app w v :
  latestQuestions (w ++ v)%list = (latestQuestions w ++ latestQuestions v)%list.
Proof. apply List.filter_app. Qed.

Lemma bubbles_remove_first w :
  bubbles (remove_first is_latest_question w) = bubbles w.
Proof.
  induction w as [|n w IH]; [done|]. cbn [remove_first].
  destruct (is_latest_question n) eqn:Hn; unfold bubbles in *; cbn [List.filter];
    rewrite Hn; cbn [negb]; [done|by rewrite IH].
Qed.

Lemma latestQuestions_remove_first w :
  (length (latestQuestions w) <= 1)%nat ->
  latestQuestions (remove_first is_latest_question w) = [].
Proof.
  induction w as [|n w IH]; [done|]. cbn [remove_first].
  unfold latestQuestions in *. cbn [List.filter].
  destruct (is_latest_question n) eqn:Hn; cbn [length List.filter].
  - intros H. destruct (List.filter is_latest_question w); [done|cbn in H; lia].
  - rewrite Hn. exact IH.
Qed.

Lemma updateLatestQuestionDisplay_window text p :
  bubbles (chatWindow (updateLatestQuestionDisplay text p)) = bubbles (chatWindow p) /\
  ((length (latestQuestions (chatWindow p)) <= 1)%nat ->
   latestQuestions (chatWindow (updateLatestQuestionDisplay text p)) =
     [LatestQuestion text]).
Proof.
  unfold updateLatestQuestionDisplay. cbn [with_chatWindow chatWindow].
  rewrite bubbles_app, latestQuestions_app, bubbles_remove_first. split.
  - cbn. by rewrite app_nil_r.
  - intros H. by rewrite latestQuestions_remove_first.
Qed.

Lemma render_restored_window m p :
  readable m ->
  (length (latestQuestions (chatWindow p)) <= 1)%nat ->
  exists p',
    render_restored m p = Ok p' /\
    bubbles (chatWindow p') =
      (bubbles (chatWindow p) ++ omap bubbleOf [m])%list /\
    latestQuestions (chatWindow p') =
      match questionOf m with
      | Some q => [LatestQuestion q]
      | None => latestQuestions (chatWindow p)
      end.
Proof.
  intros Hm Hone. unfold render_restored.
  rewrite !get_prop_opt_prop by done. cbn [bind].
  assert (Hom : omap bubbleOf [m] =
                match bubbleOf m with Some n => [n] | None => [] end)
    by (cbn; by destruct (bubbleOf m)).
  rewrite Hom. unfold bubbleOf, questionOf.
  destruct (is_str (opt_prop m "role") "user").
  - eexists. split; [reflexivity|].
    destruct (updateLatestQuestionDisplay_window (opt_prop m "content")
                (appendUserBubble (opt_prop m "content")
                   (opt_prop m "timestamp") p)) as [Hb Hl].
    rewrite Hb, Hl.
    + split; [|done]. unfold appendUserBubble. cbn [with_chatWindow chatWindow].
      by rewrite bubbles_app.
    + unfold appendUserBubble. cbn [with_chatWindow chatWindow].
      rewrite latestQuestions_app. cbn. by rewrite app_nil_r.
  - destruct (is_str (opt_prop m "role") "assistant").
    + eexists. split; [reflexivity|].
      unfold appendAssistantBubble. cbn [with_chatWindow chatWindow].
      rewrite bubbles_app, latestQuestions_app. cbn.
      by rewrite app_nil_r.
    + eexists. split; [reflexivity|]. by rewrite app_nil_r.
Qed.





(** ** The submit handler, further *)

Lemma trim_start_blank s : blank s = true -> trim_start s = EmptyString.
Proof.
  induction s as [|c s IH]; [done|]. cbn [blank trim_start].
  intros [-> Hs]%andb_prop. by apply IH.
Qed.

Lemma trim_start_shape s :
  trim_start s = EmptyString /\ blank s = true \/
  exists c t, trim_start s = String c t /\ is_space c = false /\ blank s = false.
Proof.
  induction s as [|c s IH]; [by left|]. cbn [blank trim_start].
  destruct (is_space c) eqn:Hc; cbn [andb]; [exact IH|].
  right. by exists c, s.
Qed.

Lemma trim_end_head c t : is_space c = false -> trim_end (String c t) <> EmptyString.
Proof. intros Hc. cbn [trim_end]. rewrite Hc. by destruct (trim_end t). Qed.

Lemma trim_blank s : trim s = EmptyString <-> blank s = true.
Proof.
  unfold trim. destruct (trim_start_shape s) as [[-> Hb] | (c & t & -> & Hc & Hb)].
  - done.
  - rewrite Hb. split; [|done]. intros H. by apply trim_end_head in H.
Qed.

(** The three ways the [try] block ends. *)
Lemma attempt_cases e ts i p :
  (exists err, (attempt e ts i p).2 = Throw err /\
               (length (attempt e ts i p).1 <= 1)%nat) \/
  attempt e ts i p = ([], Ok (setBubble i configBubble p)) \/
  exists req res data,
    attempt e ts i p = ([req], Ok (showReply (reply data) ts i p)) /\
    fetch e req = Ok res /\ ok res = true /\ json res = Ok data.
Proof.
  unfold attempt.
  destruct (apiMessages (messages p)) as [api|err]; [|left; eexists; split; [done|cbn; lia]].
  destruct (relay_configured e); [|destruct (direct_configured e)];
    try (right; left; reflexivity);
    match goal with
    | |- context [fetch e ?r] =>
        destruct (fetch e r) as [res|err] eqn:Hfetch; cbn [bind];
        [|left; eexists; split; [done|cbn; lia]];
        destruct (ok res) eqn:Hok; cbn [negb];
        [|left; eexists; split; [done|cbn; lia]];
        destruct (json res) as [data|err] eqn:Hjson; cbn [bind];
        [|left; eexists; split; [done|cbn; lia]];
        right; right; exists r, res, data; by rewrite Hfetch
    end.
Qed.

Lemma remove_first_snoc f w n :
  f n = false -> remove_first f (w ++ [n])%list = (remove_first f w ++ [n])%list.
Proof.
  intros Hn. induction w as [|x w IH]; cbn [app remove_first].
  - by rewrite Hn.
  - destruct (f x); [done|]. by rewrite IH.
Qed.

(** The chat window at the start of the [try] block. *)
Lemma asked_window text userTs p :
  chatWindow (asked text userTs p) =
    ((remove_first is_latest_question (chatWindow p) ++
      [UserBubble (Str text) (shown (Num userTs)); LatestQuestion (Str text)]) ++
     [AssistantBubble (Str "Thinking...") true None])%list /\
  loadingIndex text userTs p =
    length (remove_first is_latest_question (chatWindow p) ++
            [UserBubble (Str text) (shown (Num userTs));
             LatestQuestion (Str text)])%list.
Proof.
  unfold asked, loadingIndex. cbn [appendAssistantBubble with_chatWindow chatWindow].
  rewrite saveHistory_chatWindow.
  cbn [push with_messages updateLatestQuestionDisplay appendUserBubble
       with_chatWindow chatWindow].
  rewrite remove_first_snoc by done. rewrite <- !app_assoc. done.
Qed.

(** What a submission of a text that is not blank leaves, in each of the
    three ways it can end. *)
Lemma onSubmit_shape e input userTs assistantTs p c t :
  trim input = String c t ->
  let text := String c t in
  let o := onSubmit e input userTs assistantTs p in
  let w := (remove_first is_latest_question (chatWindow p) ++
            [UserBubble (Str text) (shown (Num userTs));
             LatestQuestion (Str text)])%list in
  let saved := saveHistory (push (userMessage text userTs) p) in
  (length (sent o) <= 1)%nat /\
  ((exists n, (n = configBubble /\ sent o = [] \/ exists err, n = errorBubble err) /\
      chatWindow (final o) = (w ++ [n])%list /\
      messages (final o) = (messages p ++ [userMessage text userTs])%list /\
      storage (final o) = storage saved) \/
   (exists req res data,
      sent o = [req] /\ fetch e req = Ok res /\ ok res = true /\
      json res = Ok data /\
      chatWindow (final o) = (w ++ [replyBubble (reply data) assistantTs])%list /\
      messages (final o) =
        (messages p ++ [userMessage text userTs;
                        assistantMessage (reply data) assistantTs])%list /\
      storage (final o) =
        storage (saveHistory
                   (push (assistantMessage (reply data) assistantTs) saved)))).
Proof.
  intros Ht text o w saved. subst o.
  rewrite (onSubmit_unfold _ _ _ _ _ c t Ht). cbn zeta. cbn [sent final].
  fold text.
  destruct (asked_window text userTs p) as [Hw Hi]. fold w in Hw, Hi.
  pose proof (fun n => setBubble_last (loadingIndex text userTs p) n
                         (asked text userTs p) w _ Hw Hi) as Hset.
  destruct (attempt_cases e assistantTs (loadingIndex text userTs p)
              (asked text userTs p))
    as [(err & Herr & Hlen) | [Hconf | (req & res & data & Hok & Hf & Hk & Hj)]].
  - split; [exact Hlen|]. left. rewrite Herr. fold (errorBubble err).
    exists (errorBubble err). split; [right; by exists err|].
    destruct (Hset (errorBubble err)) as (-> & -> & ->).
    by rewrite asked_messages, asked_storage.
  - rewrite Hconf. cbn [fst snd]. split; [cbn; lia|]. left.
    exists configBubble. split; [by left|].
    destruct (Hset configBubble) as (-> & -> & ->).
    by rewrite asked_messages, asked_storage.
  - rewrite Hok. cbn [fst snd]. split; [cbn; lia|]. right.
    exists req, res, data. repeat (split; [done|]).
    unfold showReply.
    rewrite saveHistory_chatWindow, saveHistory_messages.
    cbn [push with_messages chatWindow messages].
    destruct (Hset (replyBubble (reply data) assistantTs)) as (Hcw & Hms & Hst).
    fold (replyBubble (reply data) assistantTs).
    rewrite Hcw, Hms, asked_messages, <- app_assoc. repeat split.
    apply saveHistory_storage.
    + cbn [push with_messages messages]. rewrite Hms, asked_messages.
      subst saved. by rewrite saveHistory_messages.
    + cbn [push with_messages storage]. by rewrite Hst, asked_storage.
Qed.

Lemma reply_truthy data : truthy (reply data) = true.
Proof.
  unfold reply, js_or. by destruct (truthy (content_path data)) eqn:H.
Qed.

Lemma app_cons_neq {A} (l : list A) x rest : (l ++ x :: rest)%list <> l.
Proof.
  intros H. apply (f_equal length) in H. rewrite length_app in H. cbn in H. lia.
Qed.

(** X6.  A submission leaves the page as it was exactly when the input
    is blank (empty, or white space only); a blank input sends no
    request.  The input is a text of ASCII characters. *)
Theorem blank_input_is_ignored
    (e : env) (input : string) (userTs assistantTs : Z) (p : page) :
  ascii_only input = true ->
  let o := onSubmit e input userTs assistantTs p in
  (blank input = true <-> final o = p) /\
  (blank input = true -> sent o = []).
Proof.
  intros _. cbn zeta. destruct (trim input) as [|c t] eqn:Ht.
  - assert (Hb : blank input = true) by by apply trim_blank.
    unfold onSubmit. rewrite Ht. cbn [final sent]. by rewrite Hb.
  - assert (Hb : blank input = false).
    { destruct (blank input) eqn:Hb; [|done].
      apply trim_blank in Hb. congruence. }
    rewrite Hb. split; [|done]. split; [done|]. intros Hp. exfalso.
    destruct (onSubmit_shape e input userTs assistantTs p c t Ht)
      as [_ [(n & _ & _ & Hm & _) | (req & res & data & _ & _ & _ & _ & _ & Hm & _)]];
      rewrite Hp in Hm; symmetry in Hm; by apply app_cons_neq in Hm.
Qed.

Lemma blank_input_is_ignored_witness :
  let o := onSubmit offline "   " 1700000000123 1700000000456
             (greeted emptyStorage) in
  (blank "   " = true <-> final o = greeted emptyStorage) /\
  (blank "   " = true -> sent o = []).
Proof.
  apply (blank_input_is_ignored offline "   " 1700000000123 1700000000456
           (greeted emptyStorage)).
  reflexivity.
Defined.

(** X7.  Whatever the configuration and the network do, a submission of
    a text that is not blank appends the question to the transcript, and
    after it at most one entry: the reply, which is never falsy, and
    which is there only when one request was sent.  No submission sends
    more than one request. *)
Theorem submission_appends_question_then_reply
    (e : env) (input : string) (userTs assistantTs : Z) (p : page) :
  trim input <> EmptyString ->
  let o := onSubmit e input userTs assistantTs p in
  (length (sent o) <= 1)%nat /\
  exists rest,
    messages (final o) =
      (messages p ++ userMessage (trim input) userTs :: rest)%list /\
    (rest = [] \/
     exists r req,
       rest = [assistantMessage r assistantTs] /\ truthy r = true /\
       sent o = [req]).
Proof.
  intros Htext. destruct (trim input) as [|c t] eqn:Ht; [done|].
  destruct (onSubmit_shape e input userTs assistantTs p c t Ht)
    as [Hlen [(n & _ & _ & Hm & _) | (req & res & data & Hs & _ & _ & _ & _ & Hm & _)]];
    cbn zeta; (split; [exact Hlen|]).
  - exists []. split; [exact Hm|by left].
  - exists [assistantMessage (reply data) assistantTs]. split; [exact Hm|].
    right. exists (reply data), req. split; [done|].
    split; [apply reply_truthy|exact Hs].
Qed.

Lemma submission_appends_question_then_reply_witness :
  let o := onSubmit offline " Hi " 1700000000123 1700000000456
             (freshPage emptyStorage) in
  (length (sent o) <= 1)%nat /\
  exists rest,
    messages (final o) =
      (messages (freshPage emptyStorage) ++
       userMessage (trim " Hi ") 1700000000123 :: rest)%list /\
    (rest = [] \/
     exists r req,
       rest = [assistantMessage r 1700000000456] /\ truthy r = true /\
       sent o = [req]).
Proof.
  apply (submission_appends_question_then_reply offline " Hi "
           1700000000123 1700000000456 (freshPage emptyStorage)).
  discriminate.
Defined.

(** X8.  What the chat window holds after a submission of a text that is
    not blank, however the submission ends: the nodes it held before,
    less the first latest-question line, then the bubble of the question,
    the latest-question line of the question, and one assistant bubble
    that is not loading (the reply, the error or the configuration
    message). *)
Theorem submission_settles_the_window
    (e : env) (input : string) (userTs assistantTs : Z) (p : page) :
  trim input <> EmptyString ->
  exists text time,
    chatWindow (final (onSubmit e input userTs assistantTs p)) =
      (remove_first is_latest_question (chatWindow p) ++
       [UserBubble (Str (trim input)) (shown (Num userTs));
        LatestQuestion (Str (trim input));
        AssistantBubble text false time])%list.
Proof.
  intros Htext. destruct (trim input) as [|c t] eqn:Ht; [done|].
  destruct (onSubmit_shape e input userTs assistantTs p c t Ht)
    as [_ [(n & Hn & Hw & _) | (req & res & data & _ & _ & _ & _ & Hw & _)]];
    rewrite Hw, <- app_assoc; cbn [app].
  - destruct Hn as [[-> _] | [err ->]]; by eexists _, _.
  - by eexists _, _.
Qed.

Lemma submission_settles_the_window_witness :
  exists text time,
    chatWindow (final (onSubmit offline " Hi " 1700000000123 1700000000456
                         (greeted emptyStorage))) =
      (remove_first is_latest_question (chatWindow (greeted emptyStorage)) ++
       [UserBubble (Str (trim " Hi ")) (shown (Num 1700000000123));
        LatestQuestion (Str (trim " Hi "));
        AssistantBubble text false time])%list.
Proof.
  apply (submission_settles_the_window offline " Hi "
           1700000000123 1700000000456 (greeted emptyStorage)).
  discriminate.
Defined.

(** X9.  When the request of a configured submission is rejected by the
    network, or answered with a success status and a body that is no
    JSON, the one request was sent, the bubble shows [Error: ] and the
    message of what was thrown ([Request failed] for an empty message),
    the transcript has grown by the question only, and the storage is
    what saving the question left. *)
Theorem failed_request_shows_error
    (e : env) (input : string) (userTs assistantTs : Z) (p : page) (err : string) :
  trim input <> EmptyString ->
  Forall readable (messages p) ->
  configured e = true ->
  fails e err ->
  let o := onSubmit e input userTs assistantTs p in
  sent o = [requestOf e (messages p ++ [userMessage (trim input) userTs])%list] /\
  messages (final o) = (messages p ++ [userMessage (trim input) userTs])%list /\
  storage (final o) =
    storage (saveHistory (push (userMessage (trim input) userTs) p)) /\
  last (chatWindow (final o)) = Some (errorBubble err).
Proof.
  intros Htext Hread Hconf Hfails o. subst o.
  destruct (trim input) as [|c t] eqn:Ht; [done|].
  rewrite (onSubmit_unfold _ _ _ _ _ c t Ht). cbn zeta.
  rewrite attempt_configured by (by apply asked_readable || done).
  cbn [fst snd final sent]. rewrite asked_messages. split; [done|].
  destruct (asked_chatWindow (String c t) userTs p) as (w & Hw & Hi).
  destruct (setBubble_last (loadingIndex (String c t) userTs p)
              (errorBubble err) (asked (String c t) userTs p) w _ Hw Hi)
    as (Hcw & Hms & Hst).
  assert (Hthrow :
    bind (fetch e (requestOf e (messages p ++ [userMessage (String c t) userTs])%list))
      (fun res =>
         if negb (ok res) then
           Throw (serviceName e +:+ " error: " +:+
                  JSON.number_to_string (status res) +:+ " " +:+ statusText res)
         else bind (json res) (fun data =>
                Ok (showReply (reply data) assistantTs
                      (loadingIndex (String c t) userTs p)
                      (asked (String c t) userTs p)))) = Throw err).
  { destruct (Hfails (requestOf e (messages p ++ [userMessage (String c t) userTs])%list))
      as [-> | (res & -> & Hok & Hjson)]; [done|].
    cbn [bind]. by rewrite Hok, Hjson. }
  rewrite Hthrow. fold (errorBubble err).
  by rewrite Hcw, Hms, Hst, asked_messages, asked_storage, last_snoc.
Qed.

Lemma failed_request_shows_error_witness :
  let o := onSubmit offline " Hi " 1700000000123 1700000000456
             (freshPage emptyStorage) in
  sent o =
    [requestOf offline
       (messages (freshPage emptyStorage) ++
        [userMessage (trim " Hi ") 1700000000123])%list] /\
  messages (final o) =
    (messages (freshPage emptyStorage) ++
     [userMessage (trim " Hi ") 1700000000123])%list /\
  storage (final o) =
    storage (saveHistory (push (userMessage (trim " Hi ") 1700000000123)
                            (freshPage emptyStorage))) /\
  last (chatWindow (final o)) = Some (errorBubble "Failed to fetch").
Proof.
  apply (failed_request_shows_error offline " Hi " 1700000000123 1700000000456
           (freshPage emptyStorage) "Failed to fetch").
  - discriminate.
  - repeat constructor; discriminate.
  - reflexivity.
  - intros req. by left.
Defined.

Lemma attempt_sent_relay e assistantTs i p :
  relay_configured e = true ->
  forall req, req ∈ (attempt e assistantTs i p).1 ->
              url req = WORKER_URL e /\ bearer req = None.
Proof.
  intros Hrelay req. unfold attempt. rewrite Hrelay.
  destruct (apiMessages (messages p)) as [api|]; cbn [fst].
  - by intros ->%list_elem_of_singleton.
  - by intros ?%elem_of_nil.
Qed.

(** X10.  The relay takes precedence: when a worker URL is configured, a
    submission sends its one request to that URL, without an
    Authorization header, whether or not an API key is configured as
    well; the key does not leave the page. *)
Theorem relay_takes_precedence
    (e : env) (input : string) (userTs assistantTs : Z) (p : page) :
  relay_configured e = true ->
  let o := onSubmit e input userTs assistantTs p in
  (forall req, req ∈ sent o -> url req = WORKER_URL e /\ bearer req = None) /\
  (trim input <> EmptyString -> Forall readable (messages p) ->
   sent o = [relayRequest e (messages p ++ [userMessage (trim input) userTs])%list]).
Proof.
  intros Hrelay o. subst o.
  destruct (trim input) as [|c t] eqn:Ht.
  { unfold onSubmit. rewrite Ht. cbn [sent]. split; [|done].
    by intros req ?%elem_of_nil. }
  rewrite (onSubmit_unfold _ _ _ _ _ c t Ht). cbn zeta. cbn [sent]. split.
  - by apply attempt_sent_relay.
  - intros _ Hread.
    rewrite attempt_configured;
      [|by apply asked_readable|unfold configured; by rewrite Hrelay].
    cbn [fst]. unfold requestOf. by rewrite Hrelay, asked_messages.
Qed.

Lemma relay_takes_precedence_witness :
  let o := onSubmit offline " Hi " 1700000000123 1700000000456
             (freshPage emptyStorage) in
  (forall req, req ∈ sent o ->
     url req = WORKER_URL offline /\ bearer req = None) /\
  (trim " Hi " <> EmptyString ->
   Forall readable (messages (freshPage emptyStorage)) ->
   sent o =
     [relayRequest offline
        (messages (freshPage emptyStorage) ++
         [userMessage (trim " Hi ") 1700000000123])%list]).
Proof.
  apply (relay_takes_precedence offline " Hi " 1700000000123 1700000000456
           (freshPage emptyStorage)).
  reflexivity.
Defined.

(** ** A submission, then a new session *)

Lemma chat_role_readable m : chat_role m = true -> readable m.
Proof. by destruct m. Qed.

Lemma filter_chat_entries rest :
  Forall chat_entry rest -> List.filter chat_role rest = rest.
Proof.
  induction 1 as [|m rest [Hm _] _ IH]; [done|].
  cbn [List.filter]. by rewrite Hm, IH.
Qed.

Lemma chat_entries_json rest :
  Forall chat_entry rest -> forallb JSON.is_json rest = true.
Proof.
  induction 1 as [|m rest [_ Hm] _ IH]; [done|]. cbn [forallb]. by rewrite Hm, IH.
Qed.

Lemma chat_entries_readable rest : Forall chat_entry rest -> Forall readable rest.
Proof.
  intros H. eapply Forall_impl; [exact H|].
  intros m [Hm _]. by apply chat_role_readable.
Qed.

(** Saving a transcript of chat entries, then loading the page. *)
Lemma init_after_save q rest :
  messages q = systemMessage :: rest ->
  rest <> [] ->
  Forall chat_entry rest ->
  unlimited (storage q) ->
  exists r, init (storage (saveHistory q)) = Ok r /\ messages r = messages q.
Proof.
  intros Hq Hne Hrest Hst.
  assert (Hf : filter_chat (messages q) = Ok rest).
  { rewrite filter_chat_readable.
    - rewrite Hq. cbn [List.filter].
      change (chat_role systemMessage) with false.
      by rewrite filter_chat_entries.
    - rewrite Hq. constructor; [apply systemMessage_readable|].
      by apply chat_entries_readable. }
  destruct (saveHistory_accepted q rest Hf) as (_ & _ & _ & Hget); [apply Hst|].
  destruct (init_saved (storage (saveHistory q)) rest Hne
              (chat_entries_json rest Hrest) (chat_entries_readable rest Hrest) Hget)
    as (r & Hr & Hmr & _).
  exists r. split; [exact Hr|congruence].
Qed.

Lemma userMessage_entry text ts : chat_entry (userMessage text ts).
Proof. by split. Qed.

Lemma assistantMessage_entry r ts :
  JSON.is_json r = true -> chat_entry (assistantMessage r ts).
Proof. intros Hr. split; [done|]. cbn. by rewrite Hr. Qed.

(** X11.  A reload restores the transcript of a submission, however the
    submission ended.  On a transcript that is the system message and
    then entries of role ['user'] or ['assistant'], over a storage that
    accepts every write and a network whose bodies are JSON, the session
    that starts on the storage left by a submission has the transcript
    that the submission left: with the question, and with the reply when
    there was one. *)
Theorem submission_survives_reload
    (e : env) (input : string) (userTs assistantTs : Z) (p : page)
    (rest : list value) :
  trim input <> EmptyString ->
  messages p = systemMessage :: rest ->
  Forall chat_entry rest ->
  unlimited (storage p) ->
  delivers_json e ->
  let o := onSubmit e input userTs assistantTs p in
  exists r, init (storage (final o)) = Ok r /\ messages r = messages (final o).
Proof.
  intros Htext Hp Hrest Hst Hjson o. subst o.
  destruct (trim input) as [|c t] eqn:Ht; [done|].
  set (um := userMessage (String c t) userTs).
  assert (Hsaved : unlimited (storage (saveHistory (push um p)))).
  { intros items key text. rewrite saveHistory_quota. apply Hst. }
  destruct (onSubmit_shape e input userTs assistantTs p c t Ht)
    as [_ [(n & _ & _ & Hm & Hs) |
           (req & res & data & _ & Hf & _ & Hj & _ & Hm & Hs)]];
    fold um in Hm, Hs; rewrite Hs, Hm.
  - destruct (init_after_save (push um p) (rest ++ [um])%list)
      as (r & Hr & Hmr); [by cbn; rewrite Hp|by destruct rest| |done|].
    { apply Forall_app. split; [done|]. repeat constructor. }
    exists r. split; [exact Hr|]. by rewrite Hmr.
  - set (am := assistantMessage (reply data) assistantTs).
    destruct (init_after_save (push am (saveHistory (push um p)))
                (rest ++ [um; am])%list)
      as (r & Hr & Hmr).
    + cbn [push with_messages messages]. rewrite saveHistory_messages.
      cbn [push with_messages messages]. by rewrite Hp, <- app_assoc.
    + by destruct rest.
    + apply Forall_app. split; [done|].
      repeat constructor. apply assistantMessage_entry, reply_json.
      by eapply Hjson.
    + exact Hsaved.
    + exists r. split; [exact Hr|]. rewrite Hmr.
      cbn [push with_messages messages]. rewrite saveHistory_messages.
      cbn [push with_messages messages]. by rewrite <- app_assoc.
Qed.

Lemma submission_survives_reload_witness :
  let o := onSubmit (relayAnswering (bodyWith (Str "Use X"))) " Hi "
             1700000000123 1700000000456 (freshPage emptyStorage) in
  exists r, init (storage (final o)) = Ok r /\ messages r = messages (final o).
Proof.
  apply (submission_survives_reload (relayAnswering (bodyWith (Str "Use X")))
           " Hi " 1700000000123 1700000000456 (freshPage emptyStorage) []).
  - discriminate.
  - reflexivity.
  - constructor.
  - intros items key text. reflexivity.
  - intros req res data [= <-] [= <-]. reflexivity.
Defined.

(** ** The pages that the script reaches *)

Lemma init_system_first st p :
  init st = Ok p -> exists rest, messages p = systemMessage :: rest.
Proof.
  unfold init. destruct (loadHistory st) as [[[|m ms]|] st'].
  - intros [= <-]. by exists [].
  - intros H. apply forEach_restored_inv in H as [_ ->]. by eexists.
  - intros [= <-]. by exists [].
Qed.

Lemma onSubmit_messages_grow e input userTs assistantTs p :
  exists more,
    messages (final (onSubmit e input userTs assistantTs p)) =
    (messages p ++ more)%list.
Proof.
  destruct (trim input) as [|c t] eqn:Ht.
  - exists []. unfold onSubmit. rewrite Ht. cbn. by rewrite app_nil_r.
  - destruct (onSubmit_shape e input userTs assistantTs p c t Ht)
      as [_ [(n & _ & _ & Hm & _) |
             (req & res & data & _ & _ & _ & _ & _ & Hm & _)]];
      rewrite Hm; by eexists.
Qed.

(** X12.  On every page that the script reaches, the transcript starts
    with the system message and every entry has properties to read; so
    building the messages of a request never throws, and the first
    message of every request is the system prompt. *)
Theorem reachable_transcript_starts_with_system_prompt (p : page) :
  reachable p ->
  (exists rest, messages p = systemMessage :: rest) /\
  Forall readable (messages p) /\
  exists api,
    apiMessages (messages p) =
      Ok (Obj [("role", Str "system"); ("content", Str systemPrompt)] :: api).
Proof.
  intros Hp.
  assert (H : (exists rest, messages p = systemMessage :: rest) /\
              Forall readable (messages p)).
  { induction Hp as [st p Hinit|e input userTs assistantTs p _ [[rest IH] IHr]|
                     p _ _|st p _ IH].
    - split; [by eapply init_system_first|by eapply init_readable].
    - split; [|by apply onSubmit_readable].
      destruct (onSubmit_messages_grow e input userTs assistantTs p) as [more ->].
      rewrite IH. by eexists.
    - split; [by exists []|apply clearHistory_readable].
    - exact IH. }
  destruct H as [[rest Hrest] Hread]. split; [by exists rest|]. split; [done|].
  rewrite apiMessages_readable by done. rewrite Hrest. by eexists.
Qed.

Lemma reachable_transcript_starts_with_system_prompt_witness :
  (exists rest, messages (greeted emptyStorage) = systemMessage :: rest) /\
  Forall readable (messages (greeted emptyStorage)) /\
  exists api,
    apiMessages (messages (greeted emptyStorage)) =
      Ok (Obj [("role", Str "system"); ("content", Str systemPrompt)] :: api).
Proof.
  apply (reachable_transcript_starts_with_system_prompt (greeted emptyStorage)).
  apply (reached_by_load emptyStorage). reflexivity.
Defined.

Lemma Forall_remove_first (P : node -> Prop) f w :
  Forall P w -> Forall P (remove_first f w).
Proof.
  induction 1 as [|n w Hn Hw IH]; [constructor|]. cbn [remove_first].
  destruct (f n); [done|by constructor].
Qed.

Lemma render_restored_settled m p p' :
  render_restored m p = Ok p' -> settled (chatWindow p) -> settled (chatWindow p').
Proof.
  intros Hr [Hload Hone].
  pose proof (render_restored_inv m p p' Hr) as [Hm _].
  destruct (render_restored_window m p Hm Hone) as (p1 & Hr1 & _ & Hl).
  rewrite Hr in Hr1. injection Hr1 as <-. split.
  - revert Hr. unfold render_restored.
    rewrite !get_prop_opt_prop by done. cbn [bind].
    destruct (is_str _ "user"); [|destruct (is_str _ "assistant")];
      intros [= <-]; cbn [updateLatestQuestionDisplay appendUserBubble
                          appendAssistantBubble with_chatWindow chatWindow].
    + apply Forall_app. split; [|by repeat constructor].
      apply Forall_remove_first, Forall_app. split; [done|by repeat constructor].
    + apply Forall_app. split; [done|by repeat constructor].
    + done.
  - rewrite Hl. destruct (questionOf m); [cbn; lia|done].
Qed.

Lemma forEach_restored_settled ms p p' :
  forEach_restored ms p = Ok p' -> settled (chatWindow p) -> settled (chatWindow p').
Proof.
  revert p. induction ms as [|m ms IH]; intros p; cbn [forEach_restored].
  - by intros [= <-].
  - destruct (render_restored m p) as [p1|] eqn:H1; [|done]. cbn [bind].
    intros H2 Hp. eapply IH; [done|]. by eapply render_restored_settled.
Qed.

Lemma settled_greeting : settled [AssistantBubble (Str greeting) false None].
Proof. split; [by repeat constructor|cbn; lia]. Qed.

Lemma init_settled st p : init st = Ok p -> settled (chatWindow p).
Proof.
  unfold init. destruct (loadHistory st) as [[[|m ms]|] st'].
  - intros [= <-]. apply settled_greeting.
  - intros H. eapply forEach_restored_settled; [done|].
    split; [constructor|cbn; lia].
  - intros [= <-]. apply settled_greeting.
Qed.

Lemma onSubmit_settled e input userTs assistantTs p :
  settled (chatWindow p) ->
  settled (chatWindow (final (onSubmit e input userTs assistantTs p))).
Proof.
  intros [Hload Hone]. destruct (trim input) as [|c t] eqn:Ht.
  { unfold onSubmit. by rewrite Ht. }
  assert (Hw : exists n,
             loading n = false /\ is_latest_question n = false /\
             chatWindow (final (onSubmit e input userTs assistantTs p)) =
               ((remove_first is_latest_question (chatWindow p) ++
                 [UserBubble (Str (String c t)) (shown (Num userTs));
                  LatestQuestion (Str (String c t))]) ++ [n])%list).
  { destruct (onSubmit_shape e input userTs assistantTs p c t Ht)
      as [_ [(n & Hn & Hw & _) | (req & res & data & _ & _ & _ & _ & Hw & _)]].
    - exists n. split; [|split; [|exact Hw]];
        by destruct Hn as [[-> _] | [err ->]].
    - exists (replyBubble (reply data) assistantTs). by repeat split. }
  destruct Hw as (n & Hn & Hq & ->). split.
  - apply Forall_app. split; [|by repeat constructor].
    apply Forall_app. split; [by apply Forall_remove_first|by repeat constructor].
  - rewrite !latestQuestions_app, latestQuestions_remove_first by done.
    cbn. rewrite Hq. cbn. lia.
Qed.

(** X13.  On every page that the script reaches, the chat window shows
    no loading bubble, and one latest-question line at most: the
    [Thinking...] bubble of a submission is replaced before the
    submission ends, whichever way it ends. *)
Theorem reachable_window_is_settled (p : page) :
  reachable p ->
  Forall (fun n => loading n = false) (chatWindow p) /\
  (length (latestQuestions (chatWindow p)) <= 1)%nat.
Proof.
  intros Hp. change (settled (chatWindow p)).
  induction Hp as [st p Hinit|e input userTs assistantTs p _ IH|p _ _|st p _ IH].
  - by eapply init_settled.
  - by apply onSubmit_settled.
  - apply settled_greeting.
  - exact IH.
Qed.

Lemma reachable_window_is_settled_witness :
  let p := final (onSubmit offline " Hi " 1700000000123 1700000000456
                    (greeted emptyStorage)) in
  Forall (fun n => loading n = false) (chatWindow p) /\
  (length (latestQuestions (chatWindow p)) <= 1)%nat.
Proof.
  apply (reachable_window_is_settled
           (final (onSubmit offline " Hi " 1700000000123 1700000000456
                     (greeted emptyStorage)))).
  apply reached_by_submit. apply (reached_by_load emptyStorage). reflexivity.
Defined.

(** ** Colour math, further *)

(** Case analysis on a character that is a hexadecimal digit. *)
Ltac each_hex_char c d H :=
  let Hd := fresh "Hd" in
  destruct H as [H Hd];
  destruct c as [[] [] [] [] [] [] [] []];
  match type of H with
  | hex_value ?c' = _ =>
      let v := eval vm_compute in (hex_value c') in
      change (hex_value c') with v in H
  end;
  try discriminate H;
  injection H as H;
  apply (f_equal Z.of_N) in H; rewrite Z2N.id in H by lia;
  subst d; clear Hd.

Lemma hex_char_not_space c d : hex_char c d -> is_space c = false.
Proof. intros H. each_hex_char c d H; reflexivity. Qed.

Lemma hex_char_twice c d :
  hex_char c d -> parseInt16 (twice c) = Some (17 * d)%Z.
Proof. intros H. each_hex_char c d H; reflexivity. Qed.

Lemma hex_char_no_sign c d s :
  hex_char c d ->
  strip_prefix "-" (String c s) = None /\ strip_prefix "+" (String c s) = None.
Proof. intros H. each_hex_char c d H; split; reflexivity. Qed.

Lemma hex_char_no_0x c0 c d s :
  hex_char c d ->
  strip_prefix "0x" (String c0 (String c s)) = None /\
  strip_prefix "0X" (String c0 (String c s)) = None.
Proof.
  intros H.
  each_hex_char c d H; cbn [strip_prefix];
    destruct (Ascii.eqb "0"%char c0); split; reflexivity.
Qed.

Lemma hex_run_char acc c d s :
  hex_char c d ->
  hex_run acc (String c s) = hex_run (Some (16 * default 0 acc + d)%Z) s.
Proof.
  intros [H Hd]. cbn [hex_run]. rewrite H. by rewrite Z2N.id by lia.
Qed.

Lemma digit16_hex_char n : nibble n -> hex_char (digit16 n) n.
Proof. intros Hn. split; [by apply digit16_value|exact Hn]. Qed.

(** Six hexadecimal digits, in either case, are read as three bytes. *)
Lemma hexToRgb_six_chars c1 c2 c3 c4 c5 c6 d1 d2 d3 d4 d5 d6 :
  hex_char c1 d1 -> hex_char c2 d2 -> hex_char c3 d3 ->
  hex_char c4 d4 -> hex_char c5 d5 -> hex_char c6 d6 ->
  hexToRgb (six c1 c2 c3 c4 c5 c6) =
  (Some (d1 * 16 + d2)%Z, Some (d3 * 16 + d4)%Z, Some (d5 * 16 + d6)%Z).
Proof.
  intros H1 H2 H3 H4 H5 H6. unfold hexToRgb, six.
  change (remove_hash (String "#" ?s)) with s.
  set (h := String c1 _).
  assert (Hts : trim_start h = h).
  { subst h. cbn [trim_start]. by rewrite (hex_char_not_space c1 d1). }
  assert (Hte : trim_end h = h).
  { subst h.
    repeat (apply trim_end_keeps; [by eapply hex_char_not_space|]).
    reflexivity. }
  assert (Hh : trim h = h) by (unfold trim; by rewrite Hts, Hte).
  rewrite Hh.
  assert (Hp : parseInt16 h =
               Some (((((d1 * 16 + d2) * 16 + d3) * 16 + d4) * 16 + d5) * 16 + d6)%Z).
  { unfold parseInt16. rewrite Hts. subst h.
    destruct (hex_char_no_sign c1 d1
                (String c2 (String c3 (String c4 (String c5
                   (String c6 EmptyString))))) H1) as [-> ->].
    destruct (hex_char_no_0x c1 c2 d2
                (String c3 (String c4 (String c5 (String c6 EmptyString)))) H2)
      as [-> ->].
    rewrite (hex_run_char _ c1 d1), (hex_run_char _ c2 d2),
      (hex_run_char _ c3 d3), (hex_run_char _ c4 d4),
      (hex_run_char _ c5 d5), (hex_run_char _ c6 d6) by done.
    cbn [hex_run default from_option mbind option_bind]. unfold Datatypes.id.
    f_equal. lia. }
  rewrite Hp. subst h. cbn beta iota.
  destruct H1 as [_ H1], H2 as [_ H2], H3 as [_ H3], H4 as [_ H4],
    H5 as [_ H5], H6 as [_ H6].
  unfold byte_at, toInt32.
  change (Z.land ?x 255) with (Z.land x (Z.ones 8)).
  rewrite !Z.land_ones, !Z.shiftr_div_pow2 by lia.
  set (X := (((((d1 * 16 + d2) * 16 + d3) * 16 + d4) * 16 + d5) * 16 + d6)%Z).
  assert (HX : (0 <= X < 2 ^ 24)%Z) by (subst X; lia).
  rewrite (Z.mod_small (X + 2 ^ 31) (2 ^ 32)) by lia.
  replace (X + 2 ^ 31 - 2 ^ 31)%Z with X by lia.
  change (2 ^ 16)%Z with 65536%Z. change (2 ^ 8)%Z with 256%Z.
  change (2 ^ 0)%Z with 1%Z.
  repeat f_equal; subst X; clear HX Hp Hh Hte Hts;
    Z.div_mod_to_equations; lia.
Qed.

(** Three hexadecimal digits are read one by one, each twice. *)
Lemma hexToRgb_three_chars c1 c2 c3 d1 d2 d3 :
  hex_char c1 d1 -> hex_char c2 d2 -> hex_char c3 d3 ->
  hexToRgb (three c1 c2 c3) = (Some (17 * d1)%Z, Some (17 * d2)%Z, Some (17 * d3)%Z).
Proof.
  intros H1 H2 H3. unfold hexToRgb, three.
  change (remove_hash (String "#" ?s)) with s.
  set (h := String c1 _).
  assert (Hh : trim h = h).
  { unfold trim. subst h. cbn [trim_start].
    rewrite (hex_char_not_space c1 d1) by done.
    repeat (apply trim_end_keeps; [by eapply hex_char_not_space|]).
    reflexivity. }
  rewrite Hh. subst h. cbn beta iota.
  by rewrite (hex_char_twice c1 d1), (hex_char_twice c2 d2),
    (hex_char_twice c3 d3).
Qed.

(** X14.  The short form of a colour stands for the long form with every
    digit doubled: for hexadecimal digits in either case, [#abc] is read
    as [#aabbcc], each channel seventeen times the value of its digit. *)
Theorem hexToRgb_shorthand_doubles_digits (c1 c2 c3 : ascii) (d1 d2 d3 : Z) :
  hex_char c1 d1 -> hex_char c2 d2 -> hex_char c3 d3 ->
  hexToRgb (three c1 c2 c3) = hexToRgb (six c1 c1 c2 c2 c3 c3) /\
  hexToRgb (three c1 c2 c3) = (Some (17 * d1)%Z, Some (17 * d2)%Z, Some (17 * d3)%Z).
Proof.
  intros H1 H2 H3.
  rewrite (hexToRgb_three_chars c1 c2 c3 d1 d2 d3) by done.
  rewrite (hexToRgb_six_chars c1 c1 c2 c2 c3 c3 d1 d1 d2 d2 d3 d3) by done.
  split; [|done]. repeat f_equal; lia.
Qed.

Lemma hexToRgb_shorthand_doubles_digits_witness :
  hexToRgb (three "F" "a" "0") = hexToRgb (six "F" "F" "a" "a" "0" "0") /\
  hexToRgb (three "F" "a" "0") =
    (Some (17 * 15)%Z, Some (17 * 10)%Z, Some (17 * 0)%Z).
Proof.
  apply (hexToRgb_shorthand_doubles_digits "F" "a" "0" 15 10 0);
    (split; [reflexivity|lia]).
Defined.

Lemma hex2_digits d1 d2 :
  nibble d1 -> nibble d2 ->
  hex2 (Some (d1 * 16 + d2)%Z) = String (digit16 d1) (String (digit16 d2) EmptyString).
Proof.
  intros H1 H2. unfold nibble in *. rewrite hex2_byte by lia.
  replace ((d1 * 16 + d2) / 16)%Z with d1 by (Z.div_mod_to_equations; lia).
  replace ((d1 * 16 + d2) mod 16)%Z with d2 by (Z.div_mod_to_equations; lia).
  done.
Qed.

(** X15.  Writing a colour and reading it back: three bytes written by
    [rgbToHex] are read back by [hexToRgb] as the same bytes; and six
    hexadecimal digits read by [hexToRgb] are written back by [rgbToHex]
    as the same digits in lower case. *)
Theorem hex_colour_round_trips
    (r g b : Z) (c1 c2 c3 c4 c5 c6 : ascii) (d1 d2 d3 d4 d5 d6 : Z) :
  (0 <= r <= 255)%Z -> (0 <= g <= 255)%Z -> (0 <= b <= 255)%Z ->
  hex_char c1 d1 -> hex_char c2 d2 -> hex_char c3 d3 ->
  hex_char c4 d4 -> hex_char c5 d5 -> hex_char c6 d6 ->
  hexToRgb (rgbToHex (Some r, Some g, Some b)) = (Some r, Some g, Some b) /\
  rgbToHex (hexToRgb (six c1 c2 c3 c4 c5 c6)) =
    six (digit16 d1) (digit16 d2) (digit16 d3) (digit16 d4) (digit16 d5) (digit16 d6).
Proof.
  intros Hr Hg Hb H1 H2 H3 H4 H5 H6.
  split; [by apply hexToRgb_rgbToHex|].
  rewrite (hexToRgb_six_chars c1 c2 c3 c4 c5 c6 d1 d2 d3 d4 d5 d6) by done.
  unfold rgbToHex. rewrite !hex2_digits by (by eapply proj2).
  reflexivity.
Qed.

Lemma hex_colour_round_trips_witness :
  hexToRgb (rgbToHex (Some 227%Z, Some 165%Z, Some 53%Z)) =
    (Some 227%Z, Some 165%Z, Some 53%Z) /\
  rgbToHex (hexToRgb (six "E" "3" "A" "5" "3" "5")) =
    six (digit16 14) (digit16 3) (digit16 10) (digit16 5) (digit16 3) (digit16 5).
Proof.
  apply (hex_colour_round_trips 227 165 53 "E" "3" "A" "5" "3" "5" 14 3 10 5 3 5);
    solve [lia | split; [reflexivity|lia]].
Defined.

(** A string that is not three characters long, once the [#] is
    removed and the ends are trimmed, gives three numbers. *)
Lemma hexToRgb_other_lengths hex :
  String.length (trim (remove_hash hex)) <> 3%nat -> numeric (hexToRgb hex).
Proof.
  unfold hexToRgb, numeric.
  destruct (trim (remove_hash hex)) as [|c0 [|c1 [|c2 [|c3 h]]]];
    try (intros _; repeat split; by eexists).
  intros H. by destruct H.
Qed.

(** X16.  Whatever the string, the channels that [hexToRgb] gives are
    bytes or [NaN], never another number; and for a string of ASCII
    characters [NaN] comes up only when the string has three characters
    (after the [#] is removed and the ends are trimmed): every other
    string gives three numbers, zero where no digit is found. *)
Theorem hexToRgb_gives_bytes (hex : string) :
  let '(r, g, b) := hexToRgb hex in
  (is_byte r /\ is_byte g /\ is_byte b) /\
  (ascii_only hex = true ->
   String.length (trim (remove_hash hex)) <> 3%nat ->
   is_Some r /\ is_Some g /\ is_Some b) /\
  (ascii_only hex = true ->
   String.length (trim (remove_hash hex)) <> 3%nat ->
   parseInt16 (trim (remove_hash hex)) = None ->
   (r, g, b) = (Some 0%Z, Some 0%Z, Some 0%Z)).
Proof.
  pose proof (hexToRgb_range hex) as Hrange. unfold hexToRgb in *.
  destruct (trim (remove_hash hex)) as [|c0 [|c1 [|c2 [|c3 h]]]];
    (split; [exact Hrange|]);
    try (split; [intros _ _; repeat split; by eexists|by intros _ _ ->]).
  split; intros _ H; by destruct H.
Qed.

Lemma Qfloor_between (x : Q) (z : Z) :
  (inject_Z z <= x)%Q -> (x < inject_Z (z + 1))%Q -> Qfloor x = z.
Proof.
  intros Hlo Hhi.
  pose proof (Qfloor_le x) as Hfl. pose proof (Qlt_floor x) as Hlt.
  assert (H1 : (inject_Z (Qfloor x) < inject_Z (z + 1))%Q)
    by (eapply Qle_lt_trans; eauto).
  assert (H2 : (inject_Z z < inject_Z (Qfloor x + 1))%Q)
    by (eapply Qle_lt_trans; eauto).
  rewrite <- Zlt_Qlt in H1, H2. lia.
Qed.

Lemma clamp_mix_0 (a b : Z) :
  (0 <= a <= 255)%Z -> clamp (mix (Some a) (Some b) 0) = Some a.
Proof.
  intros Ha. unfold clamp, mix, round. cbn [mbind option_bind].
  rewrite (Qfloor_between _ a).
  - f_equal. lia.
  - Lqa.lra.
  - rewrite inject_Z_plus. change (inject_Z 1) with 1%Q. Lqa.lra.
Qed.

Lemma clamp_mix_1 (a b : Z) :
  (0 <= b <= 255)%Z -> clamp (mix (Some a) (Some b) 1) = Some b.
Proof.
  intros Hb. unfold clamp, mix, round. cbn [mbind option_bind].
  rewrite (Qfloor_between _ b).
  - f_equal. lia.
  - Lqa.lra.
  - rewrite inject_Z_plus. change (inject_Z 1) with 1%Q. Lqa.lra.
Qed.

(** X17.  The ends of the interpolation, for colours without a [NaN]
    channel: at 0 [lerpColor] gives the first colour and at 1 the second,
    both as [rgbToHex] writes them.  In particular a full step toward
    black gives [#000000], and a step of 0 changes no channel. *)
Theorem lerpColor_endpoints (hexA hexB : string) :
  numeric (hexToRgb hexA) -> numeric (hexToRgb hexB) ->
  lerpColor hexA hexB 0 = rgbToHex (hexToRgb hexA) /\
  lerpColor hexA hexB 1 = rgbToHex (hexToRgb hexB) /\
  darkenTowardsBlack hexA 1 = "#000000" /\
  darkenTowardsBlack hexA 0 = rgbToHex (hexToRgb hexA).
Proof.
  intros HA HB. unfold darkenTowardsBlack, lerpColor.
  pose proof (hexToRgb_range hexA) as RA. pose proof (hexToRgb_range hexB) as RB.
  change (hexToRgb "#000000") with (Some 0%Z, Some 0%Z, Some 0%Z).
  destruct (hexToRgb hexA) as [[a0 a1] a2], (hexToRgb hexB) as [[b0 b1] b2].
  destruct HA as ([a0' ->] & [a1' ->] & [a2' ->]).
  destruct HB as ([b0' ->] & [b1' ->] & [b2' ->]).
  cbn [is_byte] in RA, RB. cbn beta iota.
  rewrite !clamp_mix_0, !clamp_mix_1 by lia. done.
Qed.

Lemma lerpColor_endpoints_witness :
  lerpColor "#E3A535" "#fff" 0 = rgbToHex (hexToRgb "#E3A535") /\
  lerpColor "#E3A535" "#fff" 1 = rgbToHex (hexToRgb "#fff") /\
  darkenTowardsBlack "#E3A535" 1 = "#000000" /\
  darkenTowardsBlack "#E3A535" 0 = rgbToHex (hexToRgb "#E3A535").
Proof.
  apply (lerpColor_endpoints "#E3A535" "#fff");
    (repeat split; by eexists).
Defined.

Lemma trim_six c1 c2 c3 c4 c5 c6 d1 d2 d3 d4 d5 d6 :
  hex_char c1 d1 -> hex_char c2 d2 -> hex_char c3 d3 ->
  hex_char c4 d4 -> hex_char c5 d5 -> hex_char c6 d6 ->
  trim (remove_hash (six c1 c2 c3 c4 c5 c6)) =
  String c1 (String c2 (String c3 (String c4 (String c5 (String c6 EmptyString))))).
Proof.
  intros H1 H2 H3 H4 H5 H6. unfold six.
  change (remove_hash (String "#" ?s)) with s.
  unfold trim. cbn [trim_start]. rewrite (hex_char_not_space c1 d1) by done.
  repeat (apply trim_end_keeps; [by eapply hex_char_not_space|]).
  reflexivity.
Qed.

Lemma is_hex_colour_six c1 c2 c3 c4 c5 c6 d1 d2 d3 d4 d5 d6 :
  hex_char c1 d1 -> hex_char c2 d2 -> hex_char c3 d3 ->
  hex_char c4 d4 -> hex_char c5 d5 -> hex_char c6 d6 ->
  is_hex_colour (six c1 c2 c3 c4 c5 c6) = true.
Proof.
  intros H1 H2 H3 H4 H5 H6. unfold is_hex_colour.
  rewrite (trim_six c1 c2 c3 c4 c5 c6 d1 d2 d3 d4 d5 d6) by done.
  cbn [all_hex String.length].
  destruct H1 as [-> _], H2 as [-> _], H3 as [-> _], H4 as [-> _],
    H5 as [-> _], H6 as [-> _].
  rewrite !bool_decide_eq_true_2 by (by eexists). reflexivity.
Qed.

Lemma rgbToHex_six r g b :
  (0 <= r <= 255)%Z -> (0 <= g <= 255)%Z -> (0 <= b <= 255)%Z ->
  rgbToHex (Some r, Some g, Some b) =
  six (digit16 (r / 16)) (digit16 (r mod 16)) (digit16 (g / 16))
      (digit16 (g mod 16)) (digit16 (b / 16)) (digit16 (b mod 16)).
Proof.
  intros Hr Hg Hb. unfold rgbToHex. by rewrite !hex2_byte by done.
Qed.

Lemma is_hex_colour_rgbToHex r g b :
  (0 <= r <= 255)%Z -> (0 <= g <= 255)%Z -> (0 <= b <= 255)%Z ->
  is_hex_colour (rgbToHex (Some r, Some g, Some b)) = true.
Proof.
  intros Hr Hg Hb. rewrite rgbToHex_six by done.
  eapply is_hex_colour_six; apply digit16_hex_char; unfold nibble;
    Z.div_mod_to_equations; lia.
Qed.

Lemma darker_range z t :
  (0 <= z <= 255)%Z -> (0 <= t)%Q -> (t <= 1)%Q -> (0 <= darker z t <= z)%Z.
Proof.
  intros Hz Ht0 Ht1. unfold darker.
  pose proof (round_toward_zero z t (proj1 Hz) Ht0 Ht1). lia.
Qed.

(** A step toward black on a colour without [NaN], channel by channel. *)
Lemma darkenTowardsBlack_numeric hex t r g b :
  hexToRgb hex = (Some r, Some g, Some b) ->
  darkenTowardsBlack hex t =
    rgbToHex (Some (darker r t), Some (darker g t), Some (darker b t)).
Proof.
  intros Hhex. unfold darkenTowardsBlack, lerpColor. rewrite Hhex.
  change (hexToRgb "#000000") with (Some 0%Z, Some 0%Z, Some 0%Z).
  reflexivity.
Qed.

(** X18.  A step toward black, by a fraction between 0 and 1, of a
    colour without a [NaN] channel gives a colour in the six-digit form,
    which reads back as the channels that were written; each of them is
    between 0 and the channel it comes from. *)
Theorem darkenTowardsBlack_darkens_each_channel
    (hex : string) (t : Q) (r g b : Z) :
  hexToRgb hex = (Some r, Some g, Some b) ->
  (0 <= t)%Q -> (t <= 1)%Q ->
  exists r' g' b',
    darkenTowardsBlack hex t = rgbToHex (Some r', Some g', Some b') /\
    hexToRgb (darkenTowardsBlack hex t) = (Some r', Some g', Some b') /\
    is_hex_colour (darkenTowardsBlack hex t) = true /\
    (0 <= r' <= r)%Z /\ (0 <= g' <= g)%Z /\ (0 <= b' <= b)%Z.
Proof.
  intros Hhex Ht0 Ht1.
  pose proof (hexToRgb_range hex) as Hrange. rewrite Hhex in Hrange.
  destruct Hrange as (Hr & Hg & Hb). cbn [is_byte] in Hr, Hg, Hb.
  pose proof (darker_range r t Hr Ht0 Ht1) as Hr'.
  pose proof (darker_range g t Hg Ht0 Ht1) as Hg'.
  pose proof (darker_range b t Hb Ht0 Ht1) as Hb'.
  exists (darker r t), (darker g t), (darker b t).
  rewrite (darkenTowardsBlack_numeric hex t r g b Hhex).
  split; [done|]. split; [apply hexToRgb_rgbToHex; lia|].
  split; [apply is_hex_colour_rgbToHex; lia|]. done.
Qed.

Lemma darkenTowardsBlack_darkens_each_channel_witness :
  exists r' g' b',
    darkenTowardsBlack "#E3A535" (6 # 100) = rgbToHex (Some r', Some g', Some b') /\
    hexToRgb (darkenTowardsBlack "#E3A535" (6 # 100)) = (Some r', Some g', Some b') /\
    is_hex_colour (darkenTowardsBlack "#E3A535" (6 # 100)) = true /\
    (0 <= r' <= 227)%Z /\ (0 <= g' <= 165)%Z /\ (0 <= b' <= 53)%Z.
Proof.
  apply (darkenTowardsBlack_darkens_each_channel "#E3A535" (6 # 100) 227 165 53).
  - reflexivity.
  - done.
  - done.
Defined.

(** ** Contrast ratio, further *)

Local Open Scope R_scope.

Lemma gamma_range z : (0 <= z <= 255)%Z -> 0 <= gamma z <= 1.
Proof.
  intros Hz. split; [apply gamma_nonneg; lia|].
  rewrite <- gamma_255. apply gamma_mono. lia.
Qed.

Lemma luminance_range hex L : luminance hex = Real L -> 0 <= L <= 1.
Proof.
  unfold luminance. pose proof (hexToRgb_range hex) as Hrange.
  destruct (hexToRgb hex) as [[[r|] [g|]] [b|]]; try discriminate.
  destruct Hrange as (Hr & Hg & Hb). cbn [is_byte] in Hr, Hg, Hb.
  cbn. fold (gamma r) (gamma g) (gamma b). intros [= <-].
  pose proof (gamma_range r Hr). pose proof (gamma_range g Hg).
  pose proof (gamma_range b Hb). lra.
Qed.

Lemma ratioOf_comm la lb : ratioOf la lb = ratioOf lb la.
Proof.
  destruct la as [|x], lb as [|y]; try reflexivity.
  cbn. by rewrite Rmax_comm, Rmin_comm.
Qed.

Lemma ratioOf_range x y r :
  0 <= x <= 1 -> 0 <= y <= 1 -> ratioOf (Real x) (Real y) = Real r -> 1 <= r <= 21.
Proof.
  intros Hx Hy [= <-].
  set (M := Rmax x y). set (m := Rmin x y).
  assert (H : 0 <= m /\ m <= M /\ M <= 1).
  { subst M m. unfold Rmax, Rmin. destruct (Rle_dec x y); lra. }
  assert (Hb : 0 < m + 0.05) by lra.
  split.
  - apply Rmult_le_reg_l with (m + 0.05); [lra|].
    replace ((m + 0.05) * ((M + 0.05) / (m + 0.05))) with (M + 0.05)
      by (field; lra).
    lra.
  - apply Rmult_le_reg_l with (m + 0.05); [lra|].
    replace ((m + 0.05) * ((M + 0.05) / (m + 0.05))) with (M + 0.05)
      by (field; lra).
    lra.
Qed.

(** X19.  The contrast ratio does not depend on the order of its
    arguments; when it is a number, the number is between 1 and 21; and a
    colour against itself has ratio 1. *)
Theorem contrastRatio_symmetric_and_bounded (hexA hexB : value) :
  contrastRatio hexA hexB = contrastRatio hexB hexA /\
  (forall x, contrastRatio hexA hexB = Some (Real x) -> 1 <= x <= 21) /\
  (forall x, contrastRatio hexA hexA = Some (Real x) -> x = 1).
Proof.
  split; [|split].
  - destruct hexA as [| |ba|na|a|xa|fa], hexB as [| |bb|nb|b|xb|fb]; try reflexivity.
    by rewrite !contrastRatio_strings, ratioOf_comm.
  - intros x. destruct hexA as [| |ba|na|a|xa|fa], hexB as [| |bb|nb|b|xb|fb];
      try discriminate.
    rewrite contrastRatio_strings.
    destruct (luminance a) as [|la] eqn:Ha, (luminance b) as [|lb] eqn:Hb;
      try discriminate.
    intros [= H]. eapply ratioOf_range; [| |by rewrite <- H].
    + by eapply luminance_range.
    + by eapply luminance_range.
  - intros x. destruct hexA as [| |ba|na|a|xa|fa]; try discriminate.
    rewrite contrastRatio_strings.
    destruct (luminance a) as [|la] eqn:Ha; [discriminate|].
    pose proof (luminance_range a la Ha) as Hla.
    cbn [ratioOf]. intros [= <-].
    rewrite Rmax_left, Rmin_left by lra. field. lra.
Qed.

Local Close Scope R_scope.

(** ** The contrast corrector, further *)

Lemma trim_end_spaceless s : spaceless s = true -> trim_end s = s.
Proof.
  induction s as [|c s IH]; [done|]. cbn [spaceless].
  intros [Hc Hs]%andb_prop. apply negb_true_iff in Hc.
  by apply trim_end_keeps; [|apply IH].
Qed.

Lemma trim_spaceless s : spaceless s = true -> trim s = s.
Proof.
  intros Hs. unfold trim.
  assert (Hts : trim_start s = s).
  { destruct s as [|c s]; [done|]. cbn [spaceless] in Hs.
    apply andb_prop in Hs as [Hc _]. apply negb_true_iff in Hc.
    cbn [trim_start]. by rewrite Hc. }
  rewrite Hts. by apply trim_end_spaceless.
Qed.

Lemma spaceless_app a b :
  spaceless a = true -> spaceless b = true -> spaceless (a +:+ b) = true.
Proof.
  intros Ha Hb. induction a as [|c a IH]; [done|].
  cbn [spaceless String.append] in *.
  apply andb_prop in Ha as [-> Ha]. by rewrite IH.
Qed.

(** What [hex2] writes for a channel that is a byte or [NaN]. *)
Lemma hex2_shape c :
  is_byte c ->
  spaceless (hex2 c) = true /\ (2 <= String.length (hex2 c))%nat.
Proof.
  destruct c as [z|]; cbn [is_byte]; [|intros _; split; [reflexivity|cbn; lia]].
  intros Hz. rewrite hex2_byte by done. cbn [spaceless String.length].
  rewrite !digit16_not_space by (unfold nibble; Z.div_mod_to_equations; lia).
  split; [done|lia].
Qed.

(** What [rgbToHex] writes for such channels is read back as three
    numbers. *)
Lemma hexToRgb_rgbToHex_numeric r g b :
  is_byte r -> is_byte g -> is_byte b ->
  numeric (hexToRgb (rgbToHex (r, g, b))) /\
  spaceless (rgbToHex (r, g, b)) = true /\
  rgbToHex (r, g, b) <> EmptyString.
Proof.
  intros Hr Hg Hb.
  destruct (hex2_shape r Hr) as [Sr Lr], (hex2_shape g Hg) as [Sg Lg],
    (hex2_shape b Hb) as [Sb Lb].
  assert (Hs : spaceless (hex2 r +:+ hex2 g +:+ hex2 b) = true)
    by (by repeat apply spaceless_app).
  split; [|split; [unfold rgbToHex; cbn [String.append spaceless]; by rewrite Hs|done]].
  apply hexToRgb_other_lengths.
  unfold rgbToHex.
  change (remove_hash ("#" +:+ ?s)) with s.
  rewrite trim_spaceless by done. rewrite !JSONFacts.length_append. lia.
Qed.

Lemma darkenFrom_numeric k : forall n hex r g b,
  hexToRgb hex = (Some r, Some g, Some b) ->
  (0 <= r <= 255)%Z -> (0 <= g <= 255)%Z -> (0 <= b <= 255)%Z ->
  k <> 0%nat ->
  darkenFrom n k hex =
    rgbToHex (Some (darkerFrom n k r), Some (darkerFrom n k g),
              Some (darkerFrom n k b)).
Proof.
  induction k as [|k IH]; intros n hex r g b Hhex Hr Hg Hb Hk; [done|].
  cbn [darkenFrom darkerFrom].
  destruct (stepOf_range n) as [Ht0 Ht1].
  pose proof (darker_range r _ Hr Ht0 Ht1) as Hr'.
  pose proof (darker_range g _ Hg Ht0 Ht1) as Hg'.
  pose proof (darker_range b _ Hb Ht0 Ht1) as Hb'.
  rewrite (darkenTowardsBlack_numeric hex _ r g b Hhex).
  destruct k as [|k]; [reflexivity|].
  apply IH; [apply hexToRgb_rgbToHex; lia|lia|lia|lia|done].
Qed.

(** All 24 steps, and the last 23 of them, take every byte to 0. *)
Lemma darkerFrom_black z :
  (0 <= z <= 255)%Z -> darkerFrom 0 24 z = 0%Z /\ darkerFrom 1 23 z = 0%Z.
Proof.
  intros Hz.
  assert (Hall : forallb (fun n =>
            (darkerFrom 0 24 (Z.of_nat n) =? 0)%Z &&
            (darkerFrom 1 23 (Z.of_nat n) =? 0)%Z) (seq 0 256) = true)
    by (vm_compute; reflexivity).
  rewrite forallb_forall in Hall.
  specialize (Hall (Z.to_nat z)). rewrite Z2Nat.id in Hall by lia.
  destruct (andb_prop _ _ (Hall ltac:(apply in_seq; lia))) as [H1 H2].
  split; by apply Z.eqb_eq.
Qed.

Lemma darkenFrom_S n k hex :
  darkenFrom n (S k) hex = darkenFrom (S n) k (darkenTowardsBlack hex (stepOf n)).
Proof. reflexivity. Qed.

Lemma darkenFrom_black hex : darkenFrom 0 24 hex = "#000000".
Proof.
  pose proof (hexToRgb_range hex) as Hrange.
  destruct (hexToRgb hex) as [[r g] b] eqn:Hhex.
  destruct Hrange as (Hr & Hg & Hb).
  destruct (decide (is_Some r /\ is_Some g /\ is_Some b))
    as [([r' ->] & [g' ->] & [b' ->]) | Hnan].
  - cbn [is_byte] in Hr, Hg, Hb.
    rewrite (darkenFrom_numeric 24 0 hex r' g' b' Hhex Hr Hg Hb) by discriminate.
    destruct (darkerFrom_black r' Hr) as [-> _].
    destruct (darkerFrom_black g' Hg) as [-> _].
    destruct (darkerFrom_black b' Hb) as [-> _]. reflexivity.
  - rewrite (darkenFrom_S 0 23).
    unfold darkenTowardsBlack at 1. unfold lerpColor. rewrite Hhex.
    change (hexToRgb "#000000") with (Some 0%Z, Some 0%Z, Some 0%Z).
    cbn beta iota.
    set (r1 := clamp (mix r (Some 0%Z) (stepOf 0))).
    set (g1 := clamp (mix g (Some 0%Z) (stepOf 0))).
    set (b1 := clamp (mix b (Some 0%Z) (stepOf 0))).
    assert (Hclamp : forall c, is_byte (clamp (mix c (Some 0%Z) (stepOf 0)))).
    { intros [z|]; [|done]. unfold clamp, mix. cbn [mbind option_bind is_byte]. lia. }
    destruct (hexToRgb_rgbToHex_numeric r1 g1 b1) as [Hnum _];
      [apply Hclamp..|].
    pose proof (hexToRgb_range (rgbToHex (r1, g1, b1))) as Hrange1.
    destruct (hexToRgb (rgbToHex (r1, g1, b1))) as [[r2 g2] b2] eqn:Hhex1.
    destruct Hnum as ([r' ->] & [g' ->] & [b' ->]).
    destruct Hrange1 as (Hr1 & Hg1 & Hb1). cbn [is_byte] in Hr1, Hg1, Hb1.
    rewrite (darkenFrom_numeric 23 1 _ r' g' b' Hhex1 Hr1 Hg1 Hb1) by discriminate.
    destruct (darkerFrom_black r' Hr1) as [_ ->].
    destruct (darkerFrom_black g' Hg1) as [_ ->].
    destruct (darkerFrom_black b' Hb1) as [_ ->]. reflexivity.
Qed.

(** The states of the loop, by position: the state at position [k] has
    made [k] more passes than the first, its foreground is the first
    foreground after the [k] steps of these passes, and what every pass
    keeps holds of it. *)
Lemma whileLoop_lookup target fgVar bgVar bg (P : loopState -> Prop) :
  (forall a, P a -> P (loopBody fgVar bgVar bg a)) ->
  forall k s0 s,
    P s0 ->
    whileLoop target fgVar bgVar bg s0 !! k = Some s ->
    P s /\
    attempts s = (attempts s0 + k)%nat /\
    fg s = darkenFrom (attempts s0) k (fg s0).
Proof.
  intros Hstep. induction k as [|k IH]; intros s0 s Hs0;
    rewrite whileLoop_step; destruct (guard target s0); cbn.
  - intros [= <-]. split; [done|]. split; [lia|done].
  - intros [= <-]. split; [done|]. split; [lia|done].
  - intros Hk. destruct (IH (loopBody fgVar bgVar bg s0) s (Hstep s0 Hs0) Hk)
      as (HP & Ha & Hf).
    split; [done|]. split; [cbn in Ha; lia|exact Hf].
  - done.
Qed.

Lemma List_last_Some {A} (l : list A) d x : last l = Some x -> List.last l d = x.
Proof.
  induction l as [|a l IH]; [done|]. destruct l as [|b l].
  - by intros [= <-].
  - intros H. rewrite last_cons_cons in H. by apply IH.
Qed.

(** What a step toward black writes has no white space and is not
    empty. *)
Lemma darkenTowardsBlack_shape hex t :
  spaceless (darkenTowardsBlack hex t) = true /\
  darkenTowardsBlack hex t <> EmptyString.
Proof.
  unfold darkenTowardsBlack, lerpColor.
  destruct (hexToRgb hex) as [[r g] b].
  change (hexToRgb "#000000") with (Some 0%Z, Some 0%Z, Some 0%Z).
  cbn beta iota.
  assert (Hclamp : forall c, is_byte (clamp (mix c (Some 0%Z) t))).
  { intros [z|]; [|done]. unfold clamp, mix. cbn [mbind option_bind is_byte]. lia. }
  by destruct (hexToRgb_rgbToHex_numeric _ _ _ (Hclamp r) (Hclamp g) (Hclamp b))
    as (_ & ? & ?).
Qed.

Lemma loopBody_tracks fgVar bgVar bg wasChanged st a :
  tracks fgVar wasChanged st a -> tracks fgVar wasChanged st (loopBody fgVar bgVar bg a).
Proof.
  intros (Hsheet & Hother & _).
  destruct (darkenTowardsBlack_shape (fg a) (stepOf (attempts a))) as [Hsp Hne].
  unfold tracks, loopBody. cbn [css fg attempts changed].
  set (fg' := darkenTowardsBlack (fg a) (stepOf (attempts a))) in *.
  assert (Hset : setProperty (css a) fgVar fg' =
                 {| inline := <[fgVar := fg']> (inline (css a));
                    sheet := sheet (css a) |}).
  { unfold setProperty. by destruct fg'. }
  rewrite Hset. cbn [inline sheet]. split; [done|]. split.
  - intros name Hname. rewrite lookup_insert_ne by done. by apply Hother.
  - right. split; [lia|]. split; [done|]. split; [apply lookup_insert_eq|done].
Qed.

(** The loop of a pair, from its last state. *)
Lemma fixPair_final target fgVar bgVar wasChanged st :
  exists s_end,
    last (fixPair target fgVar bgVar wasChanged st) = Some s_end /\
    (forall d, final_state (fixPair target fgVar bgVar wasChanged st) d = s_end) /\
    (attempts s_end <= 24)%nat /\
    guard target s_end = false /\
    fg s_end =
      darkenFrom 0 (attempts s_end)
        (or_else (trim (getPropertyValue st fgVar)) "#222222") /\
    tracks fgVar wasChanged st s_end /\
    ((initialRatio st fgVar bgVar < target)%R -> (0 < attempts s_end)%nat).
Proof.
  unfold fixPair.
  set (fg0 := or_else (trim (getPropertyValue st fgVar)) "#222222").
  set (bg := or_else (trim (getPropertyValue st bgVar)) "#ffffff").
  set (s0 := {| fg := fg0; ratio := _; attempts := 0; changed := wasChanged;
                css := st |}).
  destruct (whileLoop_spec target fgVar bgVar bg 24 s0)
    as (s_end & Hlast & _ & Hlen & Hbound & Hdone & _); [cbn; lia|].
  exists s_end. split; [exact Hlast|].
  split; [intros d; by apply List_last_Some|].
  split; [apply Hbound; cbn; lia|]. split; [exact Hdone|].
  assert (Hk : whileLoop target fgVar bgVar bg s0 !! attempts s_end = Some s_end).
  { rewrite last_lookup, Hlen in Hlast. cbn in Hlast.
    by rewrite Nat.sub_0_r in Hlast. }
  destruct (whileLoop_lookup target fgVar bgVar bg (tracks fgVar wasChanged st)
              (loopBody_tracks fgVar bgVar bg wasChanged st)
              (attempts s_end) s0 s_end) as (Ht & _ & Hfg); [|exact Hk|].
  { split; [done|]. split; [done|]. by left. }
  split; [exact Hfg|]. split; [exact Ht|].
  intros Hlow. destruct (attempts s_end) as [|n] eqn:Hn; [|lia]. exfalso.
  rewrite whileLoop_step in Hk.
  assert (Hg : guard target s0 = true).
  { unfold guard. subst s0 fg0 bg. cbn [ratio attempts].
    fold (initialRatio st fgVar bgVar).
    by destruct (Rlt_dec (initialRatio st fgVar bgVar) target). }
  rewrite Hg in Hk. cbn in Hk. congruence.
Qed.

(** X20.  The loop of a pair ends in one of two ways: the contrast that
    it computed last meets the target, or it has made its 24 passes and
    the foreground is [#000000].  Twenty-four steps of the growing size
    take every colour, and every string, to black. *)
Theorem fixPair_ends_with_target_met_or_black
    (target : R) (fgVar bgVar : string) (wasChanged : bool) (st : style) :
  exists s_end,
    last (fixPair target fgVar bgVar wasChanged st) = Some s_end /\
    ((target <= ratio s_end)%R \/
     attempts s_end = 24%nat /\ fg s_end = "#000000").
Proof.
  destruct (fixPair_final target fgVar bgVar wasChanged st)
    as (s_end & Hlast & _ & Hle & Hdone & Hfg & _).
  exists s_end. split; [exact Hlast|].
  unfold guard in Hdone. apply andb_false_iff in Hdone as [Hr | Ha].
  - left. destruct (Rlt_dec (ratio s_end) target); [done|lra].
  - right. apply Nat.ltb_ge in Ha.
    assert (H24 : attempts s_end = 24%nat) by lia.
    split; [exact H24|]. rewrite Hfg, H24. apply darkenFrom_black.
Qed.

Lemma fixPair_met target fgVar bgVar wasChanged st d :
  (target <= initialRatio st fgVar bgVar)%R ->
  css (final_state (fixPair target fgVar bgVar wasChanged st) d) = st /\
  changed (final_state (fixPair target fgVar bgVar wasChanged st) d) = wasChanged.
Proof.
  intros Hmet. unfold fixPair. rewrite whileLoop_step.
  unfold guard. cbn [ratio attempts]. fold (initialRatio st fgVar bgVar).
  destruct (Rlt_dec (initialRatio st fgVar bgVar) target); [lra|]. done.
Qed.

(** X21.  When the two pairs meet the target already, the corrector
    changes nothing: the root style is the one it found, and nothing is
    written to the storage. *)
Theorem autoFixContrast_leaves_met_targets_alone
    (target : R) (st : style) (store : localStorage.t) :
  (target <= initialRatio st "--text" "--brand-muted")%R ->
  (target <= initialRatio st "--text" "--assistant-bg")%R ->
  autoFixContrast target st store = (st, store).
Proof.
  intros H1 H2. unfold autoFixContrast, pairs. cbn [foldl].
  set (s0 := {| fg := EmptyString; ratio := 0%R; attempts := 0;
                changed := false; css := st |}).
  cbn [css changed s0].
  destruct (fixPair_met target "--text" "--brand-muted" false st s0 H1)
    as [Hcss1 Hch1].
  set (s1 := final_state (fixPair target "--text" "--brand-muted" false st) s0)
    in *.
  rewrite Hcss1, Hch1.
  destruct (fixPair_met target "--text" "--assistant-bg" false st s1 H2)
    as [-> ->].
  reflexivity.
Qed.

Local Open Scope R_scope.

Lemma initialRatio_blackText bgVar :
  bgVar <> "--text"%string -> initialRatio blackText "--text" bgVar = 21.
Proof.
  intros Hbg. unfold initialRatio, getPropertyValue, blackText. cbn [inline sheet].
  rewrite lookup_singleton_eq, lookup_singleton_ne, lookup_empty by done.
  cbn [default from_option].
  change (trim "#000000") with "#000000"%string.
  change (trim EmptyString) with EmptyString. cbn [or_else].
  rewrite contrastRatio_strings. unfold luminance.
  change (hexToRgb "#000000") with (Some 0%Z, Some 0%Z, Some 0%Z).
  change (hexToRgb "#ffffff") with (Some 255%Z, Some 255%Z, Some 255%Z).
  rewrite luminance_black, luminance_white. cbn [ratioOf or_zero].
  rewrite Rmax_right, Rmin_left by lra. lra.
Qed.

Local Close Scope R_scope.

Lemma autoFixContrast_leaves_met_targets_alone_witness :
  autoFixContrast 4.5 blackText emptyStorage = (blackText, emptyStorage).
Proof.
  apply (autoFixContrast_leaves_met_targets_alone 4.5 blackText emptyStorage);
    rewrite initialRatio_blackText by discriminate; lra.
Defined.

(** The corrector as its two loops, one after the other. *)
Lemma autoFixContrast_unfold target st store :
  let s0 := {| fg := EmptyString; ratio := 0%R; attempts := 0;
               changed := false; css := st |} in
  let s1 := final_state (fixPair target "--text" "--brand-muted" false st) s0 in
  let s2 := final_state
              (fixPair target "--text" "--assistant-bg" (changed s1) (css s1)) s1 in
  autoFixContrast target st store =
  if changed s2 then
    match localStorage.setItem store "loreal_color_adjusts"
            (JSON.stringify (adjustments (css s2))) with
    | Ok store' => (css s2, store')
    | Throw _ => (css s2, store)
    end
  else (css s2, store).
Proof. reflexivity. Qed.

(** X22.  The corrector touches the text colour only: of the root style
    it changes no style sheet value and no inline property but [--text],
    and of the storage no item but [loreal_color_adjusts]. *)
Theorem autoFixContrast_touches_text_colour_only
    (target : R) (st : style) (store : localStorage.t) :
  let '(st', store') := autoFixContrast target st store in
  sheet st' = sheet st /\
  (forall name, name <> "--text" -> inline st' !! name = inline st !! name) /\
  (forall key, key <> "loreal_color_adjusts" ->
     localStorage.getItem store' key = localStorage.getItem store key).
Proof.
  rewrite autoFixContrast_unfold. cbn zeta.
  set (s0 := {| fg := EmptyString; ratio := 0%R; attempts := 0;
                changed := false; css := st |}).
  destruct (fixPair_final target "--text" "--brand-muted" false st)
    as (s1 & _ & -> & _ & _ & _ & (Hsheet1 & Hother1 & _) & _).
  destruct (fixPair_final target "--text" "--assistant-bg" (changed s1) (css s1))
    as (s2 & _ & -> & _ & _ & _ & (Hsheet2 & Hother2 & _) & _).
  assert (Hstyle : sheet (css s2) = sheet st /\
            forall name, name <> "--text" ->
                         inline (css s2) !! name = inline st !! name).
  { split; [congruence|]. intros name Hname.
    by rewrite Hother2, Hother1. }
  destruct Hstyle as [Hsheet Hother].
  destruct (changed s2); [|done].
  unfold localStorage.setItem.
  destruct (localStorage.quota _ _ _ _); [|done].
  split; [done|]. split; [done|].
  intros key Hkey. unfold localStorage.getItem. cbn.
  by apply lookup_insert_ne.
Qed.

Lemma adjustments_json st : JSON.is_json (adjustments st) = true.
Proof.
  unfold adjustments, adjusted. cbn [omap list_omap].
  repeat match goal with
         | |- context [inline st !! ?k] =>
             destruct (inline st !! k) as [[|? ?]|]
         end; reflexivity.
Qed.

Lemma adjustments_text st v :
  inline st !! "--text" = Some v -> v <> EmptyString ->
  opt_prop (adjustments st) "--text" = Str (trim v).
Proof.
  intros Hv Hne. unfold adjustments, adjusted. cbn [omap list_omap].
  rewrite Hv. destruct v as [|c v]; [done|].
  repeat match goal with
         | |- context [inline st !! ?k] =>
             destruct (inline st !! k) as [[|? ?]|]
         end; reflexivity.
Qed.

Local Open Scope R_scope.

Lemma initialRatio_le_21 st fgVar bgVar : initialRatio st fgVar bgVar <= 21.
Proof.
  unfold initialRatio. rewrite contrastRatio_strings.
  set (a := or_else _ _). set (b := or_else _ _).
  destruct (luminance a) as [|la] eqn:Ha, (luminance b) as [|lb] eqn:Hb;
    cbn [ratioOf or_zero]; try lra.
  apply (ratioOf_range la lb); [by eapply luminance_range..|done].
Qed.

Local Close Scope R_scope.

(** X23.  When one of the two pairs is below the target at the start,
    and the storage accepts the write, the corrector leaves an inline
    value of [--text] that is not empty, and saves the adjustments: the
    record at [loreal_color_adjusts] is the JSON text of an object that
    reads back as written and holds that value under [--text]. *)
Theorem autoFixContrast_saves_the_adjusted_text
    (target : R) (st : style) (store : localStorage.t) :
  (initialRatio st "--text" "--brand-muted" < target)%R \/
  (initialRatio st "--text" "--assistant-bg" < target)%R ->
  unlimited store ->
  let '(st', store') := autoFixContrast target st store in
  exists v,
    inline st' !! "--text" = Some v /\
    v <> EmptyString /\
    opt_prop (adjustments st') "--text" = Str v /\
    localStorage.getItem store' "loreal_color_adjusts" =
      Some (JSON.stringify (adjustments st')) /\
    JSON.parse (JSON.stringify (adjustments st')) = Some (adjustments st').
Proof.
  intros Hlow Hstore. rewrite autoFixContrast_unfold. cbn zeta.
  set (s0 := {| fg := EmptyString; ratio := 0%R; attempts := 0;
                changed := false; css := st |}).
  assert (H1 : exists s1,
            final_state (fixPair target "--text" "--brand-muted" false st) s0 = s1 /\
            (css s1 = st /\ changed s1 = false /\
             (initialRatio st "--text" "--assistant-bg" < target)%R \/
             changed s1 = true /\
             exists v, inline (css s1) !! "--text" = Some v /\
                       spaceless v = true /\ v <> EmptyString)).
  { destruct (Rlt_dec (initialRatio st "--text" "--brand-muted") target)
      as [Hlt|Hge].
    - destruct (fixPair_final target "--text" "--brand-muted" false st)
        as (s1 & _ & -> & _ & _ & _ & (_ & _ & Ht) & Hpos).
      exists s1. split; [done|]. right.
      destruct Ht as [(H0 & _) | (_ & Hch & Hin & Hsp & Hne)];
        [specialize (Hpos Hlt); lia|].
      split; [done|]. by exists (fg s1).
    - destruct (fixPair_met target "--text" "--brand-muted" false st s0)
        as [Hcss Hch]; [lra|].
      eexists. split; [reflexivity|]. left.
      split; [done|]. split; [done|]. destruct Hlow; [done|done]. }
  destruct H1 as (s1 & -> & H1).
  assert (H2 : exists s2,
            final_state
              (fixPair target "--text" "--assistant-bg" (changed s1) (css s1)) s1
              = s2 /\
            changed s2 = true /\
            exists v, inline (css s2) !! "--text" = Some v /\
                      spaceless v = true /\ v <> EmptyString).
  { destruct (fixPair_final target "--text" "--assistant-bg" (changed s1) (css s1))
      as (s2 & _ & -> & _ & _ & _ & (_ & _ & Ht) & Hpos).
    exists s2. split; [done|].
    destruct H1 as [(Hcss & Hch & Hlt) | (Hch & v & Hv)].
    - rewrite Hcss in Hpos. specialize (Hpos Hlt).
      destruct Ht as [(H0 & _) | (_ & Hch2 & Hin & Hsp & Hne)]; [lia|].
      split; [done|]. by exists (fg s2).
    - destruct Ht as [(_ & Hcss2 & Hch2) | (_ & Hch2 & Hin & Hsp & Hne)].
      + split; [congruence|]. exists v. by rewrite Hcss2.
      + split; [done|]. by exists (fg s2). }
  destruct H2 as (s2 & -> & -> & v & Hv & Hsp & Hne).
  unfold localStorage.setItem. rewrite Hstore.
  exists v. split; [done|]. split; [done|].
  split; [by rewrite (adjustments_text _ v Hv Hne), trim_spaceless|].
  split; [apply lookup_insert_eq|].
  apply JSONFacts.parse_stringify, adjustments_json.
Qed.

Lemma autoFixContrast_saves_the_adjusted_text_witness :
  let '(st', store') := autoFixContrast 22 plainStyle emptyStorage in
  exists v,
    inline st' !! "--text" = Some v /\
    v <> EmptyString /\
    opt_prop (adjustments st') "--text" = Str v /\
    localStorage.getItem store' "loreal_color_adjusts" =
      Some (JSON.stringify (adjustments st')) /\
    JSON.parse (JSON.stringify (adjustments st')) = Some (adjustments st').
Proof.
  apply (autoFixContrast_saves_the_adjusted_text 22 plainStyle emptyStorage).
  - left. pose proof (initialRatio_le_21 plainStyle "--text" "--brand-muted").
    lra.
  - intros items key text. reflexivity.
Defined.

(** ** The contrast audit *)

Local Open Scope R_scope.

Lemma toFixed2_zero : ContrastAudit.toFixed2 0 = 0.
Proof.
  unfold ContrastAudit.toFixed2.
  destruct (base_Int_part (0 * 100 + / 2)) as [Hle Hgt].
  set (n := Int_part (0 * 100 + / 2)) in *.
  assert (Hn : n = 0%Z).
  { assert (-1 < n)%Z by (apply lt_IZR; lra).
    assert (n < 1)%Z by (apply lt_IZR; lra). lia. }
  rewrite Hn. lra.
Qed.

Lemma toFixed2_range x : 1 <= x <= 21 -> 1 <= ContrastAudit.toFixed2 x <= 21.
Proof.
  intros Hx. unfold ContrastAudit.toFixed2.
  destruct (base_Int_part (x * 100 + / 2)) as [Hle Hgt].
  set (n := Int_part (x * 100 + / 2)) in *.
  assert (H1 : (99 < n)%Z) by (apply lt_IZR; lra).
  assert (H2 : (n < 2101)%Z) by (apply lt_IZR; lra).
  assert (H3 : 100 <= IZR n) by (apply IZR_le; lia).
  assert (H4 : IZR n <= 2100) by (apply IZR_le; lia).
  lra.
Qed.

(** A contrast as the scripts use it, with 0 for [NaN]: it is 0, or
    between 1 and 21. *)
Lemma or_zero_contrast a b :
  or_zero (contrastRatio (Str a) (Str b)) = 0 \/
  1 <= or_zero (contrastRatio (Str a) (Str b)) <= 21.
Proof.
  rewrite contrastRatio_strings.
  destruct (luminance a) as [|la] eqn:Ha, (luminance b) as [|lb] eqn:Hb;
    cbn [ratioOf or_zero]; try (by left).
  right. apply (ratioOf_range la lb); [by eapply luminance_range..|done].
Qed.

Lemma or_else_default a b : b <> EmptyString -> or_else a b <> EmptyString.
Proof. by destruct a. Qed.

(** X24.  The audit always reports: for every root style it returns its
    four rows, in the order of its pairs; the colours of a row are
    strings that are not empty (the value of the variable, or the
    stand-in colour); and the contrast of a row, computed from these two
    colours and rounded to hundredths, is 0 (for a colour that gives no
    number) or between 1 and 21. *)
Theorem runContrastAudit_reports_four_rows (st : style) :
  map ContrastAudit.pair (ContrastAudit.runContrastAudit st) =
    ["Body text vs background"; "Button text vs brand gold";
     "User bubble text vs user bg"; "Assistant text vs assistant bg"]%string /\
  Forall (fun row =>
            ContrastAudit.fg row <> EmptyString /\
            ContrastAudit.bg row <> EmptyString /\
            ContrastAudit.contrast row =
              ContrastAudit.toFixed2
                (or_zero (contrastRatio (Str (ContrastAudit.fg row))
                                        (Str (ContrastAudit.bg row)))) /\
            (ContrastAudit.contrast row = 0 \/
             1 <= ContrastAudit.contrast row <= 21))
         (ContrastAudit.runContrastAudit st).
Proof.
  split; [reflexivity|].
  unfold ContrastAudit.runContrastAudit, ContrastAudit.pairs. cbn [map].
  repeat (apply List.Forall_cons;
    [cbn [ContrastAudit.fg ContrastAudit.bg ContrastAudit.contrast];
     split; [by apply or_else_default|];
     split; [by apply or_else_default|];
     split; [reflexivity|];
     match goal with
     | |- context [contrastRatio (Str ?a) (Str ?b)] =>
         destruct (or_zero_contrast a b) as [-> | H];
           [left; apply toFixed2_zero|right; by apply toFixed2_range]
     end|]).
  apply List.Forall_nil.
Qed.

Local Close Scope R_scope.

(** ** The relay *)

Lemma Worker_fetch_forwarding upstream apiKey req userInput :
  Worker.method req <> "OPTIONS" ->
  truthy apiKey = true ->
  Worker.input req = Ok userInput ->
  readable userInput ->
  Worker.fetch upstream apiKey req =
    ([Worker.apiRequest apiKey (opt_prop userInput "messages")],
     bind (upstream (Worker.apiRequest apiKey (opt_prop userInput "messages")))
       (fun response =>
          bind (json response) (fun data =>
            Ok {| Worker.status := 200; Worker.body := Worker.stringified data |}))).
Proof.
  intros Hm Hkey Hin Hread. unfold Worker.fetch.
  apply String.eqb_neq in Hm. rewrite Hm, Hkey, Hin. cbn [negb].
  by rewrite get_prop_opt_prop.
Qed.

Lemma relayEnv_relayed upstream apiKey : relayed (relayEnv upstream apiKey) upstream apiKey.
Proof.
  intros req a Ha. cbn [fetch relayEnv]. rewrite Ha.
  eexists. split; [reflexivity|]. by repeat split.
Qed.

(** What one submission sends and leaves, in terms of the response to
    its request. *)
Lemma onSubmit_request e input userTs assistantTs p c t :
  trim input = String c t ->
  Forall readable (messages p) ->
  configured e = true ->
  let text := String c t in
  let ms := (messages p ++ [userMessage text userTs])%list in
  let i := loadingIndex text userTs p in
  let o := onSubmit e input userTs assistantTs p in
  sent o = [requestOf e ms] /\
  final o =
    match
      bind (fetch e (requestOf e ms)) (fun res =>
        if negb (ok res) then
          Throw (serviceName e +:+ " error: " +:+
                 JSON.number_to_string (status res) +:+ " " +:+ statusText res)
        else bind (json res) (fun data =>
               Ok (showReply (reply data) assistantTs i (asked text userTs p))))
    with
    | Ok p6 => p6
    | Throw err => setBubble i (errorBubble err) (asked text userTs p)
    end.
Proof.
  intros Ht Hread Hconf. cbn zeta.
  rewrite (onSubmit_unfold _ _ _ _ _ c t Ht). cbn zeta.
  rewrite attempt_configured by (by apply asked_readable || done).
  cbn [fst snd sent final]. by rewrite asked_messages.
Qed.

Lemma stripped_json_app ms m :
  forallb JSON.is_json (map stripped ms) = true ->
  JSON.is_json (stripped m) = true ->
  forallb JSON.is_json (map stripped (ms ++ [m])%list) = true.
Proof.
  intros Hms Hm. rewrite map_app, forallb_app, Hms.
  cbn [map forallb andb]. by rewrite Hm.
Qed.

(** The worker's reading of the page's relay request. *)
Lemma delivered_relayRequest e ms :
  forallb JSON.is_json (map stripped ms) = true ->
  delivered (relayRequest e ms) =
    {| Worker.method := "POST";
       Worker.input := Ok (payload (map stripped ms)) |}.
Proof.
  intros Hjson. unfold delivered, relayRequest. cbn [body].
  rewrite JSONFacts.parse_stringify; [done|].
  cbn [payload JSON.is_json forallb snd]. by rewrite Hjson.
Qed.

Lemma Worker_fetch_relayRequest upstream apiKey e ms :
  forallb JSON.is_json (map stripped ms) = true ->
  truthy apiKey = true ->
  Worker.fetch upstream apiKey (delivered (relayRequest e ms)) =
    ([Worker.apiRequest apiKey (Arr (map stripped ms))],
     bind (upstream (Worker.apiRequest apiKey (Arr (map stripped ms))))
       (fun response =>
          bind (json response) (fun data =>
            Ok {| Worker.status := 200; Worker.body := Worker.stringified data |}))).
Proof.
  intros Hjson Hkey. rewrite delivered_relayRequest by done.
  by rewrite (Worker_fetch_forwarding upstream apiKey _ (payload (map stripped ms))).
Qed.

(** X25.  From the page to the API, through the worker.  A submission on
    a page that is configured for the relay sends one request; the
    worker, with its key, turns it into one request to the API, which
    carries the worker's key and whose body reads as the model
    [gpt-4o], the limit of 300 tokens, and the transcript with the
    question at its end, each entry with its role and content only. *)
Theorem relay_delivers_the_stripped_transcript
    (e : env) (upstream : request -> result response) (apiKey : value)
    (input : string) (userTs assistantTs : Z) (p : page) :
  trim input <> EmptyString ->
  Forall readable (messages p) ->
  forallb JSON.is_json (map stripped (messages p)) = true ->
  relay_configured e = true ->
  truthy apiKey = true ->
  let o := onSubmit e input userTs assistantTs p in
  let ms := (messages p ++ [userMessage (trim input) userTs])%list in
  exists req toApi,
    sent o = [req] /\
    (Worker.fetch upstream apiKey (delivered req)).1 = [toApi] /\
    url toApi = Str "https://api.openai.com/v1/chat/completions" /\
    bearer toApi = Some apiKey /\
    JSON.parse (body toApi) = Some (apiBody ms).
Proof.
  intros Htext Hread Hjson Hrelay Hkey o ms. subst o ms.
  destruct (trim input) as [|c t] eqn:Ht; [done|].
  destruct (onSubmit_request e input userTs assistantTs p c t Ht Hread)
    as [Hsent _]; [unfold configured; by rewrite Hrelay|].
  unfold requestOf in Hsent. rewrite Hrelay in Hsent.
  set (ms := (messages p ++ [userMessage (String c t) userTs])%list) in *.
  assert (Hms : forallb JSON.is_json (map stripped ms) = true)
    by (by apply stripped_json_app).
  exists (relayRequest e ms), (Worker.apiRequest apiKey (Arr (map stripped ms))).
  split; [exact Hsent|].
  rewrite Worker_fetch_relayRequest by done. cbn [fst].
  split; [done|]. split; [done|]. split; [done|].
  unfold Worker.apiRequest. cbn [body].
  apply JSONFacts.parse_stringify.
  unfold apiBody. cbn [JSON.is_json forallb snd]. by rewrite Hms.
Qed.

Lemma relay_delivers_the_stripped_transcript_witness :
  let e := relayEnv unauthorized (Str "sk-worker") in
  let o := onSubmit e " Hi " 1700000000123 1700000000456 (freshPage emptyStorage) in
  let ms := (messages (freshPage emptyStorage) ++
             [userMessage (trim " Hi ") 1700000000123])%list in
  exists req toApi,
    sent o = [req] /\
    (Worker.fetch unauthorized (Str "sk-worker") (delivered req)).1 = [toApi] /\
    url toApi = Str "https://api.openai.com/v1/chat/completions" /\
    bearer toApi = Some (Str "sk-worker") /\
    JSON.parse (body toApi) = Some (apiBody ms).
Proof.
  apply (relay_delivers_the_stripped_transcript
           (relayEnv unauthorized (Str "sk-worker")) unauthorized (Str "sk-worker")
           " Hi " 1700000000123 1700000000456 (freshPage emptyStorage)).
  - discriminate.
  - repeat constructor; discriminate.
  - reflexivity.
  - reflexivity.
  - reflexivity.
Defined.




(** X27.  A worker without its key, seen from the page: the worker
    answers 500 without calling the API, the bubble shows the error of
    the worker with that status, and the transcript has grown by the
    question only. *)
Theorem relay_without_key_shows_worker_error
    (e : env) (upstream : request -> result response) (apiKey : value)
    (input : string) (userTs assistantTs : Z) (p : page) :
  trim input <> EmptyString ->
  Forall readable (messages p) ->
  relay_configured e = true ->
  truthy apiKey = false ->
  relayed e upstream apiKey ->
  let o := onSubmit e input userTs assistantTs p in
  (forall req, req ∈ sent o ->
     (Worker.fetch upstream apiKey (delivered req)).1 = []) /\
  messages (final o) = (messages p ++ [userMessage (trim input) userTs])%list /\
  exists text,
    last (chatWindow (final o)) =
      Some (errorBubble ("Worker error: 500 " +:+ text)).
Proof.
  intros Htext Hread Hrelay Hkey Hnet o. subst o.
  destruct (trim input) as [|c t] eqn:Ht; [done|].
  destruct (onSubmit_request e input userTs assistantTs p c t Ht Hread)
    as [Hsent Hfinal]; [unfold configured; by rewrite Hrelay|].
  cbn zeta in Hsent, Hfinal.
  set (ms := (messages p ++ [userMessage (String c t) userTs])%list) in *.
  assert (Hworker : forall req,
            Worker.fetch upstream apiKey (delivered req) =
            ([], Ok {| Worker.status := 500;
                       Worker.body :=
                         Some (Worker.errorBody
                                 "OPENAI_API_KEY not configured in Worker environment") |})).
  { intros req. unfold Worker.fetch. cbn [delivered Worker.method].
    by rewrite Hkey. }
  split.
  - intros req _. by rewrite Hworker.
  - destruct (Hnet (requestOf e ms) _ (f_equal snd (Hworker (requestOf e ms))))
      as (r & Hr & Hok & Hstatus & _).
    cbn [Worker.status] in Hok, Hstatus.
    rewrite Hr in Hfinal. cbn [bind] in Hfinal.
    rewrite Hok, Hstatus in Hfinal.
    change ((200 <=? 500)%Z && (500 <=? 299)%Z) with false in Hfinal.
    cbn [negb] in Hfinal. rewrite Hfinal.
    destruct (asked_chatWindow (String c t) userTs p) as (w & Hw & Hi).
    destruct (setBubble_last (loadingIndex (String c t) userTs p)
                (errorBubble (serviceName e +:+ " error: " +:+
                              JSON.number_to_string 500 +:+ " " +:+ statusText r))
                (asked (String c t) userTs p) w _ Hw Hi) as (Hcw & Hms & _).
    rewrite Hms, Hcw, asked_messages, last_snoc. split; [done|].
    exists (statusText r). unfold serviceName. by rewrite Hrelay.
Qed.

Lemma relay_without_key_shows_worker_error_witness :
  let e := relayEnv unauthorized Undefined in
  let o := onSubmit e " Hi " 1700000000123 1700000000456 (freshPage emptyStorage) in
  (forall req, req ∈ sent o ->
     (Worker.fetch unauthorized Undefined (delivered req)).1 = []) /\
  messages (final o) =
    (messages (freshPage emptyStorage) ++
     [userMessage (trim " Hi ") 1700000000123])%list /\
  exists text,
    last (chatWindow (final o)) =
      Some (errorBubble ("Worker error: 500 " +:+ text)).
Proof.
  apply (relay_without_key_shows_worker_error
           (relayEnv unauthorized Undefined) unauthorized Undefined
           " Hi " 1700000000123 1700000000456 (freshPage emptyStorage)).
  - discriminate.
  - repeat constructor; discriminate.
  - reflexivity.
  - reflexivity.
  - apply relayEnv_relayed.
Defined.

(** ** The theme switcher *)

Lemma index_of_found v l i :
  l !! i = Some v -> exists j, index_of v l = Some j /\ l !! j = Some v.
Proof.
  revert i. induction l as [|o l IH]; intros i; [done|].
  cbn [index_of]. destruct (String.eqb o v) eqn:Ho.
  - intros _. exists 0%nat. apply String.eqb_eq in Ho. by subst.
  - destruct i as [|i]; cbn.
    + intros [= ->]. by rewrite String.eqb_refl in Ho.
    + intros Hi. destruct (IH i Hi) as (j & -> & Hj). by exists (S j).
Qed.

(** X28.  The theme that the user chooses is the theme of the next
    visit.  When the user has selected an option with a value that is
    not empty, and the storage accepts the write, the [change] listener
    applies that theme to the body and stores it without touching
    another item; on a reload, whatever the page starts with,
    [applySavedTheme] applies the same theme and selects its option. *)
Theorem chosen_theme_survives_reload
    (u : themed) (s : select) (i : nat) (v : string) (reloaded : themed) :
  themeSelect u = Some s ->
  selectedIndex s = Some i ->
  options s !! i = Some v ->
  v <> EmptyString ->
  unlimited (themeStore u) ->
  themeStore reloaded = themeStore (onThemeChange u) ->
  options <$> themeSelect reloaded = Some (options s) ->
  data_theme (onThemeChange u) = Some v /\
  (forall key, key <> THEME_KEY ->
     localStorage.getItem (themeStore (onThemeChange u)) key =
     localStorage.getItem (themeStore u) key) /\
  data_theme (applySavedTheme reloaded) = Some v /\
  select_value <$> themeSelect (applySavedTheme reloaded) = Some v.
Proof.
  intros Hs Hi Hv Hne Hstore Hre Hopts.
  assert (Hval : or_else (select_value s) "classic" = v).
  { unfold select_value. rewrite Hi, Hv. by destruct v. }
  assert (Hchange : onThemeChange u =
            {| data_theme := Some v; themeSelect := Some s;
               themeStore :=
                 {| localStorage.items :=
                      <[THEME_KEY := v]> (localStorage.items (themeStore u));
                    localStorage.quota := localStorage.quota (themeStore u) |} |}).
  { unfold onThemeChange. rewrite Hs, Hval.
    unfold localStorage.setItem. by rewrite Hstore. }
  rewrite Hchange in Hre |- *. cbn [data_theme themeStore] in Hre |- *.
  split; [done|]. split.
  { intros key Hkey. unfold localStorage.getItem. cbn.
    by apply lookup_insert_ne. }
  unfold applySavedTheme. rewrite Hre. unfold localStorage.getItem.
  cbn [localStorage.items data_theme themeSelect].
  rewrite lookup_insert_eq. cbn [default from_option]. unfold Datatypes.id.
  assert (Hor : or_else v "classic" = v) by (by destruct v).
  rewrite Hor. split; [done|].
  destruct (themeSelect reloaded) as [r|]; [|done].
  cbn in Hopts. injection Hopts as Hopts. cbn [fmap option_fmap option_map].
  f_equal. unfold set_select_value, select_value. cbn [selectedIndex options].
  rewrite Hopts. destruct (index_of_found v (options s) i Hv) as (j & -> & ->).
  done.
Qed.

Lemma chosen_theme_survives_reload_witness :
  let u := {| data_theme := Some "classic"; themeSelect := Some threeThemes;
              themeStore := emptyStorage |} in
  let reloaded :=
    {| data_theme := None;
       themeSelect := Some {| options := ["classic"; "noir"; "rose"];
                              selectedIndex := Some 0%nat |};
       themeStore := themeStore (onThemeChange u) |} in
  data_theme (onThemeChange u) = Some "noir" /\
  (forall key, key <> THEME_KEY ->
     localStorage.getItem (themeStore (onThemeChange u)) key =
     localStorage.getItem (themeStore u) key) /\
  data_theme (applySavedTheme reloaded) = Some "noir" /\
  select_value <$> themeSelect (applySavedTheme reloaded) = Some "noir".
Proof.
  cbn zeta.
  apply (chosen_theme_survives_reload _ threeThemes 1 "noir").
  - reflexivity.
  - reflexivity.
  - reflexivity.
  - discriminate.
  - intros items key text. reflexivity.
  - reflexivity.
  - reflexivity.
Defined.

(** ** The worker URL form *)

Lemma onSaveWorkerUrl_unfold inputValue c ch t :
  trim inputValue = String ch t ->
  localStorage.quota (configStore c) (localStorage.items (configStore c))
    "loreal_worker_url" (String ch t) = true ->
  onSaveWorkerUrl inputValue c =
  renderWorkerConfigUI
    {| globalsOf := {| declared := declared (globalsOf c);
                       window_WORKER_URL := Str (String ch t) |};
       workerConfig := workerConfig c;
       configStore :=
         {| localStorage.items :=
              <["loreal_worker_url" := String ch t]>
                (localStorage.items (configStore c));
            localStorage.quota := localStorage.quota (configStore c) |} |}.
Proof.
  intros Ht Hq. unfold onSaveWorkerUrl. rewrite Ht.
  unfold localStorage.setItem. by rewrite Hq.
Qed.

Lemma renderWorkerConfigUI_globals c :
  globalsOf (renderWorkerConfigUI c) = globalsOf c /\
  configStore (renderWorkerConfigUI c) = configStore c.
Proof. unfold renderWorkerConfigUI. by destruct (workerConfig c). Qed.

(** X29.  A worker URL saved in the form is the worker URL of this visit
    and of the next, where no script declares [WORKER_URL].  After a
    save of a text that is not blank, on a storage that accepts the
    write, the identifier [WORKER_URL] reads the trimmed text and the
    form gives way to the line [Worker URL configured.]; on a reload
    the stored text becomes [window.WORKER_URL] again; and the submit
    handler takes it for its relay unless it is the placeholder. *)
Theorem saved_worker_url_is_used (c : configState) (inputValue : string) :
  trim inputValue <> EmptyString ->
  declared (globalsOf c) = None ->
  unlimited (configStore c) ->
  let c1 := onSaveWorkerUrl inputValue c in
  lookup_WORKER_URL (globalsOf c1) = Str (trim inputValue) /\
  (workerConfig c <> None -> workerConfig c1 = Some (Some UrlConfigured)) /\
  (forall g, declared g = None -> truthy (window_WORKER_URL g) = false ->
     lookup_WORKER_URL (applyStoredUrl (configStore c1) g) = Str (trim inputValue)) /\
  (forall e, WORKER_URL e = Str (trim inputValue) ->
     relay_configured e = negb (String.eqb (trim inputValue) placeholder)).
Proof.
  intros Htext Hdecl Hstore c1. subst c1.
  destruct (trim inputValue) as [|ch t] eqn:Ht; [done|].
  rewrite (onSaveWorkerUrl_unfold inputValue c ch t Ht) by apply Hstore.
  set (c' := {| globalsOf := _; workerConfig := workerConfig c; configStore := _ |}).
  destruct (renderWorkerConfigUI_globals c') as [-> ->].
  split; [|split; [|split]].
  - unfold lookup_WORKER_URL. cbn. by rewrite Hdecl.
  - intros Hc. unfold renderWorkerConfigUI. cbn [workerConfig c'].
    destruct (workerConfig c); [|done].
    cbn [globalsOf c']. unfold lookup_WORKER_URL. cbn. by rewrite Hdecl.
  - intros g Hg Hw. unfold applyStoredUrl, localStorage.getItem. cbn.
    rewrite lookup_insert_eq, Hw. unfold lookup_WORKER_URL. cbn. by rewrite Hg.
  - intros e He. unfold relay_configured. rewrite He. cbn.
    by rewrite String.eqb_sym.
Qed.

Lemma saved_worker_url_is_used_witness :
  let c1 := onSaveWorkerUrl " https://relay.example/ " unconfigured in
  lookup_WORKER_URL (globalsOf c1) = Str (trim " https://relay.example/ ") /\
  (workerConfig unconfigured <> None ->
   workerConfig c1 = Some (Some UrlConfigured)) /\
  (forall g, declared g = None -> truthy (window_WORKER_URL g) = false ->
     lookup_WORKER_URL (applyStoredUrl (configStore c1) g) =
     Str (trim " https://relay.example/ ")) /\
  (forall e, WORKER_URL e = Str (trim " https://relay.example/ ") ->
     relay_configured e =
     negb (String.eqb (trim " https://relay.example/ ") placeholder)).
Proof.
  apply (saved_worker_url_is_used unconfigured " https://relay.example/ ").
  - discriminate.
  - reflexivity.
  - intros items key text. reflexivity.
Defined.

(** X30.  The constant of [config.js] wins.  Where a script declares
    [WORKER_URL], neither the stored URL nor a URL saved in the form
    changes what the identifier [WORKER_URL] reads, and with it what the
    submit handler uses; and when the declared value is falsy, the form
    is shown again after every save. *)
Theorem declared_worker_url_shadows_the_saved_one
    (c : configState) (v : value) (inputValue : string)
    (store : localStorage.t) :
  declared (globalsOf c) = Some v ->
  lookup_WORKER_URL (applyStoredUrl store (globalsOf c)) = v /\
  lookup_WORKER_URL (globalsOf (onSaveWorkerUrl inputValue c)) = v /\
  (truthy v = false -> workerConfig c <> None ->
   workerConfig (renderWorkerConfigUI c) = Some (Some UrlForm) /\
   workerConfig (onSaveWorkerUrl inputValue (renderWorkerConfigUI c)) =
     Some (Some UrlForm)).
Proof.
  intros Hdecl. split; [|split].
  - unfold applyStoredUrl.
    destruct (localStorage.getItem store "loreal_worker_url") as [[|ch t]|];
      try (unfold lookup_WORKER_URL; by rewrite Hdecl).
    destruct (truthy (window_WORKER_URL (globalsOf c)));
      unfold lookup_WORKER_URL; cbn; by rewrite Hdecl.
  - unfold onSaveWorkerUrl.
    destruct (trim inputValue) as [|ch t];
      [unfold lookup_WORKER_URL; by rewrite Hdecl|].
    match goal with
    | |- context [renderWorkerConfigUI ?x] =>
        destruct (renderWorkerConfigUI_globals x) as [-> _]
    end.
    unfold lookup_WORKER_URL. cbn. by rewrite Hdecl.
  - intros Hfalsy Hc.
    assert (Hform : forall c', declared (globalsOf c') = Some v ->
              workerConfig c' <> None ->
              workerConfig (renderWorkerConfigUI c') = Some (Some UrlForm)).
    { intros c' Hd Hw. unfold renderWorkerConfigUI.
      destruct (workerConfig c'); [|done]. cbn.
      unfold lookup_WORKER_URL. by rewrite Hd, Hfalsy. }
    split; [by apply Hform|].
    destruct (renderWorkerConfigUI_globals c) as [Hg _].
    unfold onSaveWorkerUrl.
    destruct (trim inputValue) as [|ch t]; [by apply Hform|].
    apply Hform; cbn; rewrite ?Hg, ?Hdecl; [done|].
    unfold renderWorkerConfigUI. by destruct (workerConfig c).
Qed.

Lemma declared_worker_url_shadows_the_saved_one_witness :
  let v := Str "https://loreal-worker.sustaitah03.workers.dev/" in
  lookup_WORKER_URL (applyStoredUrl emptyStorage (globalsOf shipped)) = v /\
  lookup_WORKER_URL
    (globalsOf (onSaveWorkerUrl "https://other.example/" shipped)) = v /\
  (truthy v = false -> workerConfig shipped <> None ->
   workerConfig (renderWorkerConfigUI shipped) = Some (Some UrlForm) /\
   workerConfig (onSaveWorkerUrl "https://other.example/"
                   (renderWorkerConfigUI shipped)) =
     Some (Some UrlForm)).
Proof.
  apply (declared_worker_url_shadows_the_saved_one shipped
           (Str "https://loreal-worker.sustaitah03.workers.dev/")
           "https://other.example/" emptyStorage).
  reflexivity.
Defined.
